(** * The hash-map node store of open62541 (plugins/ua_nodestore_hashmap.c)

    A shallow embedding of the default node store: an open-addressing hash
    map from NodeIds to heap-allocated entries, with double hashing over a
    table whose size is taken from a fixed ladder of primes, tombstones,
    reference-counted entries with deferred deletion, and copy-on-write
    replacement. *)

From Stdlib Require Import ZArith Znumtheory Lia List Bool.
From stdpp Require Import base tactics option list numbers sorting gmap.

Local Open Scope Z_scope.

(** ** Machine integers

    The C code computes in [UA_UInt16], [UA_UInt32] and [UA_UInt64]; the
    embedding uses [Z] and writes every wrap-around out. *)

Definition u16 (x : Z) : Z := x mod 2 ^ 16.
Definition u32 (x : Z) : Z := x mod 2 ^ 32.
Definition u64 (x : Z) : Z := x mod 2 ^ 64.
Definition UA_UINT32_MAX : Z := 4294967295.

(** ** Data model *)

Inductive UA_StatusCode :=
| UA_STATUSCODE_GOOD
| UA_STATUSCODE_BADOUTOFMEMORY
| UA_STATUSCODE_BADINTERNALERROR
| UA_STATUSCODE_BADNODEIDUNKNOWN
| UA_STATUSCODE_BADNODEIDEXISTS
| UA_STATUSCODE_BADENCODINGERROR.

#[global] Instance UA_StatusCode_eq_dec : EqDecision UA_StatusCode.
Proof. solve_decision. Defined.

Inductive UA_NodeClass :=
| UA_NODECLASS_UNSPECIFIED
| UA_NODECLASS_OBJECT
| UA_NODECLASS_VARIABLE
| UA_NODECLASS_METHOD
| UA_NODECLASS_OBJECTTYPE
| UA_NODECLASS_VARIABLETYPE
| UA_NODECLASS_REFERENCETYPE
| UA_NODECLASS_DATATYPE
| UA_NODECLASS_VIEW.

#[global] Instance UA_NodeClass_eq_dec : EqDecision UA_NodeClass.
Proof. solve_decision. Defined.

(** The identifier of a NodeId is a tagged union ([identifierType] plus the
    union [identifier]); the payload of the non-numeric kinds is kept as a
    list of bytes. *)
Inductive UA_Identifier :=
| UA_NODEIDTYPE_NUMERIC (numeric : Z)
| UA_NODEIDTYPE_STRING (string : list Z)
| UA_NODEIDTYPE_GUID (guid : list Z)
| UA_NODEIDTYPE_BYTESTRING (byteString : list Z).

#[global] Instance UA_Identifier_eq_dec : EqDecision UA_Identifier.
Proof. solve_decision. Defined.

Record UA_NodeId := mkNodeId {
  namespaceIndex : Z;
  identifier : UA_Identifier
}.

#[global] Instance UA_NodeId_eq_dec : EqDecision UA_NodeId.
Proof. solve_decision. Defined.

(** [UA_NodeId_equal] belongs to the type library, not to the node store: it
    compares namespace, kind and identifier. *)
Definition UA_NodeId_equal (a b : UA_NodeId) : bool := bool_decide (a = b).

Definition UA_NODEID_NULL : UA_NodeId := mkNodeId 0 (UA_NODEIDTYPE_NUMERIC 0).

(** A node: the store only looks at its NodeId and its class; [attributes]
    stands for everything else the node carries. *)
Record UA_Node := mkNode {
  nodeId : UA_NodeId;
  nodeClass : UA_NodeClass;
  attributes : Z
}.

(** Pointers are addresses: [NULL] is 0, the tombstone sentinel is 1, and
    every allocated entry lives at an address above the sentinel.  The
    address of the embedded node and the address of its entry differ by a
    fixed offset ([container_of]); the embedding identifies the two. *)
Definition NULL : Z := 0.
Definition UA_NODEMAP_TOMBSTONE : Z := 1.
Definition UA_NODEMAP_MINSIZE : Z := 64.

Record UA_NodeMapEntry := mkEntry {
  nodeIdHash : Z;
  orig : Z;
  refCount : Z;
  deleted : bool;
  node : UA_Node
}.

Record UA_NodeMap := mkNodeMap {
  entries : list Z;
  size : Z;
  count : Z;
  sizePrimeIndex : Z
}.

(** The state of a store: the map structure and the heap of entries that
    are currently allocated (published or not). *)
Record Store := mkStore {
  ns : UA_NodeMap;
  heap : gmap Z UA_NodeMapEntry
}.

Definition set_nodeIdHash (h : Z) (e : UA_NodeMapEntry) : UA_NodeMapEntry :=
  mkEntry h (orig e) (refCount e) (deleted e) (node e).
Definition set_orig (o : Z) (e : UA_NodeMapEntry) : UA_NodeMapEntry :=
  mkEntry (nodeIdHash e) o (refCount e) (deleted e) (node e).
Definition set_refCount (r : Z) (e : UA_NodeMapEntry) : UA_NodeMapEntry :=
  mkEntry (nodeIdHash e) (orig e) r (deleted e) (node e).
Definition set_deleted (d : bool) (e : UA_NodeMapEntry) : UA_NodeMapEntry :=
  mkEntry (nodeIdHash e) (orig e) (refCount e) d (node e).
Definition set_node (n : UA_Node) (e : UA_NodeMapEntry) : UA_NodeMapEntry :=
  mkEntry (nodeIdHash e) (orig e) (refCount e) (deleted e) n.
Definition set_numeric (n : Z) (nd : UA_Node) : UA_Node :=
  mkNode (mkNodeId (namespaceIndex (nodeId nd)) (UA_NODEIDTYPE_NUMERIC n))
         (nodeClass nd) (attributes nd).

Definition set_entries (l : list Z) (m : UA_NodeMap) : UA_NodeMap :=
  mkNodeMap l (size m) (count m) (sizePrimeIndex m).
Definition set_count (c : Z) (m : UA_NodeMap) : UA_NodeMap :=
  mkNodeMap (entries m) (size m) c (sizePrimeIndex m).

(** ** HashMap utilities *)

Definition primes : list Z :=
  [ 7;         13;         31;         61;         127;         251;
    509;       1021;       2039;       4093;       8191;        16381;
    32749;     65521;      131071;     262139;     524287;      1048573;
    2097143;   4194301;    8388593;    16777213;   33554393;    67108859;
    134217689; 268435399;  536870909;  1073741789; 2147483647;  4294967291 ].

(** [mod] of the C file; the name is taken by a notation here. *)
Definition mod1 (h size : Z) : Z := h mod size.
Definition mod2 (h size : Z) : Z := u32 (1 + h mod u32 (size - 2)).

(** The binary search of [higher_prime_index]; [low], [high] and [mid] are
    16-bit.  [None] stands for a read outside of [primes] or for a search
    that has not finished after [fuel] rounds (neither happens, see
    [higher_prime_index_total] below). *)
Fixpoint higher_prime_index_loop (fuel : nat) (n low high : Z) : option Z :=
  match fuel with
  | O => None
  | S fuel' =>
      if low =? high then Some low
      else
        let mid := u16 (low + (high - low) / 2) in
        p ← primes !! Z.to_nat mid;
        if p <? n
        then higher_prime_index_loop fuel' n (u16 (mid + 1)) high
        else higher_prime_index_loop fuel' n low mid
  end.

Definition higher_prime_index (n : Z) : option Z :=
  higher_prime_index_loop 16 n 0 (u16 (Z.of_nat (length primes))).

(** One step of the probe: [idx += hash2; if(idx >= size) idx -= size;] on
    the 64-bit index. *)
Definition probe_next (size hash2 idx : Z) : Z :=
  let idx := u64 (idx + hash2) in
  if size <=? idx then u64 (idx - size) else idx.

Section NodeStore.

(** The hash of a NodeId is computed by the type library; the store sees it
    as a 32-bit value. *)
Variable H : UA_NodeId → Z.

Definition UA_NodeId_hash (id : UA_NodeId) : Z := u32 (H id).

(** The body of the [do ... while] of [findFreeSlot].  The result is
    [Some None] for a [NULL] return, [Some (Some i)] for [&ns->entries[i]],
    and [None] when the C code reads outside of the array or dereferences
    a dangling entry (or when [fuel] runs out). *)
Fixpoint findFreeSlot_loop (fuel : nat) (es : list Z)
    (hp : gmap Z UA_NodeMapEntry) (nodeid : UA_NodeId)
    (h size startIdx hash2 : Z) (candidate : option Z) (idx : Z)
  : option (option Z) :=
  match fuel with
  | O => None
  | S fuel' =>
      entry ← es !! Z.to_nat (u32 idx);
      if UA_NODEMAP_TOMBSTONE <? entry then
        e ← hp !! entry;
        if (nodeIdHash e =? h) && UA_NodeId_equal (nodeId (node e)) nodeid
        then Some None
        else
          let idx' := probe_next size hash2 idx in
          if u32 idx' =? startIdx then Some candidate
          else findFreeSlot_loop fuel' es hp nodeid h size startIdx hash2
                 candidate idx'
      else
        let candidate :=
          match candidate with None => Some (u32 idx) | Some c => Some c end in
        if entry =? NULL then Some candidate
        else
          let idx' := probe_next size hash2 idx in
          if u32 idx' =? startIdx then Some candidate
          else findFreeSlot_loop fuel' es hp nodeid h size startIdx hash2
                 candidate idx'
  end.

Definition findFreeSlot (m : UA_NodeMap) (hp : gmap Z UA_NodeMapEntry)
    (nodeid : UA_NodeId) : option (option Z) :=
  let h := UA_NodeId_hash nodeid in
  let size := size m in
  let idx := mod1 h size in
  let startIdx := u32 idx in
  let hash2 := mod2 h size in
  findFreeSlot_loop (Z.to_nat size) (entries m) hp nodeid h size startIdx hash2
    None idx.

Fixpoint findOccupiedSlot_loop (fuel : nat) (es : list Z)
    (hp : gmap Z UA_NodeMapEntry) (nodeid : UA_NodeId)
    (h size startIdx hash2 : Z) (idx : Z) : option (option Z) :=
  match fuel with
  | O => None
  | S fuel' =>
      entry ← es !! Z.to_nat (u32 idx);
      if UA_NODEMAP_TOMBSTONE <? entry then
        e ← hp !! entry;
        if (nodeIdHash e =? h) && UA_NodeId_equal (nodeId (node e)) nodeid
        then Some (Some (u32 idx))
        else
          let idx' := probe_next size hash2 idx in
          if u32 idx' =? startIdx then Some None
          else findOccupiedSlot_loop fuel' es hp nodeid h size startIdx hash2
                 idx'
      else
        if entry =? NULL then Some None
        else
          let idx' := probe_next size hash2 idx in
          if u32 idx' =? startIdx then Some None
          else findOccupiedSlot_loop fuel' es hp nodeid h size startIdx hash2
                 idx'
  end.

Definition findOccupiedSlot (m : UA_NodeMap) (hp : gmap Z UA_NodeMapEntry)
    (nodeid : UA_NodeId) : option (option Z) :=
  let h := UA_NodeId_hash nodeid in
  let size := size m in
  let idx := mod1 h size in
  let hash2 := mod2 h size in
  let startIdx := u32 idx in
  findOccupiedSlot_loop (Z.to_nat size) (entries m) hp nodeid h size startIdx
    hash2 idx.

End NodeStore.

(** ** The prime ladder *)

(** Trial division: [no_divisor fuel d n] holds when none of
    [d], [d+1], ..., [d+fuel-1] divides [n]. *)
Fixpoint no_divisor (fuel : nat) (d n : Z) : bool :=
  match fuel with
  | O => true
  | S fuel' => negb (n mod d =? 0) && no_divisor fuel' (d + 1) n
  end.

Definition prime_check (n : Z) : bool :=
  (1 <? n) && no_divisor (Z.to_nat (Z.sqrt n - 1)) 2 n.

(** ** The probe sequence *)

(** The slots read by a probe that starts at [idx], in the order of the
    [do ... while] loops, for [n] rounds. *)
Fixpoint probe_seq (n : nat) (size hash2 idx : Z) : list Z :=
  match n with
  | O => []
  | S n' => u32 idx :: probe_seq n' size hash2 (probe_next size hash2 idx)
  end.

(** What [findOccupiedSlot] does with the slots of a list, taken in order;
    the end of the list is the [return NULL] after the loop. *)
Fixpoint scanOccupied (es : list Z) (hp : gmap Z UA_NodeMapEntry)
    (nodeid : UA_NodeId) (h : Z) (l : list Z) : option (option Z) :=
  match l with
  | [] => Some None
  | i :: l' =>
      entry ← es !! Z.to_nat i;
      if UA_NODEMAP_TOMBSTONE <? entry then
        e ← hp !! entry;
        if (nodeIdHash e =? h) && UA_NodeId_equal (nodeId (node e)) nodeid
        then Some (Some i)
        else scanOccupied es hp nodeid h l'
      else if entry =? NULL then Some None
      else scanOccupied es hp nodeid h l'
  end.

(** The same for [findFreeSlot]; the end of the list is the
    [return candidate] after the loop. *)
Fixpoint scanFree (es : list Z) (hp : gmap Z UA_NodeMapEntry)
    (nodeid : UA_NodeId) (h : Z) (candidate : option Z) (l : list Z)
  : option (option Z) :=
  match l with
  | [] => Some candidate
  | i :: l' =>
      entry ← es !! Z.to_nat i;
      if UA_NODEMAP_TOMBSTONE <? entry then
        e ← hp !! entry;
        if (nodeIdHash e =? h) && UA_NodeId_equal (nodeId (node e)) nodeid
        then Some None
        else scanFree es hp nodeid h candidate l'
      else
        let candidate :=
          match candidate with None => Some i | Some c => Some c end in
        if entry =? NULL then Some candidate
        else scanFree es hp nodeid h candidate l'
  end.

(** A table whose array has [size] cells and whose occupied cells point to
    allocated entries: on such a table the probes never read out of
    bounds or through a dangling pointer. *)
Definition slots_live (m : UA_NodeMap) (hp : gmap Z UA_NodeMapEntry) : Prop :=
  Z.of_nat (length (entries m)) = size m ∧
  ∀ p, p ∈ entries m → UA_NODEMAP_TOMBSTONE < p → is_Some (hp !! p).

(** ** Entries on the heap *)

(** [UA_calloc] for one entry.  The environment proposes the address
    ([None]: out of memory); an allocator only hands out addresses that
    are above the sentinel and not in use, and it is free to hand out an
    address again once its block was freed. *)
Definition UA_calloc (hp : gmap Z UA_NodeMapEntry) (alloc : option Z) : Z :=
  match alloc with
  | Some p =>
      if UA_NODEMAP_TOMBSTONE <? p
      then match hp !! p with None => p | Some _ => NULL end
      else NULL
  | None => NULL
  end.

Definition createEntry (alloc : option Z) (nodeClass : UA_NodeClass)
    (hp : gmap Z UA_NodeMapEntry) : Z * gmap Z UA_NodeMapEntry :=
  match nodeClass with
  | UA_NODECLASS_UNSPECIFIED => (NULL, hp)
  | _ =>
      let entry := UA_calloc hp alloc in
      if entry =? NULL then (NULL, hp)
      else (entry,
            <[entry := mkEntry 0 NULL 0 false (mkNode UA_NODEID_NULL nodeClass 0)]>
              hp)
  end.

(** [UA_Node_clear] releases what the node owns and [UA_free] the block;
    both need the entry to be allocated. *)
Definition deleteNodeMapEntry (entry : Z) (hp : gmap Z UA_NodeMapEntry)
  : option (gmap Z UA_NodeMapEntry) :=
  _ ← hp !! entry;
  Some (delete entry hp).

Definition cleanupNodeMapEntry (entry : Z) (hp : gmap Z UA_NodeMapEntry)
  : option (gmap Z UA_NodeMapEntry) :=
  e ← hp !! entry;
  if deleted e && (refCount e =? 0) then deleteNodeMapEntry entry hp
  else Some hp.

(** [UA_atomic_cmpxchg] on the cell [slot] of the array.  [race] is a
    store of another thread to the same cell that lands between the load
    of the expected value and the compare-and-swap; the single-writer
    executions are those with [race = None].  The result is the value
    found in the cell and the array afterwards. *)
Definition UA_atomic_cmpxchg (cells : list Z) (slot : Z) (race : option Z)
    (expected desired : Z) : option (Z * list Z) :=
  let cells :=
    match race with
    | Some v => <[Z.to_nat slot := v]> cells
    | None => cells
    end in
  cur ← cells !! Z.to_nat slot;
  if cur =? expected then Some (cur, <[Z.to_nat slot := desired]> cells)
  else Some (cur, cells).

Section NodeStoreOps.

Variable H : UA_NodeId → Z.

(** ** Resizing *)

(** The re-insertion loop of [expand] over the old array: [j] counts the
    entries moved so far, the loop stops after [count] of them. *)
Fixpoint expand_loop (oentries : list Z) (j count : Z) (m : UA_NodeMap)
    (hp : gmap Z UA_NodeMapEntry) : option UA_NodeMap :=
  match oentries with
  | [] => Some m
  | p :: oentries' =>
      if j <? count then
        if p <=? UA_NODEMAP_TOMBSTONE then expand_loop oentries' j count m hp
        else
          e ← hp !! p;
          slot ← findFreeSlot H m hp (nodeId (node e));
          i ← slot;
          expand_loop oentries' (j + 1) count
            (set_entries (<[Z.to_nat i := p]> (entries m)) m) hp
      else Some m
  end.

(** [calloc_ok] tells whether the allocation of the new array succeeds. *)
Definition expand (calloc_ok : bool) (s : Store)
  : option (Store * UA_StatusCode) :=
  let osize := size (ns s) in
  let count := count (ns s) in
  if (u32 (count * 2) <? osize)
     && ((osize <? u32 (count * 8)) || (osize <=? UA_NODEMAP_MINSIZE))
  then Some (s, UA_STATUSCODE_GOOD)
  else
    let oentries := entries (ns s) in
    nindex ← higher_prime_index (u32 (count * 2));
    nsize ← primes !! Z.to_nat nindex;
    if negb calloc_ok then Some (s, UA_STATUSCODE_BADOUTOFMEMORY)
    else
      let m := mkNodeMap (replicate (Z.to_nat nsize) NULL) nsize count nindex in
      m' ← expand_loop (take (Z.to_nat osize) oentries) 0 count m (heap s);
      Some (mkStore m' (heap s), UA_STATUSCODE_GOOD).

Definition clearSlot (race : option Z) (calloc_ok : bool) (s : Store)
    (slot : Z) : option (Store * UA_StatusCode) :=
  entry ← entries (ns s) !! Z.to_nat slot;
  '(observed, es) ←
    UA_atomic_cmpxchg (entries (ns s)) slot race entry UA_NODEMAP_TOMBSTONE;
  if negb (observed =? entry)
  then Some (mkStore (set_entries es (ns s)) (heap s),
             UA_STATUSCODE_BADINTERNALERROR)
  else
    e ← heap s !! entry;
    hp ← cleanupNodeMapEntry entry (<[entry := set_deleted true e]> (heap s));
    let m := set_count (u32 (count (ns s) - 1)) (set_entries es (ns s)) in
    if (u32 (count m * 8) <? size m) && (32 <? size m)
    then '(s', _) ← expand calloc_ok (mkStore m hp);
         Some (s', UA_STATUSCODE_GOOD)
    else Some (mkStore m hp, UA_STATUSCODE_GOOD).

(** ** Interface functions *)

Definition UA_NodeMap_newNode (alloc : option Z) (nodeClass : UA_NodeClass)
    (s : Store) : Store * Z :=
  let '(entry, hp) := createEntry alloc nodeClass (heap s) in
  if entry =? NULL then (s, NULL) else (mkStore (ns s) hp, entry).

Definition UA_NodeMap_deleteNode (pnode : Z) (s : Store) : option Store :=
  hp ← deleteNodeMapEntry pnode (heap s);
  Some (mkStore (ns s) hp).

Definition UA_NodeMap_getNode (nodeid : UA_NodeId) (s : Store)
  : option (Store * Z) :=
  slot ← findOccupiedSlot H (ns s) (heap s) nodeid;
  match slot with
  | None => Some (s, NULL)
  | Some i =>
      entry ← entries (ns s) !! Z.to_nat i;
      e ← heap s !! entry;
      Some (mkStore (ns s)
              (<[entry := set_refCount (u16 (refCount e + 1)) e]> (heap s)),
            entry)
  end.

(** A failing [UA_assert] ends the run ([None]). *)
Definition UA_NodeMap_releaseNode (pnode : Z) (s : Store) : option Store :=
  if pnode =? NULL then Some s
  else
    e ← heap s !! pnode;
    if 0 <? refCount e then
      hp ← cleanupNodeMapEntry pnode
             (<[pnode := set_refCount (u16 (refCount e - 1)) e]> (heap s));
      Some (mkStore (ns s) hp)
    else None.

(** [alloc] is the address [UA_calloc] proposes for the copy and
    [copy_status] the result of [UA_Node_copy].  The last component of the
    result is what is stored into [*outNode] ([NULL]: nothing). *)
Definition UA_NodeMap_getNodeCopy (alloc : option Z)
    (copy_status : UA_StatusCode) (nodeid : UA_NodeId) (s : Store)
  : option (Store * UA_StatusCode * Z) :=
  slot ← findOccupiedSlot H (ns s) (heap s) nodeid;
  match slot with
  | None => Some (s, UA_STATUSCODE_BADNODEIDUNKNOWN, NULL)
  | Some i =>
      entry ← entries (ns s) !! Z.to_nat i;
      e ← heap s !! entry;
      let '(newItem, hp) := createEntry alloc (nodeClass (node e)) (heap s) in
      if newItem =? NULL then Some (s, UA_STATUSCODE_BADOUTOFMEMORY, NULL)
      else
        if decide (copy_status = UA_STATUSCODE_GOOD) then
          ne ← hp !! newItem;
          Some (mkStore (ns s)
                  (<[newItem := set_orig entry (set_node (node e) ne)]> hp),
                UA_STATUSCODE_GOOD, newItem)
        else
          hp' ← deleteNodeMapEntry newItem hp;
          Some (mkStore (ns s) hp', copy_status, NULL)
  end.

Definition UA_NodeMap_removeNode (race : option Z) (calloc_ok : bool)
    (nodeid : UA_NodeId) (s : Store) : option (Store * UA_StatusCode) :=
  slot ← findOccupiedSlot H (ns s) (heap s) nodeid;
  match slot with
  | Some i => clearSlot race calloc_ok s i
  | None => Some (s, UA_STATUSCODE_BADNODEIDUNKNOWN)
  end.

(** The search for a fresh numeric identifier in [UA_NodeMap_insertNode]:
    each round writes the candidate into the node and asks [findFreeSlot].
    The candidate is advanced like a probe index, by [increase] and
    wrapped at [size].  [fuel] bounds the number of rounds; the
    [50001 + 2 * size] rounds [UA_NodeMap_insertNode] gives it are more
    than the search takes in a table with a free cell
    ([assignNodeId_loop_returns]). *)
Fixpoint assignNodeId_loop (fuel : nat) (m : UA_NodeMap)
    (hp : gmap Z UA_NodeMapEntry) (pnode : Z) (size increase startId : Z)
    (identifier : Z) : option (option Z * gmap Z UA_NodeMapEntry) :=
  match fuel with
  | O => None
  | S fuel' =>
      e ← hp !! pnode;
      let hp :=
        <[pnode := set_node (set_numeric (u32 identifier) (node e)) e]> hp in
      slot ← findFreeSlot H m hp
               (nodeId (set_numeric (u32 identifier) (node e)));
      match slot with
      | Some i => Some (Some i, hp)
      | None =>
          let identifier := probe_next size increase identifier in
          if u32 identifier =? startId then Some (None, hp)
          else assignNodeId_loop fuel' m hp pnode size increase startId
                 identifier
      end
  end.

Definition is_numeric_zero (id : UA_NodeId) : bool :=
  match identifier id with
  | UA_NODEIDTYPE_NUMERIC n => n =? 0
  | _ => false
  end.

(** [calloc_ok]: the allocation inside a pre-emptive [expand] succeeds;
    [idcopy_status]: the result of [UA_NodeId_copy]; [addedNodeId]: the
    caller passed a non-null out-parameter.  The last component of the
    result is what was copied to [*addedNodeId]. *)
Definition UA_NodeMap_insertNode (calloc_ok : bool)
    (idcopy_status : UA_StatusCode) (race : option Z) (pnode : Z)
    (addedNodeId : bool) (s : Store)
  : option (Store * UA_StatusCode * option UA_NodeId) :=
  '(s, expanded) ←
    (if u32 (size (ns s) * 3) <=? u32 (count (ns s) * 4)
     then expand calloc_ok s
     else Some (s, UA_STATUSCODE_GOOD));
  if decide (expanded ≠ UA_STATUSCODE_GOOD)
  then Some (s, UA_STATUSCODE_BADINTERNALERROR, None)
  else
    e ← heap s !! pnode;
    '(slot, hp) ←
      (if is_numeric_zero (nodeId (node e)) then
         let size := size (ns s) in
         let identifier := mod1 (u32 (50000 + size + 1)) UA_UINT32_MAX in
         let increase := mod2 (u32 (count (ns s) + 1)) size in
         let startId := u32 identifier in
         assignNodeId_loop (Z.to_nat (50001 + 2 * size)) (ns s) (heap s) pnode
           size increase startId identifier
       else
         slot ← findFreeSlot H (ns s) (heap s) (nodeId (node e));
         Some (slot, heap s));
    match slot with
    | None =>
        hp ← deleteNodeMapEntry pnode hp;
        Some (mkStore (ns s) hp, UA_STATUSCODE_BADNODEIDEXISTS, None)
    | Some i =>
        e ← hp !! pnode;
        if addedNodeId && bool_decide (idcopy_status ≠ UA_STATUSCODE_GOOD)
        then
          hp ← deleteNodeMapEntry pnode hp;
          Some (mkStore (ns s) hp, idcopy_status, None)
        else
          let out :=
            if addedNodeId then Some (nodeId (node e)) else None in
          let hp :=
            <[pnode := set_nodeIdHash (UA_NodeId_hash H (nodeId (node e))) e]>
              hp in
          oldEntry ← entries (ns s) !! Z.to_nat i;
          '(observed, es) ←
            UA_atomic_cmpxchg (entries (ns s)) i race oldEntry pnode;
          if negb (observed =? oldEntry) then
            hp ← deleteNodeMapEntry pnode hp;
            Some (mkStore (set_entries es (ns s)) hp,
                  UA_STATUSCODE_BADNODEIDEXISTS, out)
          else
            Some (mkStore
                    (set_count (u32 (count (ns s) + 1)) (set_entries es (ns s)))
                    hp,
                  UA_STATUSCODE_GOOD, out)
    end.

Definition UA_NodeMap_replaceNode (race : option Z) (pnode : Z) (s : Store)
  : option (Store * UA_StatusCode) :=
  newEntry ← heap s !! pnode;
  slot ← findOccupiedSlot H (ns s) (heap s) (nodeId (node newEntry));
  match slot with
  | None =>
      hp ← deleteNodeMapEntry pnode (heap s);
      Some (mkStore (ns s) hp, UA_STATUSCODE_BADNODEIDUNKNOWN)
  | Some i =>
      oldEntry ← entries (ns s) !! Z.to_nat i;
      if negb (oldEntry =? orig newEntry) then
        hp ← deleteNodeMapEntry pnode (heap s);
        Some (mkStore (ns s) hp, UA_STATUSCODE_BADINTERNALERROR)
      else
        old ← heap s !! oldEntry;
        let hp := <[pnode := set_nodeIdHash (nodeIdHash old) newEntry]> (heap s) in
        '(observed, es) ←
          UA_atomic_cmpxchg (entries (ns s)) i race oldEntry pnode;
        if negb (observed =? oldEntry) then
          hp ← deleteNodeMapEntry pnode hp;
          Some (mkStore (set_entries es (ns s)) hp,
                UA_STATUSCODE_BADINTERNALERROR)
        else
          old ← hp !! oldEntry;
          hp ← cleanupNodeMapEntry oldEntry
                 (<[oldEntry := set_deleted true old]> hp);
          Some (mkStore (set_entries es (ns s)) hp, UA_STATUSCODE_GOOD)
  end.

(** What [UA_NodeMap_iterate] does for one occupied slot: pin the entry,
    call the visitor, unpin, clean up. *)
Definition iterate_visit (visitor : Z → Store → option Store) (entry : Z)
    (s : Store) : option Store :=
  e ← heap s !! entry;
  s ← visitor entry
        (mkStore (ns s)
           (<[entry := set_refCount (u16 (refCount e + 1)) e]> (heap s)));
  e ← heap s !! entry;
  hp ← cleanupNodeMapEntry entry
         (<[entry := set_refCount (u16 (refCount e - 1)) e]> (heap s));
  Some (mkStore (ns s) hp).

(** The [for] loop of [UA_NodeMap_iterate]; the visitor may change the
    store, so [ns->size] and [ns->entries] are read again in every round.
    The index is 32-bit, [fuel] bounds the number of rounds. *)
Fixpoint UA_NodeMap_iterate_loop (fuel : nat)
    (visitor : Z → Store → option Store) (i : Z) (s : Store)
  : option Store :=
  match fuel with
  | O => None
  | S fuel' =>
      if i <? size (ns s) then
        entry ← entries (ns s) !! Z.to_nat i;
        s ← (if UA_NODEMAP_TOMBSTONE <? entry
             then iterate_visit visitor entry s
             else Some s);
        UA_NodeMap_iterate_loop fuel' visitor (u32 (i + 1)) s
      else Some s
  end.

Definition UA_NodeMap_iterate (fuel : nat)
    (visitor : Z → Store → option Store) (s : Store) : option Store :=
  UA_NodeMap_iterate_loop fuel visitor 0 s.

End NodeStoreOps.

(** [UA_Nodestore_HashMap]: the new, empty store. *)
Definition UA_Nodestore_HashMap (malloc_ok calloc_ok : bool)
  : option (UA_StatusCode * option Store) :=
  if negb malloc_ok then Some (UA_STATUSCODE_BADOUTOFMEMORY, None)
  else
    sizePrimeIndex ← higher_prime_index UA_NODEMAP_MINSIZE;
    size ← primes !! Z.to_nat sizePrimeIndex;
    if negb calloc_ok then Some (UA_STATUSCODE_BADOUTOFMEMORY, None)
    else
      Some (UA_STATUSCODE_GOOD,
            Some (mkStore
                    (mkNodeMap (replicate (Z.to_nat size) NULL) size 0
                       sizePrimeIndex)
                    ∅)).

(** ** Clients of the store

    A client drives the store through its interface.  Between the calls it
    may write to the nodes it owns: the nodes it got from [newNode] or
    [getNodeCopy] and has not handed over yet.  The driver below refuses
    ([None]) what the interface forbids: passing a node that is not the
    client's own to [deleteNode], [insertNode] or [replaceNode].  The
    resize, which the store runs on its own inside [insertNode] and
    [removeNode], is a call of its own here as well. *)

Inductive BaseOp :=
| OpNewNode (alloc : option Z) (nodeClass : UA_NodeClass)
| OpSetNode (pnode : Z) (n : UA_Node)
| OpDeleteNode (pnode : Z)
| OpGetNode (nodeid : UA_NodeId)
| OpReleaseNode (pnode : Z)
| OpGetNodeCopy (alloc : option Z) (copy_status : UA_StatusCode)
    (nodeid : UA_NodeId)
| OpInsertNode (calloc_ok : bool) (idcopy_status : UA_StatusCode) (pnode : Z)
    (addedNodeId : bool)
| OpReplaceNode (pnode : Z)
| OpRemoveNode (calloc_ok : bool) (nodeid : UA_NodeId)
| OpExpand (calloc_ok : bool).

(** The visitor of [iterate] sees the node and the store and answers with
    the calls it makes. *)
Inductive Op :=
| OpBase (o : BaseOp)
| OpIterate (fuel : nat) (visitor : Z → Store → list BaseOp).

(** A node the client owns: allocated, in no slot, never published. *)
Definition unpublished (s : Store) (pnode : Z) : bool :=
  bool_decide (pnode ∉ entries (ns s)) &&
  match heap s !! pnode with
  | Some e => negb (deleted e)
  | None => false
  end.

Section Client.

Variable H : UA_NodeId → Z.

Definition apply_base (o : BaseOp) (s : Store) : option Store :=
  match o with
  | OpNewNode alloc nodeClass => Some (UA_NodeMap_newNode alloc nodeClass s).1
  | OpSetNode pnode n =>
      if unpublished s pnode then
        e ← heap s !! pnode;
        Some (mkStore (ns s) (<[pnode := set_node n e]> (heap s)))
      else None
  | OpDeleteNode pnode =>
      if unpublished s pnode then UA_NodeMap_deleteNode pnode s else None
  | OpGetNode nodeid => fst <$> UA_NodeMap_getNode H nodeid s
  | OpReleaseNode pnode => UA_NodeMap_releaseNode pnode s
  | OpGetNodeCopy alloc copy_status nodeid =>
      (λ r, r.1.1) <$> UA_NodeMap_getNodeCopy H alloc copy_status nodeid s
  | OpInsertNode calloc_ok idcopy_status pnode addedNodeId =>
      if unpublished s pnode then
        (λ r, r.1.1) <$>
          UA_NodeMap_insertNode H calloc_ok idcopy_status None pnode
            addedNodeId s
      else None
  | OpReplaceNode pnode =>
      if unpublished s pnode
      then fst <$> UA_NodeMap_replaceNode H None pnode s
      else None
  | OpRemoveNode calloc_ok nodeid =>
      fst <$> UA_NodeMap_removeNode H None calloc_ok nodeid s
  | OpExpand calloc_ok => fst <$> expand H calloc_ok s
  end.

Fixpoint run_base (l : list BaseOp) (s : Store) : option Store :=
  match l with
  | [] => Some s
  | o :: l' => s' ← apply_base o s; run_base l' s'
  end.

Definition apply_op (o : Op) (s : Store) : option Store :=
  match o with
  | OpBase b => apply_base b s
  | OpIterate fuel visitor =>
      UA_NodeMap_iterate fuel (λ p s', run_base (visitor p s') s') s
  end.

Fixpoint run (l : list Op) (s : Store) : option Store :=
  match l with
  | [] => Some s
  | o :: l' => s' ← apply_op o s; run l' s'
  end.

End Client.

(** The store right after [UA_Nodestore_HashMap] succeeded. *)
Definition new_store : Store :=
  mkStore (mkNodeMap (replicate 127 NULL) 127 0 4) ∅.

(** ** The invariants of the table *)

Definition occupied (es : list Z) : nat :=
  length (filter (λ p, UA_NODEMAP_TOMBSTONE < p) es).

(** The NodeIds of the entries in the slots, slot by slot. *)
Definition present_ids (s : Store) : list UA_NodeId :=
  omap (λ p, if decide (UA_NODEMAP_TOMBSTONE < p)
             then (λ e, nodeId (node e)) <$> heap s !! p
             else None)
       (entries (ns s)).

(** The cycle of slots probed for hash [h] in a table of [size] cells. *)
Definition probe_cycle (h size : Z) : list Z :=
  probe_seq (Z.to_nat size) size (mod2 h size) (mod1 h size).

(** Slot [i] lies on the cycle of [h] and no cell before it is empty. *)
Definition probe_reaches (es : list Z) (h size i : Z) : Prop :=
  ∃ k : nat, probe_cycle h size !! k = Some i ∧
    ∀ (j : nat) x, (j < k)%nat → probe_cycle h size !! j = Some x →
                   es !! Z.to_nat x ≠ Some NULL.

Section Invariants.

Variable H : UA_NodeId → Z.

Record TableInv (m : UA_NodeMap) (hp : gmap Z UA_NodeMapEntry) : Prop := {
  inv_prime : primes !! Z.to_nat (sizePrimeIndex m) = Some (size m);
  inv_length : Z.of_nat (length (entries m)) = size m;
  inv_live : ∀ p, p ∈ entries m → UA_NODEMAP_TOMBSTONE < p →
    ∃ e, hp !! p = Some e ∧ deleted e = false ∧
         nodeIdHash e = UA_NodeId_hash H (nodeId (node e));
  inv_nodup : ∀ (i j : nat) p q e e',
    entries m !! i = Some p → entries m !! j = Some q →
    UA_NODEMAP_TOMBSTONE < p → UA_NODEMAP_TOMBSTONE < q →
    hp !! p = Some e → hp !! q = Some e' →
    nodeId (node e) = nodeId (node e') → i = j;
  inv_probe : ∀ (i : nat) p e,
    entries m !! i = Some p → UA_NODEMAP_TOMBSTONE < p → hp !! p = Some e →
    probe_reaches (entries m) (UA_NodeId_hash H (nodeId (node e))) (size m)
      (Z.of_nat i)
}.

Record Inv (s : Store) : Prop := {
  inv_table : TableInv (ns s) (heap s);
  inv_count : count (ns s) = Z.of_nat (occupied (entries (ns s)));
  inv_heap : ∀ p e, heap s !! p = Some e → UA_NODEMAP_TOMBSTONE < p
}.

End Invariants.

(** ** Concrete stores *)

(** A hash function to run the store with: the numeric identifier (zero
    for the other kinds). *)
Definition numeric_hash (id : UA_NodeId) : Z :=
  match identifier id with
  | UA_NODEIDTYPE_NUMERIC n => n
  | _ => 0
  end.

Definition numeric_id (n : Z) : UA_NodeId := mkNodeId 0 (UA_NODEIDTYPE_NUMERIC n).

(** The calls of a client that creates an object node at address [p],
    gives it the numeric identifier [n] and inserts it. *)
Definition insert_numeric (p n : Z) : list Op :=
  [ OpBase (OpNewNode (Some p) UA_NODECLASS_OBJECT);
    OpBase (OpSetNode p (mkNode (numeric_id n) UA_NODECLASS_OBJECT 0));
    OpBase (OpInsertNode true UA_STATUSCODE_GOOD p false) ].

(** The calls that insert one node per identifier of [ids], the [k]-th
    node being allocated at address [1000 + k]. *)
Definition insert_all (ids : list Z) : list Op :=
  flat_map (λ kn, insert_numeric (1000 + Z.of_nat kn.1) kn.2)
           (imap (λ k n, (k, n)) ids).

(** A store with one published node, NodeId 5, at address 100. *)
Definition store_one : option Store :=
  run numeric_hash (insert_numeric 100 5) new_store.

(** A client-owned node at address 5000, allocated by [newNode] and not
    filled in: its NodeId is still numeric zero. *)
Definition new_zero_node : Op :=
  OpBase (OpNewNode (Some 5000) UA_NODECLASS_OBJECT).

(** 96 nodes in the initial table of 127 slots: the next [insertNode]
    finds the table three quarters full. *)
Definition store_three_quarters : option Store :=
  run numeric_hash (insert_all (seqZ 1 96) ++ [new_zero_node]) new_store.

(** The identifiers the search for a fresh identifier tries, in order, in
    a table of 509 slots that holds 190 nodes: 177 candidates, the next
    one is 0.  They are followed by 13 further identifiers that fill the
    store up to 190 nodes. *)
Definition crowded_ids : list Z :=
  probe_seq 177 509 192 50510 ++ probe_seq 13 509 192 192.

Definition store_crowded : option Store :=
  run numeric_hash (insert_all crowded_ids ++ [new_zero_node]) new_store.

(** The call [o] releases a reference to the node [q], itself or through
    the visitor it passes to [iterate]. *)
Definition releases (q : Z) (o : Op) : Prop :=
  match o with
  | OpBase b => b = OpReleaseNode q
  | OpIterate _ visitor => ∃ p s, OpReleaseNode q ∈ visitor p s
  end.

(** The stores the statements below are instantiated with. *)
Definition store_one_state : Store :=
  Eval vm_compute in default new_store store_one.

(** The store with node 5 and a client-owned copy of it at address 200. *)
Definition store_copy_state : Store :=
  Eval vm_compute in
    default new_store
      (run numeric_hash
         (insert_numeric 100 5 ++
          [OpBase (OpGetNodeCopy (Some 200) UA_STATUSCODE_GOOD (numeric_id 5))])
         new_store).

(** Node 5 was inserted and removed again. *)
Definition store_shrunk_state : Store :=
  Eval vm_compute in
    default new_store
      (run numeric_hash
         (insert_numeric 100 5 ++ [OpBase (OpRemoveNode true (numeric_id 5))])
         new_store).

(** Node 5 was borrowed with [getNode] and then removed: its entry is
    marked deleted and waits for the release. *)
Definition store_borrowed_state : Store :=
  Eval vm_compute in
    default new_store
      (run numeric_hash
         (insert_numeric 100 5 ++
          [OpBase (OpGetNode (numeric_id 5));
           OpBase (OpRemoveNode true (numeric_id 5))])
         new_store).

(** A client-owned node with NodeId 5 at address 100, not inserted yet. *)
Definition store_pending_state : Store :=
  Eval vm_compute in
    default new_store
      (run numeric_hash
         [ OpBase (OpNewNode (Some 100) UA_NODECLASS_OBJECT);
           OpBase (OpSetNode 100 (mkNode (numeric_id 5) UA_NODECLASS_OBJECT 0)) ]
         new_store).

Definition store_three_quarters_state : Store :=
  Eval vm_compute in default new_store store_three_quarters.

(** A run through the whole interface: three inserts (the third with the
    identifier left at zero), a borrowed reference, a copy that is
    rewritten and put in place of the original, the release of the
    borrowed reference, an [iterate] whose visitor removes the node it is
    shown (which shrinks the table), and a resize. *)
Definition demo_run : list Op :=
  insert_numeric 100 5 ++ insert_numeric 101 6 ++ insert_numeric 102 0 ++
  [ OpBase (OpGetNode (numeric_id 5));
    OpBase (OpGetNodeCopy (Some 200) UA_STATUSCODE_GOOD (numeric_id 5));
    OpBase (OpSetNode 200 (mkNode (numeric_id 5) UA_NODECLASS_OBJECT 42));
    OpBase (OpReplaceNode 200);
    OpBase (OpReleaseNode 100);
    OpIterate 200
      (λ p _, if p =? 101 then [OpRemoveNode true (numeric_id 6)] else []);
    OpBase (OpExpand true) ].

Definition demo_state : Store :=
  Eval vm_compute in default new_store (run numeric_hash demo_run new_store).


(** ** The table as a map

    The entry [p] sits in a slot of the table and its node carries the
    NodeId [nodeid]. *)
Definition stored (s : Store) (nodeid : UA_NodeId) (p : Z) : Prop :=
  UA_NODEMAP_TOMBSTONE < p ∧ p ∈ entries (ns s) ∧
  ∃ e, heap s !! p = Some e ∧ nodeId (node e) = nodeid.

(** [refCount] is a [UA_UInt16] field. *)
Definition refCounts_16bit (hp : gmap Z UA_NodeMapEntry) : Prop :=
  ∀ p e, hp !! p = Some e → 0 <= refCount e < 65536.

(** ** [UA_NodeMap_delete]

    The loop of [UA_NodeMap_delete] over the [size] cells of the array:
    every entry in a slot is freed; the assertion on its reference count
    ends the run when it fails.  [None] as well for a read outside of the
    array and for the free of an entry that is not allocated. *)
Fixpoint UA_NodeMap_delete_loop (fuel : nat) (es : list Z) (size i : Z)
    (hp : gmap Z UA_NodeMapEntry) : option (gmap Z UA_NodeMapEntry) :=
  match fuel with
  | O => None
  | S fuel' =>
      if i <? size then
        entry ← es !! Z.to_nat i;
        hp ← (if UA_NODEMAP_TOMBSTONE <? entry then
                e ← hp !! entry;
                if refCount e =? 0 then deleteNodeMapEntry entry hp
                else None
              else Some hp);
        UA_NodeMap_delete_loop fuel' es size (u32 (i + 1)) hp
      else Some hp
  end.

(** The result is the heap that is left when the array and the map
    structure are freed as well. *)
Definition UA_NodeMap_delete (s : Store) : option (gmap Z UA_NodeMapEntry) :=
  UA_NodeMap_delete_loop (S (Z.to_nat (size (ns s)))) (entries (ns s))
    (size (ns s)) 0 (heap s).

(** ** [UA_NodeMap_iterate] as a traversal

    The visitor shown the entries of a list, one after the other, each
    pinned during its visit. *)
Fixpoint visit_each (visitor : Z → Store → option Store) (l : list Z)
    (s : Store) : option Store :=
  match l with
  | [] => Some s
  | entry :: l' => s' ← iterate_visit visitor entry s; visit_each visitor l' s'
  end.

(** ** More stores to instantiate the statements with *)

(** Node 5 is in the table; a second node with NodeId 5, at address 101,
    is still the client's. *)
Definition store_duplicate_state : Store :=
  Eval vm_compute in
    default new_store
      (run numeric_hash
         (insert_numeric 100 5 ++
          [ OpBase (OpNewNode (Some 101) UA_NODECLASS_OBJECT);
            OpBase (OpSetNode 101
                      (mkNode (numeric_id 5) UA_NODECLASS_OBJECT 0)) ])
         new_store).

(** An empty table and a client-owned node at address 5000 whose NodeId
    is still numeric zero. *)
Definition store_zero_state : Store :=
  Eval vm_compute in
    default new_store (run numeric_hash [new_zero_node] new_store).

(** * Proofs *)

(** ** The prime ladder *)

Lemma no_divisor_spec fuel : ∀ d n x,
  0 < d → no_divisor fuel d n = true →
  d <= x < d + Z.of_nat fuel → ¬ (x | n).
Proof.
  induction fuel as [|fuel IH]; intros d n x Hd Hnd Hx; [lia|].
  cbn [no_divisor] in Hnd. apply andb_true_iff in Hnd as [Hhd Htl].
  destruct (decide (x = d)) as [->|Hne].
  - intros Hdiv. apply Z.mod_divide in Hdiv; [|lia].
    rewrite Hdiv in Hhd. discriminate.
  - apply (IH (d + 1) n x); [lia|done|lia].
Qed.

Lemma prime_check_sound n : prime_check n = true → prime n.
Proof.
  unfold prime_check. intros Hc. apply andb_true_iff in Hc as [H1 Hnd].
  apply Z.ltb_lt in H1. apply prime_alt. split; [done|].
  intros x Hx [q Hq].
  assert (Hs := Z.sqrt_spec n ltac:(lia)). cbv zeta in Hs.
  assert (Hsn := Z.sqrt_nonneg n).
  assert (Hq1 : 1 < q) by nia.
  assert (Hsmall : x <= Z.sqrt n ∨ q <= Z.sqrt n) by nia.
  destruct Hsmall as [Hle|Hle].
  - eapply (no_divisor_spec _ 2 n x); [lia|exact Hnd|lia|by exists q].
  - eapply (no_divisor_spec _ 2 n q); [lia|exact Hnd|lia|].
    exists x. lia.
Qed.

Lemma primes_prime P : P ∈ primes → prime P.
Proof.
  intros HP. apply prime_check_sound.
  revert P HP. apply Forall_forall.
  unfold primes. repeat (apply Forall_cons; split; [vm_compute; reflexivity|]).
  apply Forall_nil_2.
Qed.

Lemma primes_range P : P ∈ primes → 7 <= P <= 4294967291.
Proof.
  revert P. apply Forall_forall.
  unfold primes. repeat (apply Forall_cons; split; [lia|]).
  apply Forall_nil_2.
Qed.

Lemma primes_lookup_range i P : primes !! i = Some P → 7 <= P <= 4294967291.
Proof. intros Hl. apply primes_range. by eapply list_elem_of_lookup_2. Qed.

(** ** [higher_prime_index] *)

Lemma StronglySorted_lookup_le (l : list Z) (i j : nat) (x y : Z) :
  StronglySorted Z.le l → l !! i = Some x → l !! j = Some y →
  (i <= j)%nat → x <= y.
Proof.
  intros Hs. revert i j. induction Hs as [|a l Hs IH Hall]; intros i j Hi Hj Hij.
  - by rewrite lookup_nil in Hi.
  - destruct i as [|i], j as [|j]; simplify_eq/=; try lia.
    + rewrite Forall_forall in Hall. apply Hall.
      by eapply list_elem_of_lookup_2.
    + eapply IH; eauto. lia.
Qed.

Lemma primes_sorted : StronglySorted Z.le primes.
Proof.
  unfold primes.
  repeat (apply SSorted_cons;
          [|repeat (apply Forall_cons; split; [lia|]); apply Forall_nil_2]).
  apply SSorted_nil.
Qed.

Lemma primes_lookup_le (i j : nat) (x y : Z) :
  primes !! i = Some x → primes !! j = Some y → (i <= j)%nat → x <= y.
Proof. apply StronglySorted_lookup_le, primes_sorted. Qed.

Lemma u16_small x : 0 <= x < 65536 → u16 x = x.
Proof. intros. unfold u16. by apply Z.mod_small. Qed.

Lemma u32_small x : 0 <= x < 4294967296 → u32 x = x.
Proof. intros. unfold u32. by apply Z.mod_small. Qed.

Lemma u64_small x : 0 <= x < 18446744073709551616 → u64 x = x.
Proof. intros. unfold u64. by apply Z.mod_small. Qed.

Lemma u32_range x : 0 <= u32 x < 4294967296.
Proof. unfold u32. apply Z.mod_pos_bound. lia. Qed.

(** The invariant of the binary search: everything left of [low] is below
    [n], everything from [high] on is not. *)
Lemma higher_prime_index_loop_S fuel n low high :
  higher_prime_index_loop (S fuel) n low high =
  if low =? high then Some low
  else
    let mid := u16 (low + (high - low) / 2) in
    p ← primes !! Z.to_nat mid;
    if p <? n
    then higher_prime_index_loop fuel n (u16 (mid + 1)) high
    else higher_prime_index_loop fuel n low mid.
Proof. reflexivity. Qed.

Lemma higher_prime_index_loop_spec fuel : ∀ n low high,
  0 <= low <= high → high <= 30 → high - low < 2 ^ Z.of_nat fuel →
  (∀ j q, 0 <= j < low → primes !! Z.to_nat j = Some q → q < n) →
  (∀ j q, high <= j → primes !! Z.to_nat j = Some q → n <= q) →
  ∃ i, higher_prime_index_loop (S fuel) n low high = Some i ∧
       low <= i <= high ∧
       (∀ j q, 0 <= j < i → primes !! Z.to_nat j = Some q → q < n) ∧
       (∀ j q, i <= j → primes !! Z.to_nat j = Some q → n <= q).
Proof.
  induction fuel as [|fuel IH]; intros n low high Hlh Hh Hfuel Hlo Hhi;
    rewrite higher_prime_index_loop_S;
    (destruct (Z.eqb_spec low high) as [->|Hne];
     [exists high; repeat split; try lia; done|]).
  { change (2 ^ Z.of_nat 0) with 1 in Hfuel. lia. }
  assert (Hmid : low <= low + (high - low) / 2 < high).
  { assert (0 <= (high - low) / 2) by (apply Z.div_pos; lia).
    assert ((high - low) / 2 < high - low) by (apply Z.div_lt; lia). lia. }
  assert (Hhalf : 2 * ((high - low) / 2) <= high - low).
  { apply Z.mul_div_le. lia. }
  assert (Hpow : 2 ^ Z.of_nat (S fuel) = 2 * 2 ^ Z.of_nat fuel).
  { rewrite Nat2Z.inj_succ, Z.pow_succ_r by lia. done. }
  assert (Hhalf' : high - low < 2 * ((high - low) / 2) + 2).
  { pose proof (Z.mod_pos_bound (high - low) 2 ltac:(lia)).
    pose proof (Z.div_mod (high - low) 2 ltac:(lia)). lia. }
  cbv zeta. rewrite !(u16_small (low + (high - low) / 2)) by lia.
  set (mid := low + (high - low) / 2) in *.
  destruct (lookup_lt_is_Some_2 primes (Z.to_nat mid)) as [p Hp].
  { change (length primes) with 30%nat. lia. }
  rewrite Hp. cbn [mbind option_bind].
  destruct (Z.ltb_spec p n) as [Hpn|Hpn].
  - rewrite u16_small by lia.
    destruct (IH n (mid + 1) high) as (i & Hi & Hr & Hl1 & Hl2);
      [lia|lia|subst mid; lia| |done|].
    + intros j q Hj Hq.
      assert (q <= p); [|lia].
      eapply (primes_lookup_le (Z.to_nat j) (Z.to_nat mid)); eauto. lia.
    + exists i. repeat split; try done; lia.
  - destruct (IH n low mid) as (i & Hi & Hr & Hl1 & Hl2);
      [lia|lia|subst mid; lia|done| |].
    + intros j q Hj Hq.
      assert (p <= q); [|lia].
      eapply (primes_lookup_le (Z.to_nat mid) (Z.to_nat j)); eauto. lia.
    + exists i. repeat split; try done; lia.
Qed.

(** The binary search always returns: the index of the smallest prime of
    the ladder that is not below [n], or the length of the ladder when [n]
    is above all of them. *)
Lemma higher_prime_index_total n :
  ∃ i, higher_prime_index n = Some i ∧ 0 <= i <= 30 ∧
       (∀ j q, 0 <= j < i → primes !! Z.to_nat j = Some q → q < n) ∧
       (∀ j q, i <= j → primes !! Z.to_nat j = Some q → n <= q) ∧
       (n <= 4294967291 → i < 30).
Proof.
  unfold higher_prime_index.
  destruct (higher_prime_index_loop_spec 15 n 0 30) as (i & Hi & Hr & Hl1 & Hl2).
  - lia.
  - lia.
  - simpl. lia.
  - intros; lia.
  - intros j q Hj Hq. apply lookup_lt_Some in Hq. simpl in Hq. lia.
  - exists i. change (u16 (Z.of_nat (length primes))) with 30.
    repeat split; try done; try lia.
    intros Hn. destruct (decide (i = 30)) as [->|]; [|lia].
    assert (4294967291 < n); [|lia].
    apply (Hl1 29); [lia|reflexivity].
Qed.

(** ** The probe sequence *)

Lemma probe_next_mod size s idx :
  0 <= idx < size → 0 <= s < size → size < 4294967296 →
  probe_next size s idx = (idx + s) mod size.
Proof.
  intros Hi Hs Hsz. unfold probe_next.
  rewrite (u64_small (idx + s)) by lia.
  destruct (Z.leb_spec size (idx + s)).
  - rewrite u64_small by lia.
    apply (Zmod_unique _ _ 1); lia.
  - symmetry. apply Z.mod_small. lia.
Qed.

Lemma probe_seq_length n size s idx : length (probe_seq n size s idx) = n.
Proof. revert idx. induction n; intros; simpl; auto. Qed.

Lemma probe_seq_lookup n : ∀ size s idx (k : nat),
  0 <= idx < size → 0 <= s < size → size < 4294967296 → (k < n)%nat →
  probe_seq n size s idx !! k = Some ((idx + Z.of_nat k * s) mod size).
Proof.
  induction n as [|n IH]; intros size s idx k Hi Hs Hsz Hk; [lia|].
  destruct k as [|k]; simpl.
  - rewrite u32_small by lia. f_equal.
    rewrite Z.mod_small by lia. lia.
  - rewrite IH; [|rewrite probe_next_mod by lia; apply Z.mod_pos_bound; lia
                 |lia|lia|lia].
    f_equal. rewrite probe_next_mod by lia.
    rewrite Zplus_mod_idemp_l. f_equal. lia.
Qed.

(** The step is coprime to the prime size, so two rounds of one cycle never
    read the same slot. *)
Lemma probe_injective P s idx (j k : Z) :
  prime P → 1 <= s < P → 0 <= j < P → 0 <= k < P →
  (idx + j * s) mod P = (idx + k * s) mod P → j = k.
Proof.
  intros HP Hs Hj Hk Heq.
  apply Z.cong_iff_0 in Heq.
  apply Z.mod_divide in Heq; [|lia].
  replace (idx + j * s - (idx + k * s)) with ((j - k) * s) in Heq by lia.
  assert (Hrel : Z.gcd P s = 1).
  { rewrite Z.gcd_comm. apply rel_prime_iff_coprime.
    destruct HP as [_ HP]. apply HP. lia. }
  rewrite Z.mul_comm in Heq.
  apply Z.gauss in Heq; [|done].
  destruct Heq as [q Hq].
  assert (q = 0) by nia. lia.
Qed.

Lemma probe_cycle_closes P s idx :
  0 <= idx < P → (idx + P * s) mod P = idx.
Proof.
  intros. rewrite (Z.mul_comm P s), Z_mod_plus_full. apply Z.mod_small. lia.
Qed.

Lemma probe_seq_NoDup P s idx :
  prime P → P < 4294967296 → 1 <= s < P → 0 <= idx < P →
  NoDup (probe_seq (Z.to_nat P) P s idx).
Proof.
  intros HP Hsz Hs Hi. apply NoDup_alt. intros j k x Hj Hk.
  assert (Hjl := lookup_lt_Some _ _ _ Hj).
  assert (Hkl := lookup_lt_Some _ _ _ Hk).
  rewrite probe_seq_length in Hjl, Hkl.
  rewrite probe_seq_lookup in Hj, Hk by lia.
  simplify_eq.
  assert (Z.of_nat j = Z.of_nat k); [|lia].
  eapply (probe_injective P s idx); eauto; lia.
Qed.

Lemma probe_seq_range P s idx x :
  P < 4294967296 → 0 <= s < P → 0 <= idx < P →
  x ∈ probe_seq (Z.to_nat P) P s idx → 0 <= x < P.
Proof.
  intros Hsz Hs Hi Hx. apply list_elem_of_lookup in Hx as [k Hk].
  assert (Hkl := lookup_lt_Some _ _ _ Hk).
  rewrite probe_seq_length in Hkl.
  rewrite probe_seq_lookup in Hk by lia. simplify_eq.
  apply Z.mod_pos_bound. lia.
Qed.

(** One full cycle reads every slot of the table exactly once. *)
Lemma probe_seq_Permutation P s idx :
  prime P → P < 4294967296 → 1 <= s < P → 0 <= idx < P →
  probe_seq (Z.to_nat P) P s idx ≡ₚ seqZ 0 P.
Proof.
  intros HP Hsz Hs Hi.
  apply submseteq_length_Permutation.
  - apply NoDup_submseteq; [by apply probe_seq_NoDup|].
    intros x Hx. apply elem_of_seqZ.
    apply probe_seq_range in Hx; lia.
  - rewrite length_seqZ, probe_seq_length. lia.
Qed.

Lemma mod2_range h P :
  7 <= P < 4294967296 → 0 <= h → 1 <= mod2 h P <= P - 2.
Proof.
  intros HP Hh. unfold mod2.
  rewrite (u32_small (P - 2)) by lia.
  assert (0 <= h mod (P - 2) < P - 2) by (apply Z.mod_pos_bound; lia).
  rewrite u32_small by lia. lia.
Qed.

(** Within one cycle the probe is back at its start exactly after [P]
    steps. *)
Lemma probe_back_at_start P s idx k :
  prime P → 1 <= s < P → 0 <= idx < P → 0 < k <= P →
  (idx + k * s) mod P = idx ↔ k = P.
Proof.
  intros HP Hs Hi Hk. split.
  - intros Heq. destruct (decide (k = P)) as [|Hne]; [done|].
    assert (k = 0); [|lia].
    apply (probe_injective P s idx); [done|lia|lia|lia|].
    rewrite Heq. rewrite Z.mul_0_l, Z.add_0_r. symmetry.
    apply Z.mod_small. lia.
  - intros ->. by apply probe_cycle_closes.
Qed.

Section ProbeLoops.

Variables (es : list Z) (hp : gmap Z UA_NodeMapEntry) (nodeid : UA_NodeId).
Variables (h P s i0 : Z).
Hypothesis HP : prime P.
Hypothesis HP32 : P < 4294967296.
Hypothesis Hs : 1 <= s < P.
Hypothesis Hi0 : 0 <= i0 < P.

(** From round [k] on, the loop of [findOccupiedSlot] reads the remaining
    slots of the cycle and stops, at the latest, when the cycle closes. *)
Lemma findOccupiedSlot_loop_scan (n : nat) : ∀ (fuel : nat) (k : Z),
  0 <= k → k + Z.of_nat n = P → (1 <= n)%nat → (n <= fuel)%nat →
  findOccupiedSlot_loop fuel es hp nodeid h P i0 s ((i0 + k * s) mod P) =
  scanOccupied es hp nodeid h (probe_seq n P s ((i0 + k * s) mod P)).
Proof.
  induction n as [|n IH]; intros fuel k Hk Hkn Hn Hfuel; [lia|].
  destruct fuel as [|fuel]; [lia|].
  assert (Hidx : 0 <= (i0 + k * s) mod P < P) by (apply Z.mod_pos_bound; lia).
  assert (Hnext : probe_next P s ((i0 + k * s) mod P)
                  = (i0 + (k + 1) * s) mod P).
  { rewrite probe_next_mod by lia. rewrite Zplus_mod_idemp_l. f_equal. lia. }
  assert (Hclose : (u32 ((i0 + (k + 1) * s) mod P) =? i0) = bool_decide (n = O)).
  { rewrite u32_small
      by (pose proof (Z.mod_pos_bound (i0 + (k + 1) * s) P); lia).
    destruct (Z.eqb_spec ((i0 + (k + 1) * s) mod P) i0) as [Heq|Hne].
    - apply probe_back_at_start in Heq; [|done|lia|lia|lia].
      symmetry. apply bool_decide_eq_true. lia.
    - symmetry. apply bool_decide_eq_false. intros ->.
      apply Hne. apply probe_back_at_start; [done|lia|lia|lia|lia]. }
  cbn [findOccupiedSlot_loop probe_seq scanOccupied].
  destruct (es !! Z.to_nat (u32 ((i0 + k * s) mod P))) as [entry|];
    [|reflexivity].
  cbn [mbind option_bind]. rewrite Hnext, Hclose.
  assert (Hrec : (if bool_decide (n = O) then Some None
                  else findOccupiedSlot_loop fuel es hp nodeid h P i0 s
                         ((i0 + (k + 1) * s) mod P))
                 = scanOccupied es hp nodeid h
                     (probe_seq n P s ((i0 + (k + 1) * s) mod P))).
  { case_bool_decide as Hn0.
    - subst n. reflexivity.
    - apply IH; lia. }
  destruct (UA_NODEMAP_TOMBSTONE <? entry).
  - destruct (hp !! entry) as [e|]; [|reflexivity].
    cbn [mbind option_bind].
    destruct ((nodeIdHash e =? h) && UA_NodeId_equal (nodeId (node e)) nodeid);
      [reflexivity|apply Hrec].
  - destruct (entry =? NULL); [reflexivity|apply Hrec].
Qed.

Lemma findFreeSlot_loop_scan (n : nat) : ∀ (fuel : nat) (k : Z) candidate,
  0 <= k → k + Z.of_nat n = P → (1 <= n)%nat → (n <= fuel)%nat →
  findFreeSlot_loop fuel es hp nodeid h P i0 s candidate
    ((i0 + k * s) mod P) =
  scanFree es hp nodeid h candidate (probe_seq n P s ((i0 + k * s) mod P)).
Proof.
  induction n as [|n IH]; intros fuel k candidate Hk Hkn Hn Hfuel; [lia|].
  destruct fuel as [|fuel]; [lia|].
  assert (Hidx : 0 <= (i0 + k * s) mod P < P) by (apply Z.mod_pos_bound; lia).
  assert (Hnext : probe_next P s ((i0 + k * s) mod P)
                  = (i0 + (k + 1) * s) mod P).
  { rewrite probe_next_mod by lia. rewrite Zplus_mod_idemp_l. f_equal. lia. }
  assert (Hclose : (u32 ((i0 + (k + 1) * s) mod P) =? i0) = bool_decide (n = O)).
  { rewrite u32_small
      by (pose proof (Z.mod_pos_bound (i0 + (k + 1) * s) P); lia).
    destruct (Z.eqb_spec ((i0 + (k + 1) * s) mod P) i0) as [Heq|Hne].
    - apply probe_back_at_start in Heq; [|done|lia|lia|lia].
      symmetry. apply bool_decide_eq_true. lia.
    - symmetry. apply bool_decide_eq_false. intros ->.
      apply Hne. apply probe_back_at_start; [done|lia|lia|lia|lia]. }
  cbn [findFreeSlot_loop probe_seq scanFree].
  destruct (es !! Z.to_nat (u32 ((i0 + k * s) mod P))) as [entry|];
    [|reflexivity].
  cbn [mbind option_bind]. rewrite Hnext, Hclose.
  assert (Hrec : ∀ c, (if bool_decide (n = O) then Some c
                  else findFreeSlot_loop fuel es hp nodeid h P i0 s c
                         ((i0 + (k + 1) * s) mod P))
                 = scanFree es hp nodeid h c
                     (probe_seq n P s ((i0 + (k + 1) * s) mod P))).
  { intros c. case_bool_decide as Hn0.
    - subst n. reflexivity.
    - apply IH; lia. }
  destruct (UA_NODEMAP_TOMBSTONE <? entry).
  - destruct (hp !! entry) as [e|]; [|reflexivity].
    cbn [mbind option_bind].
    destruct ((nodeIdHash e =? h) && UA_NodeId_equal (nodeId (node e)) nodeid);
      [reflexivity|apply Hrec].
  - cbv zeta. destruct (entry =? NULL); [reflexivity|apply Hrec].
Qed.

End ProbeLoops.

Lemma scanOccupied_is_Some es hp nodeid h l :
  (∀ i, i ∈ l → ∃ p, es !! Z.to_nat i = Some p ∧
                     (UA_NODEMAP_TOMBSTONE < p → is_Some (hp !! p))) →
  is_Some (scanOccupied es hp nodeid h l).
Proof.
  induction l as [|i l IH]; intros Hl; [by eexists|].
  destruct (Hl i) as (p & Hp & Hlive); [left|].
  cbn [scanOccupied]. rewrite Hp. cbn [mbind option_bind].
  assert (is_Some (scanOccupied es hp nodeid h l)).
  { apply IH. intros j Hj. apply Hl. by right. }
  destruct (Z.ltb_spec UA_NODEMAP_TOMBSTONE p).
  - destruct Hlive as [e ->]; [done|]. cbn [mbind option_bind].
    destruct (_ && _); [by eexists|done].
  - destruct (p =? NULL); [by eexists|done].
Qed.

Lemma scanFree_is_Some es hp nodeid h l : ∀ candidate,
  (∀ i, i ∈ l → ∃ p, es !! Z.to_nat i = Some p ∧
                     (UA_NODEMAP_TOMBSTONE < p → is_Some (hp !! p))) →
  is_Some (scanFree es hp nodeid h candidate l).
Proof.
  induction l as [|i l IH]; intros candidate Hl; [by eexists|].
  destruct (Hl i) as (p & Hp & Hlive); [left|].
  cbn [scanFree]. rewrite Hp. cbn [mbind option_bind].
  assert (∀ c, is_Some (scanFree es hp nodeid h c l)).
  { intros c. apply IH. intros j Hj. apply Hl. by right. }
  destruct (Z.ltb_spec UA_NODEMAP_TOMBSTONE p).
  - destruct Hlive as [e ->]; [done|]. cbn [mbind option_bind].
    destruct (_ && _); [by eexists|done].
  - cbv zeta. destruct (p =? NULL); [by eexists|done].
Qed.

(** A scan that runs to the end of its list has looked at every slot of
    the list and found neither the NodeId nor an empty cell. *)
Lemma scanOccupied_exhausted es hp nodeid h l :
  scanOccupied es hp nodeid h l = Some None →
  (∀ i, i ∈ l → es !! Z.to_nat i ≠ Some NULL) →
  ∀ i p e, i ∈ l → es !! Z.to_nat i = Some p → UA_NODEMAP_TOMBSTONE < p →
           hp !! p = Some e →
           ¬ (nodeIdHash e = h ∧ nodeId (node e) = nodeid).
Proof.
  induction l as [|j l IH]; intros Hscan Hnn i p e Hi Hp Hocc He;
    [by apply elem_of_nil in Hi|].
  cbn [scanOccupied] in Hscan.
  destruct (es !! Z.to_nat j) as [q|] eqn:Hq; [|done].
  cbn [mbind option_bind] in Hscan.
  assert (Htail : scanOccupied es hp nodeid h l = Some None →
                  i ∈ l → ¬ (nodeIdHash e = h ∧ nodeId (node e) = nodeid)).
  { intros Hs Hil. eapply IH; eauto. intros k Hk. apply Hnn. by right. }
  destruct (Z.ltb_spec UA_NODEMAP_TOMBSTONE q) as [Hlt|Hge].
  - destruct (hp !! q) as [e'|] eqn:He'; [|done].
    cbn [mbind option_bind] in Hscan.
    destruct ((nodeIdHash e' =? h)
              && UA_NodeId_equal (nodeId (node e')) nodeid) eqn:Hm; [done|].
    apply elem_of_cons in Hi as [->|Hi]; [|by apply Htail].
    simplify_eq. intros [Hh Hid].
    apply andb_false_iff in Hm as [Hm|Hm].
    + apply Z.eqb_neq in Hm. done.
    + unfold UA_NodeId_equal in Hm. by apply bool_decide_eq_false in Hm.
  - destruct (Z.eqb_spec q NULL) as [->|Hne].
    { exfalso. apply (Hnn j); [left|done]. }
    apply elem_of_cons in Hi as [->|Hi]; [|by apply Htail].
    simplify_eq. lia.
Qed.

Section ProbeCycle.

Variable H : UA_NodeId → Z.

(** C1: for a table size [P] of the prime ladder and a 32-bit hash [h],
    the double-hashing probe that starts at [h mod P] and advances by
    [1 + h mod (P - 2)] reads every one of the [P] slots exactly once in
    its first [P] rounds and is back at its start after exactly [P]
    rounds, not earlier.  [findOccupiedSlot] and [findFreeSlot] read the
    slots of this one cycle in order and return after at most these [P]
    probes (they return on every table whose cells are readable), and a
    lookup that closed the cycle without meeting an empty cell has
    compared the NodeId with the entry of every slot of the table. *)
Theorem probe_visits_every_slot_once (P h : Z) :
  P ∈ primes → 0 <= h < 4294967296 →
  let i0 := mod1 h P in
  let s := mod2 h P in
  let cycle := probe_seq (Z.to_nat P) P s i0 in
  s = 1 + h mod (P - 2) ∧ 1 <= s < P ∧ 0 <= i0 < P ∧
  Z.of_nat (length cycle) = P ∧
  cycle ≡ₚ seqZ 0 P ∧
  (∀ k : nat, (k < Z.to_nat P)%nat →
     cycle !! k = Some ((i0 + Z.of_nat k * s) mod P)) ∧
  (∀ k, 0 < k <= P → (i0 + k * s) mod P = i0 ↔ k = P) ∧
  (∀ m hp nodeid,
     size m = P → UA_NodeId_hash H nodeid = h →
     findOccupiedSlot H m hp nodeid
       = scanOccupied (entries m) hp nodeid h cycle ∧
     findFreeSlot H m hp nodeid
       = scanFree (entries m) hp nodeid h None cycle ∧
     (slots_live m hp →
        is_Some (findOccupiedSlot H m hp nodeid) ∧
        is_Some (findFreeSlot H m hp nodeid)) ∧
     (findOccupiedSlot H m hp nodeid = Some None →
      slots_live m hp → NULL ∉ entries m →
      ∀ i p e, entries m !! i = Some p → UA_NODEMAP_TOMBSTONE < p →
               hp !! p = Some e →
               ¬ (nodeIdHash e = h ∧ nodeId (node e) = nodeid))).
Proof.
  intros HP Hh i0 s cycle.
  assert (Hprime := primes_prime P HP).
  assert (Hrange := primes_range P HP).
  assert (Hs : 1 <= s <= P - 2) by (apply mod2_range; lia).
  assert (Hi0 : 0 <= i0 < P) by (apply Z.mod_pos_bound; lia).
  assert (Hperm : cycle ≡ₚ seqZ 0 P)
    by (apply probe_seq_Permutation; [done|lia|lia|done]).
  assert (Hscans : ∀ m hp nodeid,
     size m = P → UA_NodeId_hash H nodeid = h →
     findOccupiedSlot H m hp nodeid
       = scanOccupied (entries m) hp nodeid h cycle ∧
     findFreeSlot H m hp nodeid
       = scanFree (entries m) hp nodeid h None cycle).
  { intros m hp nodeid Hm Hid.
    unfold findOccupiedSlot, findFreeSlot. rewrite Hm, Hid.
    fold i0 s. rewrite (u32_small i0) by lia.
    assert (Hz : i0 = (i0 + 0 * s) mod P)
      by (rewrite Z.mul_0_l, Z.add_0_r; symmetry; apply Z.mod_small; lia).
    unfold cycle. split.
    - rewrite Hz at 2 3.
      apply findOccupiedSlot_loop_scan; (done || lia).
    - rewrite Hz at 2 3.
      apply findFreeSlot_loop_scan; (done || lia). }
  assert (Hread : ∀ m hp, size m = P → slots_live m hp →
     ∀ i, i ∈ cycle → ∃ p, entries m !! Z.to_nat i = Some p ∧
                           (UA_NODEMAP_TOMBSTONE < p → is_Some (hp !! p))).
  { intros m hp Hm [Hlen Hlive] i Hi.
    rewrite Hperm in Hi. apply elem_of_seqZ in Hi.
    destruct (lookup_lt_is_Some_2 (entries m) (Z.to_nat i)) as [p Hp]; [lia|].
    exists p. split; [done|]. apply Hlive. by eapply list_elem_of_lookup_2. }
  repeat split.
  - unfold s, mod2. rewrite (u32_small (P - 2)) by lia.
    apply u32_small.
    pose proof (Z.mod_pos_bound h (P - 2)). lia.
  - lia.
  - lia.
  - lia.
  - lia.
  - unfold cycle. rewrite probe_seq_length. lia.
  - done.
  - intros k Hk. unfold cycle. apply probe_seq_lookup; lia.
  - intros Heq. apply probe_back_at_start in Heq; (done || lia).
  - intros ->. apply probe_cycle_closes. lia.
  - by apply Hscans.
  - by apply Hscans.
  - destruct (Hscans m hp nodeid) as [-> _]; [done..|].
    apply scanOccupied_is_Some. by apply Hread.
  - destruct (Hscans m hp nodeid) as [_ ->]; [done..|].
    apply scanFree_is_Some. by apply Hread.
  - intros Hex Hlive Hnn i p e Hp Hocc He.
    destruct (Hscans m hp nodeid) as [Hocc_eq _]; [done..|].
    rewrite Hocc_eq in Hex.
    assert (Hil := lookup_lt_Some _ _ _ Hp).
    destruct Hlive as [Hlen _].
    eapply (scanOccupied_exhausted _ _ _ _ _ Hex) with (i := Z.of_nat i); eauto.
    + intros j _ Hj. apply Hnn. by eapply list_elem_of_lookup_2.
    + rewrite Hperm. apply elem_of_seqZ. lia.
    + by rewrite Nat2Z.id.
Qed.

End ProbeCycle.

(** ** Allocation, cleanup and the compare-and-swap *)

Lemma UA_calloc_spec hp alloc :
  UA_calloc hp alloc = NULL ∨
  (UA_NODEMAP_TOMBSTONE < UA_calloc hp alloc ∧ hp !! UA_calloc hp alloc = None).
Proof.
  unfold UA_calloc. destruct alloc as [p|]; [|by left].
  destruct (Z.ltb_spec UA_NODEMAP_TOMBSTONE p); [|by left].
  destruct (hp !! p) eqn:Hp; [by left|]. right. by rewrite Hp.
Qed.

Lemma createEntry_spec alloc nodeClass hp :
  createEntry alloc nodeClass hp = (NULL, hp) ∨
  ∃ p, UA_NODEMAP_TOMBSTONE < p ∧ hp !! p = None ∧
       createEntry alloc nodeClass hp =
       (p, <[p := mkEntry 0 NULL 0 false (mkNode UA_NODEID_NULL nodeClass 0)]> hp).
Proof.
  unfold createEntry.
  destruct (UA_calloc_spec hp alloc) as [Hn|[Hlt Hfresh]].
  - rewrite Hn. destruct nodeClass; by left.
  - assert ((UA_calloc hp alloc =? NULL) = false) as Hnn
      by (apply Z.eqb_neq; unfold NULL, UA_NODEMAP_TOMBSTONE in *; lia).
    rewrite Hnn.
    destruct nodeClass; [by left|right; eexists; eauto..].
Qed.

Lemma cmpxchg_no_race cells slot expected desired :
  cells !! Z.to_nat slot = Some expected →
  UA_atomic_cmpxchg cells slot None expected desired
  = Some (expected, <[Z.to_nat slot := desired]> cells).
Proof.
  intros Hc. unfold UA_atomic_cmpxchg. rewrite Hc. cbn.
  by rewrite Z.eqb_refl.
Qed.

Lemma cmpxchg_lost cells slot v expected desired :
  is_Some (cells !! Z.to_nat slot) → v ≠ expected →
  UA_atomic_cmpxchg cells slot (Some v) expected desired
  = Some (v, <[Z.to_nat slot := v]> cells).
Proof.
  intros Hc Hne. unfold UA_atomic_cmpxchg.
  rewrite list_lookup_insert_eq by (by apply lookup_lt_is_Some). cbn.
  by apply Z.eqb_neq in Hne as ->.
Qed.

Section Basics.

Variable H : UA_NodeId → Z.

Lemma expand_loop_fields oentries : ∀ j cnt m hp m',
  expand_loop H oentries j cnt m hp = Some m' →
  size m' = size m ∧ count m' = count m ∧
  sizePrimeIndex m' = sizePrimeIndex m ∧
  length (entries m') = length (entries m).
Proof.
  induction oentries as [|p oentries IH]; intros j cnt m hp m' Hl;
    cbn [expand_loop] in Hl; [by simplify_eq|].
  destruct (j <? cnt); [|by simplify_eq].
  destruct (p <=? UA_NODEMAP_TOMBSTONE); [by eapply IH|].
  destruct (hp !! p) as [e|]; [|done]. cbn in Hl.
  destruct (findFreeSlot H m hp (nodeId (node e))) as [[i|]|]; [|done..].
  cbn in Hl. apply IH in Hl as (? & ? & ? & Hlen). cbn in *.
  rewrite length_insert in Hlen. done.
Qed.

Lemma expand_heap calloc_ok s s' status :
  expand H calloc_ok s = Some (s', status) → heap s' = heap s.
Proof.
  unfold expand. intros He.
  destruct (_ && _); [by simplify_eq|].
  destruct (higher_prime_index _) as [nindex|]; [|done]. cbn in He.
  destruct (primes !! Z.to_nat nindex) as [nsize|]; [|done]. cbn in He.
  destruct (negb calloc_ok); [by simplify_eq|].
  destruct (expand_loop _ _ _ _ _ _) as [m'|]; [|done]. cbn in He.
  by simplify_eq.
Qed.

(** The slot [findFreeSlot] hands out is not occupied. *)
Lemma findFreeSlot_loop_free fuel : ∀ es hp nodeid h size startIdx hash2
    candidate idx i,
  findFreeSlot_loop fuel es hp nodeid h size startIdx hash2 candidate idx
  = Some (Some i) →
  candidate = Some i ∨
  ∃ x, es !! Z.to_nat i = Some x ∧ ¬ UA_NODEMAP_TOMBSTONE < x.
Proof.
  induction fuel as [|fuel IH];
    intros es hp nodeid h size startIdx hash2 candidate idx i Hl; [done|].
  cbn [findFreeSlot_loop] in Hl.
  destruct (es !! Z.to_nat (u32 idx)) as [entry|] eqn:Hentry; [|done].
  cbn in Hl.
  destruct (Z.ltb_spec UA_NODEMAP_TOMBSTONE entry) as [Hlt|Hge].
  - destruct (hp !! entry) as [e|]; [|done]. cbn in Hl.
    destruct (_ && _); [done|].
    destruct (u32 _ =? startIdx); [left; by simplify_eq|by eapply IH].
  - assert (Hcand : match candidate with
                    | Some c => Some c | None => Some (u32 idx) end = Some i →
                    candidate = Some i ∨
                    ∃ x, es !! Z.to_nat i = Some x ∧ ¬ UA_NODEMAP_TOMBSTONE < x).
    { destruct candidate; intros ?; simplify_eq; [by left|].
      right. exists entry. split; [done|lia]. }
    destruct (entry =? NULL); [apply Hcand; by simplify_eq|].
    destruct (u32 _ =? startIdx); [apply Hcand; by simplify_eq|].
    apply IH in Hl as [Hl|Hl]; [by apply Hcand|by right].
Qed.

Lemma findFreeSlot_free m hp nodeid i :
  findFreeSlot H m hp nodeid = Some (Some i) →
  ∃ x, entries m !! Z.to_nat i = Some x ∧ ¬ UA_NODEMAP_TOMBSTONE < x.
Proof.
  unfold findFreeSlot. intros Hf.
  apply findFreeSlot_loop_free in Hf as [?|?]; done.
Qed.

(** The slot [findOccupiedSlot] returns holds an entry with the NodeId
    that was asked for. *)
Lemma findOccupiedSlot_loop_found fuel : ∀ es hp nodeid h size startIdx hash2
    idx i,
  findOccupiedSlot_loop fuel es hp nodeid h size startIdx hash2 idx
  = Some (Some i) →
  ∃ p e, es !! Z.to_nat i = Some p ∧ UA_NODEMAP_TOMBSTONE < p ∧
         hp !! p = Some e ∧ nodeIdHash e = h ∧ nodeId (node e) = nodeid.
Proof.
  induction fuel as [|fuel IH];
    intros es hp nodeid h size startIdx hash2 idx i Hl; [done|].
  cbn [findOccupiedSlot_loop] in Hl.
  destruct (es !! Z.to_nat (u32 idx)) as [entry|] eqn:Hentry; [|done].
  cbn in Hl.
  destruct (Z.ltb_spec UA_NODEMAP_TOMBSTONE entry) as [Hlt|Hge].
  - destruct (hp !! entry) as [e|] eqn:He; [|done]. cbn in Hl.
    destruct (_ && _) eqn:Hm.
    + simplify_eq. apply andb_true_iff in Hm as [Hh Hid].
      apply Z.eqb_eq in Hh. apply bool_decide_eq_true in Hid.
      by exists entry, e.
    + destruct (u32 _ =? startIdx); [done|by eapply IH].
  - destruct (entry =? NULL); [done|].
    destruct (u32 _ =? startIdx); [done|by eapply IH].
Qed.

Lemma findOccupiedSlot_found m hp nodeid i :
  findOccupiedSlot H m hp nodeid = Some (Some i) →
  ∃ p e, entries m !! Z.to_nat i = Some p ∧ UA_NODEMAP_TOMBSTONE < p ∧
         hp !! p = Some e ∧ nodeIdHash e = UA_NodeId_hash H nodeid ∧
         nodeId (node e) = nodeid.
Proof. unfold findOccupiedSlot. apply findOccupiedSlot_loop_found. Qed.

End Basics.

(** ** [releaseNode] of a null pointer *)

(** C9: releasing the null node pointer returns at once; the store is the
    same afterwards (no reference count touched, nothing freed) and the
    assertion on the reference count is not evaluated. *)
Theorem releaseNode_null_is_noop (s : Store) :
  UA_NodeMap_releaseNode NULL s = Some s.
Proof. reflexivity. Qed.

(** ** [getNodeCopy] *)

(** [getNodeCopy] changes the heap by at most one new entry. *)
Lemma getNodeCopy_heap H alloc copy_status nodeid s s' status out :
  UA_NodeMap_getNodeCopy H alloc copy_status nodeid s = Some (s', status, out) →
  ns s' = ns s ∧
  (heap s' = heap s ∨
   ∃ e, UA_NODEMAP_TOMBSTONE < out ∧ heap s !! out = None ∧
        heap s' = <[out := e]> (heap s)).
Proof.
  unfold UA_NodeMap_getNodeCopy. intros Hc.
  destruct (findOccupiedSlot H (ns s) (heap s) nodeid) as [[i|]|];
    [| |done]; cbn in Hc; [|simplify_eq; by split; [|left]].
  destruct (entries (ns s) !! Z.to_nat i) as [entry|]; [|done].
  cbn in Hc. destruct (heap s !! entry) as [e|]; [|done]. cbn in Hc.
  destruct (createEntry_spec alloc (nodeClass (node e)) (heap s))
    as [Hnull|(p & Hp & Hfresh & Hcreate)].
  - rewrite Hnull in Hc. cbn in Hc. simplify_eq. by split; [|left].
  - rewrite Hcreate in Hc.
    assert ((p =? NULL) = false) as Hpn
      by (apply Z.eqb_neq; unfold NULL, UA_NODEMAP_TOMBSTONE in *; lia).
    rewrite Hpn in Hc.
    unfold deleteNodeMapEntry in Hc. rewrite lookup_insert_eq in Hc.
    destruct (decide (copy_status = UA_STATUSCODE_GOOD)); cbn in Hc;
      simplify_eq; cbn; (split; [done|]).
    + right. rewrite insert_insert_eq. by eexists.
    + left. by rewrite delete_insert_id.
Qed.

(** C10: [getNodeCopy] leaves the map structure (array, size, count, prime
    index) and every allocated entry as they are, on each of its paths.
    When it does not hand out a copy (NodeId unknown, out of memory, or a
    failed [UA_Node_copy]) the store is unchanged altogether; when it does,
    the only difference is the new entry, allocated at a fresh address
    outside of the table, with a zero reference count of its own and
    [orig] set to the entry it was copied from, whose reference count is
    not incremented. *)
Theorem getNodeCopy_leaves_store H alloc copy_status nodeid s s' status out :
  UA_NodeMap_getNodeCopy H alloc copy_status nodeid s = Some (s', status, out) →
  ns s' = ns s ∧
  (∀ p e, heap s !! p = Some e → heap s' !! p = Some e) ∧
  (out = NULL → s' = s ∧ status ≠ UA_STATUSCODE_GOOD) ∧
  (out ≠ NULL →
     status = UA_STATUSCODE_GOOD ∧ UA_NODEMAP_TOMBSTONE < out ∧
     heap s !! out = None ∧
     ∃ i entry e,
       findOccupiedSlot H (ns s) (heap s) nodeid = Some (Some i) ∧
       entries (ns s) !! Z.to_nat i = Some entry ∧
       heap s !! entry = Some e ∧
       heap s' = <[out := mkEntry 0 entry 0 false (node e)]> (heap s)).
Proof.
  unfold UA_NodeMap_getNodeCopy. intros Hc.
  destruct (findOccupiedSlot H (ns s) (heap s) nodeid) as [[i|]|] eqn:Hslot;
    [| |done].
  - cbn in Hc.
    destruct (entries (ns s) !! Z.to_nat i) as [entry|] eqn:Hentry; [|done].
    cbn in Hc. destruct (heap s !! entry) as [e|] eqn:He; [|done]. cbn in Hc.
    destruct (createEntry_spec alloc (nodeClass (node e)) (heap s))
      as [Hnull|(p & Hp & Hfresh & Hcreate)].
    + rewrite Hnull in Hc. cbn in Hc. simplify_eq. split_and!; done.
    + rewrite Hcreate in Hc.
      assert ((p =? NULL) = false) as Hpn
        by (apply Z.eqb_neq; unfold NULL, UA_NODEMAP_TOMBSTONE in *; lia).
      rewrite Hpn in Hc.
      destruct (decide (copy_status = UA_STATUSCODE_GOOD)) as [->|Hbad].
      * rewrite lookup_insert_eq in Hc. cbn in Hc. simplify_eq.
        rewrite insert_insert_eq. cbn.
        split_and!; [done| | |].
        -- intros q eq Hq. rewrite lookup_insert_ne; [done|congruence].
        -- intros ->. done.
        -- intros _. split_and!; [done..|]. by exists i, entry, e.
      * unfold deleteNodeMapEntry in Hc. rewrite lookup_insert_eq in Hc.
        cbn in Hc. simplify_eq.
        rewrite delete_insert_id by done. cbn.
        split_and!; [done..| |done].
        intros _. split; [by destruct s|done].
  - cbn in Hc. simplify_eq. split_and!; done.
Qed.

(** ** [insertNode]: the failure paths *)

Section InsertFailures.

Variable H : UA_NodeId → Z.

(** When the table is three quarters full the pre-emptive [expand] gets
    as far as its allocation, and fails with it. *)
Lemma expand_allocation_fails s :
  size (ns s) ∈ primes → size (ns s) <= 1073741789 →
  0 <= count (ns s) <= size (ns s) →
  size (ns s) * 3 <= count (ns s) * 4 →
  expand H false s = Some (s, UA_STATUSCODE_BADOUTOFMEMORY).
Proof.
  intros HP Hmax Hc Hfull.
  assert (HPr := primes_range _ HP).
  unfold expand.
  rewrite (u32_small (count (ns s) * 2)) by lia.
  assert (Hnot : (count (ns s) * 2 <? size (ns s)) = false)
    by (apply Z.ltb_ge; lia).
  rewrite Hnot. cbn [andb].
  destruct (higher_prime_index_total (count (ns s) * 2))
    as (i & -> & Hi & _ & _ & Hlt).
  cbn [mbind option_bind].
  destruct (lookup_lt_is_Some_2 primes (Z.to_nat i)) as [nsize ->].
  { change (length primes) with 30%nat. lia. }
  reflexivity.
Qed.

(** [expand] fails in one way only: its allocation of the new array
    fails; it then reports [BADOUTOFMEMORY] and has changed nothing. *)
Lemma expand_fails_by_allocation calloc_ok s s' st :
  expand H calloc_ok s = Some (s', st) → st ≠ UA_STATUSCODE_GOOD →
  calloc_ok = false ∧ s' = s ∧ st = UA_STATUSCODE_BADOUTOFMEMORY.
Proof.
  unfold expand. intros Hexp Hst.
  destruct (_ && _); [by simplify_eq|].
  destruct (higher_prime_index _) as [nindex|]; [|done].
  cbn [mbind option_bind] in Hexp.
  destruct (primes !! Z.to_nat nindex) as [nsize|]; [|done].
  cbn [mbind option_bind] in Hexp.
  destruct calloc_ok; cbn [negb] in Hexp; [|by simplify_eq].
  destruct (expand_loop _ _ _ _ _ _); cbn in Hexp; [|done]. by simplify_eq.
Qed.

(** Outside of the band in which [expand] leaves the table alone, and
    with a request that the ladder can serve, [expand] gets as far as its
    allocation, and fails with it. *)
Lemma expand_reaches_allocation s :
  ¬ (u32 (count (ns s) * 2) < size (ns s) ∧
     (size (ns s) < u32 (count (ns s) * 8) ∨
      size (ns s) <= UA_NODEMAP_MINSIZE)) →
  u32 (count (ns s) * 2) <= 4294967291 →
  expand H false s = Some (s, UA_STATUSCODE_BADOUTOFMEMORY).
Proof.
  intros Hband Hreq. unfold expand.
  assert (Hnot : (u32 (count (ns s) * 2) <? size (ns s))
                 && ((size (ns s) <? u32 (count (ns s) * 8))
                     || (size (ns s) <=? UA_NODEMAP_MINSIZE)) = false).
  { apply not_true_is_false. intros Hb. apply Hband.
    apply andb_true_iff in Hb as [Hlt Hor]. apply Z.ltb_lt in Hlt.
    apply orb_true_iff in Hor as [Hor|Hor];
      [apply Z.ltb_lt in Hor|apply Z.leb_le in Hor]; auto. }
  rewrite Hnot.
  destruct (higher_prime_index_total (u32 (count (ns s) * 2)))
    as (i & -> & Hi & _ & _ & Hlt).
  cbn [mbind option_bind].
  destruct (lookup_lt_is_Some_2 primes (Z.to_nat i)) as [nsize ->].
  { change (length primes) with 30%nat. lia. }
  reflexivity.
Qed.

(** C7 (as the code has it): when the load pre-check of [insertNode]
    fires (the comparison of [size * 3] with [count * 4] as the code
    evaluates it, in 32 bits) and the [expand] it starts fails, which it
    does only when its allocation of the new slot array fails,
    [insertNode] returns at once with the store untouched (the node is
    not freed either); [expand] reports [BADOUTOFMEMORY], the status
    [insertNode] hands to its caller is [BADINTERNALERROR].  This holds
    in every state, whatever the size of the table.  The second part
    says when a failing allocation is reached: whenever the table is
    outside of the band in which [expand] returns at once and the ladder
    has a prime for twice the count. *)
Theorem insertNode_failed_expand_is_internal idcopy_status race pnode
    addedNodeId s :
  u32 (size (ns s) * 3) <= u32 (count (ns s) * 4) →
  (∀ calloc_ok s' st,
     expand H calloc_ok s = Some (s', st) → st ≠ UA_STATUSCODE_GOOD →
     calloc_ok = false ∧ s' = s ∧ st = UA_STATUSCODE_BADOUTOFMEMORY ∧
     UA_NodeMap_insertNode H calloc_ok idcopy_status race pnode addedNodeId s
     = Some (s, UA_STATUSCODE_BADINTERNALERROR, None)) ∧
  (¬ (u32 (count (ns s) * 2) < size (ns s) ∧
      (size (ns s) < u32 (count (ns s) * 8) ∨
       size (ns s) <= UA_NODEMAP_MINSIZE)) →
   u32 (count (ns s) * 2) <= 4294967291 →
   expand H false s = Some (s, UA_STATUSCODE_BADOUTOFMEMORY) ∧
   UA_NodeMap_insertNode H false idcopy_status race pnode addedNodeId s
   = Some (s, UA_STATUSCODE_BADINTERNALERROR, None)).
Proof.
  intros Hfire. apply Z.leb_le in Hfire.
  assert (Hany : ∀ calloc_ok s' st,
            expand H calloc_ok s = Some (s', st) → st ≠ UA_STATUSCODE_GOOD →
            UA_NodeMap_insertNode H calloc_ok idcopy_status race pnode
              addedNodeId s
            = Some (s', UA_STATUSCODE_BADINTERNALERROR, None)).
  { intros calloc_ok s' st Hexp Hst. unfold UA_NodeMap_insertNode.
    rewrite Hfire, Hexp. cbn [mbind option_bind].
    by rewrite decide_True. }
  split.
  - intros calloc_ok s' st Hexp Hst.
    destruct (expand_fails_by_allocation _ _ _ _ Hexp Hst) as (-> & -> & ->).
    split_and!; [done..|]. by apply (Hany false s UA_STATUSCODE_BADOUTOFMEMORY).
  - intros Hband Hreq.
    pose proof (expand_reaches_allocation s Hband Hreq) as Hexp.
    split; [done|]. by apply (Hany false s UA_STATUSCODE_BADOUTOFMEMORY).
Qed.

(** The slot found by the search for a fresh identifier is free as well. *)
Lemma assignNodeId_loop_free fuel : ∀ m hp pnode size increase startId
    identifier i hp',
  assignNodeId_loop H fuel m hp pnode size increase startId identifier
  = Some (Some i, hp') →
  ∃ x, entries m !! Z.to_nat i = Some x ∧ ¬ UA_NODEMAP_TOMBSTONE < x.
Proof.
  induction fuel as [|fuel IH];
    intros m hp pnode size increase startId identifier i hp' Hl; [done|].
  cbn [assignNodeId_loop] in Hl.
  destruct (hp !! pnode) as [e|]; [|done]. cbn in Hl.
  destruct (findFreeSlot H m _ _) as [[j|]|] eqn:Hfree; [| |done]; cbn in Hl.
  - simplify_eq. by eapply findFreeSlot_free.
  - destruct (u32 _ =? startId); [done|by eapply IH].
Qed.

(** C6 (as the code has it): take an [insertNode] that reaches the
    publication step: without interference it publishes the node in the
    cell [i], whose content [x] it has read, and returns [GOOD].  When
    the compare-and-swap fails instead, because the content of the cell
    has changed to any [v] other than [x] since it was read, [insertNode]
    returns [BADNODEIDEXISTS]; it has freed the node, the cell keeps [v],
    and [count] is not incremented.  ([s0] is the store after the load
    pre-check, which may have resized the table.) *)
Theorem insertNode_lost_cas_is_NodeIdExists calloc_ok idcopy_status pnode
    addedNodeId s s1 out :
  UA_NodeMap_insertNode H calloc_ok idcopy_status None pnode addedNodeId s
  = Some (s1, UA_STATUSCODE_GOOD, out) →
  ∃ s0 (i : nat) x,
    (if u32 (size (ns s) * 3) <=? u32 (count (ns s) * 4)
     then expand H calloc_ok s else Some (s, UA_STATUSCODE_GOOD))
    = Some (s0, UA_STATUSCODE_GOOD) ∧
    entries (ns s0) !! i = Some x ∧ ¬ UA_NODEMAP_TOMBSTONE < x ∧
    ns s1 = set_count (u32 (count (ns s0) + 1))
              (set_entries (<[i := pnode]> (entries (ns s0))) (ns s0)) ∧
    ∀ v, v ≠ x →
      ∃ hp2,
        UA_NodeMap_insertNode H calloc_ok idcopy_status (Some v) pnode
          addedNodeId s
        = Some (mkStore (set_entries (<[i := v]> (entries (ns s0))) (ns s0))
                  hp2,
                UA_STATUSCODE_BADNODEIDEXISTS, out) ∧
        hp2 !! pnode = None.
Proof.
  unfold UA_NodeMap_insertNode. intros Hgood.
  destruct (if u32 (size (ns s) * 3) <=? u32 (count (ns s) * 4)
            then expand H calloc_ok s else Some (s, UA_STATUSCODE_GOOD))
    as [[s0 expanded]|]; [|done].
  cbn [mbind option_bind] in *.
  destruct (decide (expanded ≠ UA_STATUSCODE_GOOD)) as [|Hexp]; [done|].
  apply dec_stable in Hexp as ->.
  destruct (heap s0 !! pnode) as [e|]; [|done].
  cbn [mbind option_bind] in *.
  set (search := if is_numeric_zero (nodeId (node e)) then _ else _) in *.
  assert (Hsearch : ∀ i hp, search = Some (Some i, hp) →
            ∃ x, entries (ns s0) !! Z.to_nat i = Some x ∧
                 ¬ UA_NODEMAP_TOMBSTONE < x).
  { subst search. intros i hp. destruct (is_numeric_zero _).
    - apply assignNodeId_loop_free.
    - destruct (findFreeSlot H (ns s0) (heap s0) (nodeId (node e)))
        as [slot|] eqn:Hfree; [|done].
      cbn. intros ?; simplify_eq. by eapply findFreeSlot_free. }
  destruct search as [[[i|] hp]|]; [| |done].
  2:{ cbn in Hgood. destruct (deleteNodeMapEntry pnode hp); done. }
  destruct (Hsearch i hp eq_refl) as (x & Hx & Hfree).
  cbn [mbind option_bind] in *.
  destruct (hp !! pnode) as [e'|]; [|done].
  cbn [mbind option_bind] in *.
  destruct (addedNodeId && bool_decide (idcopy_status ≠ UA_STATUSCODE_GOOD))
    eqn:Hcopy.
  { destruct (deleteNodeMapEntry pnode hp); [|done]. cbn in Hgood.
    simplify_eq. apply andb_true_iff in Hcopy as [_ Hcopy].
    by apply bool_decide_eq_true in Hcopy. }
  rewrite Hx in *. cbn [mbind option_bind] in *.
  rewrite cmpxchg_no_race in Hgood by done.
  cbn [mbind option_bind] in Hgood.
  rewrite Z.eqb_refl in Hgood. cbn in Hgood. simplify_eq.
  exists s0, (Z.to_nat i), x. split_and!; [done..|].
  intros v Hv.
  rewrite cmpxchg_lost by eauto.
  cbn [mbind option_bind].
  apply Z.eqb_neq in Hv as ->. cbn.
  unfold deleteNodeMapEntry. rewrite lookup_insert_eq. cbn.
  eexists. split; [reflexivity|]. apply lookup_delete_eq.
Qed.

End InsertFailures.


(** ** [replaceNode] *)

Section Replace.

Variable H : UA_NodeId → Z.

(** What [cleanupNodeMapEntry] leaves of the heap once [entry] has been
    marked deleted. *)
Lemma cleanup_after_delete entry e hp :
  cleanupNodeMapEntry entry (<[entry := set_deleted true e]> hp)
  = Some (if refCount e =? 0 then delete entry hp
          else <[entry := set_deleted true e]> hp).
Proof.
  unfold cleanupNodeMapEntry, deleteNodeMapEntry.
  rewrite lookup_insert_eq. cbn.
  destruct (refCount e =? 0); [|done].
  cbn. by rewrite delete_insert_eq.
Qed.

(** The three outcomes of [replaceNode] for a client-owned entry [pnode]
    (allocated, in no slot): its NodeId is not in the table, the slot of
    its NodeId holds another entry than [orig], or it holds [orig]. *)
Lemma replaceNode_spec pnode newEntry s :
  heap s !! pnode = Some newEntry → pnode ∉ entries (ns s) →
  (findOccupiedSlot H (ns s) (heap s) (nodeId (node newEntry)) = Some None →
   UA_NodeMap_replaceNode H None pnode s
   = Some (mkStore (ns s) (delete pnode (heap s)),
           UA_STATUSCODE_BADNODEIDUNKNOWN)) ∧
  (∀ i, findOccupiedSlot H (ns s) (heap s) (nodeId (node newEntry))
        = Some (Some i) →
     ∃ oldEntry old,
       entries (ns s) !! Z.to_nat i = Some oldEntry ∧
       heap s !! oldEntry = Some old ∧
       nodeId (node old) = nodeId (node newEntry) ∧
       (oldEntry ≠ orig newEntry →
        UA_NodeMap_replaceNode H None pnode s
        = Some (mkStore (ns s) (delete pnode (heap s)),
                UA_STATUSCODE_BADINTERNALERROR)) ∧
       (oldEntry = orig newEntry →
        UA_NodeMap_replaceNode H None pnode s
        = Some (mkStore
                  (set_entries (<[Z.to_nat i := pnode]> (entries (ns s))) (ns s))
                  (let hp := <[pnode := set_nodeIdHash (nodeIdHash old) newEntry]>
                               (heap s) in
                   if refCount old =? 0 then delete oldEntry hp
                   else <[oldEntry := set_deleted true old]> hp),
                UA_STATUSCODE_GOOD))).
Proof.
  intros Hnew Hunpub. unfold UA_NodeMap_replaceNode.
  rewrite Hnew. cbn [mbind option_bind]. split.
  - intros ->. cbn. unfold deleteNodeMapEntry. by rewrite Hnew.
  - intros i Hslot. rewrite Hslot. cbn [mbind option_bind].
    destruct (findOccupiedSlot_found H _ _ _ _ Hslot)
      as (oldEntry & old & Hold & Hocc & Hheap & _ & Hid).
    exists oldEntry, old. split_and!; [done..| |].
    + intros Hne. rewrite Hold. cbn.
      apply Z.eqb_neq in Hne as ->. cbn.
      unfold deleteNodeMapEntry. by rewrite Hnew.
    + intros <-. rewrite Hold. cbn [mbind option_bind].
      rewrite Z.eqb_refl. cbn [negb]. rewrite Hheap. cbn [mbind option_bind].
      rewrite cmpxchg_no_race by done. cbn [mbind option_bind].
      rewrite Z.eqb_refl. cbn [negb].
      assert (oldEntry ≠ pnode) as Hne.
      { intros ->. apply Hunpub. by eapply list_elem_of_lookup_2. }
      rewrite lookup_insert_ne by done. rewrite Hheap.
      cbn [mbind option_bind].
      rewrite cleanup_after_delete. reflexivity.
Qed.

End Replace.

(** ** The lifetime of an entry *)

Lemma elem_of_insert_inv (l : list Z) (i : nat) (x y : Z) :
  y ∈ <[i:=x]> l → y = x ∨ y ∈ l.
Proof.
  intros Hy. apply list_elem_of_lookup in Hy as [k Hk].
  apply list_lookup_insert_Some in Hk as [(-> & -> & _)|[_ Hk]]; [by left|].
  right. by eapply list_elem_of_lookup_2.
Qed.

Lemma unpublished_spec s pnode :
  unpublished s pnode = true ↔
  ¬ (pnode ∈ entries (ns s)) ∧
  ∃ e, heap s !! pnode = Some e ∧ deleted e = false.
Proof.
  unfold unpublished. rewrite andb_true_iff, bool_decide_eq_true.
  destruct (heap s !! pnode) as [e|].
  - rewrite negb_true_iff. split.
    + intros [? ?]. split; [done|]. by exists e.
    + intros [? (e' & ? & ?)]. by simplify_eq.
  - split; [intros [_ ?]; done|intros [_ (e' & ? & _)]; done].
Qed.

Section Lifetime.

Variable H : UA_NodeId → Z.

Lemma expand_loop_entries oentries : ∀ j cnt m hp m' q,
  expand_loop H oentries j cnt m hp = Some m' →
  q ∈ entries m' → q ∈ entries m ∨ q ∈ oentries.
Proof.
  induction oentries as [|p oentries IH]; intros j cnt m hp m' q Hl Hq;
    cbn [expand_loop] in Hl; [left; by simplify_eq|].
  destruct (j <? cnt); [|left; by simplify_eq].
  destruct (p <=? UA_NODEMAP_TOMBSTONE).
  { eapply IH in Hl as [?|?]; eauto. right. by right. }
  destruct (hp !! p) as [e|]; [|done]. cbn in Hl.
  destruct (findFreeSlot H m hp (nodeId (node e))) as [[i|]|]; [|done..].
  cbn in Hl. eapply IH in Hl as [Hin|Hin]; eauto.
  - cbn in Hin. apply elem_of_insert_inv in Hin as [->|?]; [|by left].
    right. by left.
  - right. by right.
Qed.

(** [expand] moves pointers, it does not invent any. *)
Lemma expand_entries calloc_ok s s' status q :
  expand H calloc_ok s = Some (s', status) → q ≠ NULL →
  q ∈ entries (ns s') → q ∈ entries (ns s).
Proof.
  unfold expand. intros He Hq Hin.
  destruct (_ && _); [by simplify_eq|].
  destruct (higher_prime_index _) as [nindex|]; [|done]. cbn in He.
  destruct (primes !! Z.to_nat nindex) as [nsize|]; [|done]. cbn in He.
  destruct (negb calloc_ok); [by simplify_eq|].
  destruct (expand_loop _ _ _ _ _ _) as [m'|] eqn:Hloop; [|done]. cbn in He.
  simplify_eq. cbn in Hin.
  eapply expand_loop_entries in Hloop as [Hr|Ht]; eauto.
  - cbn in Hr. by apply elem_of_replicate_inv in Hr.
  - by eapply subseteq_take.
Qed.

(** The search for a fresh identifier writes to the node only. *)
Lemma assignNodeId_loop_heap fuel : ∀ m hp pnode size increase startId
    identifier slot hp',
  assignNodeId_loop H fuel m hp pnode size increase startId identifier
  = Some (slot, hp') →
  ∃ e e', hp !! pnode = Some e ∧
          hp' = <[pnode := e']> hp ∧
          orig e' = orig e ∧ refCount e' = refCount e ∧
          deleted e' = deleted e ∧ nodeIdHash e' = nodeIdHash e.
Proof.
  induction fuel as [|fuel IH];
    intros m hp pnode size increase startId identifier slot hp' Hl; [done|].
  cbn [assignNodeId_loop] in Hl.
  destruct (hp !! pnode) as [e|] eqn:He; [|done]. cbn in Hl.
  destruct (findFreeSlot H m _ _) as [[j|]|] eqn:Hfree; [| |done]; cbn in Hl.
  - simplify_eq. by eexists e, _.
  - destruct (u32 _ =? startId).
    + simplify_eq. by eexists e, _.
    + apply IH in Hl as (e1 & e' & He1 & -> & ? & ? & ? & ?).
      rewrite lookup_insert_eq in He1. simplify_eq.
      exists e, e'. rewrite insert_insert_eq. split_and!; try done.
Qed.

(** An entry that is marked deleted, is still borrowed and (therefore) in
    no slot is out of the reach of every call but the release of a
    reference to it. *)
Lemma apply_base_keeps_borrowed o s s' q e :
  apply_base H o s = Some s' →
  heap s !! q = Some e → deleted e = true → UA_NODEMAP_TOMBSTONE < q →
  q ∉ entries (ns s) → o ≠ OpReleaseNode q →
  heap s' !! q = Some e ∧ q ∉ entries (ns s').
Proof.
  intros Ho Hq Hdel Hvalid Hout Hrel.
  assert (Hnull : q ≠ NULL) by (unfold NULL, UA_NODEMAP_TOMBSTONE in *; lia).
  destruct o as [alloc cls|pnode n|pnode|nodeid|pnode|alloc st nodeid
                |ok st pnode added|pnode|ok nodeid|ok]; cbn in Ho.
  - (* newNode *)
    simplify_eq. unfold UA_NodeMap_newNode.
    destruct (createEntry_spec alloc cls (heap s))
      as [->|(p & Hp & Hfresh & ->)]; [done|].
    destruct (p =? NULL); [done|]. cbn.
    split; [|done]. rewrite lookup_insert_ne; [done|congruence].
  - (* the client writes to its node *)
    destruct (unpublished s pnode) eqn:Hun; [|done].
    apply unpublished_spec in Hun as (_ & e0 & He0 & Hd0).
    rewrite He0 in Ho. cbn in Ho. simplify_eq. cbn.
    split; [|done]. rewrite lookup_insert_ne; [done|congruence].
  - (* deleteNode *)
    destruct (unpublished s pnode) eqn:Hun; [|done].
    apply unpublished_spec in Hun as (_ & e0 & He0 & Hd0).
    unfold UA_NodeMap_deleteNode, deleteNodeMapEntry in Ho.
    rewrite He0 in Ho. cbn in Ho. simplify_eq. cbn.
    split; [|done]. rewrite lookup_delete_ne; [done|congruence].
  - (* getNode *)
    unfold UA_NodeMap_getNode in Ho.
    destruct (findOccupiedSlot H (ns s) (heap s) nodeid) as [[i|]|] eqn:Hslot;
      [| |done]; cbn in Ho; [|by simplify_eq].
    destruct (findOccupiedSlot_found H _ _ _ _ Hslot)
      as (p & ep & Hp & _ & Hep & _).
    rewrite Hp in Ho. cbn in Ho. rewrite Hep in Ho. cbn in Ho. simplify_eq.
    cbn. split; [|done]. rewrite lookup_insert_ne; [done|].
    intros ->. apply Hout. by eapply list_elem_of_lookup_2.
  - (* releaseNode of another node *)
    unfold UA_NodeMap_releaseNode in Ho.
    destruct (pnode =? NULL); [by simplify_eq|].
    destruct (heap s !! pnode) as [e0|] eqn:He0; [|done]. cbn in Ho.
    destruct (0 <? refCount e0); [|done].
    unfold cleanupNodeMapEntry, deleteNodeMapEntry in Ho.
    rewrite lookup_insert_eq in Ho. cbn in Ho.
    assert (pnode ≠ q) by congruence.
    destruct (_ && _); cbn in Ho; simplify_eq; cbn; (split; [|done]).
    + rewrite lookup_delete_ne, lookup_insert_ne; done.
    + rewrite lookup_insert_ne; done.
  - (* getNodeCopy *)
    destruct (UA_NodeMap_getNodeCopy H alloc st nodeid s)
      as [[[s0 st0] out]|] eqn:Hcopy; [|done].
    cbn in Ho. simplify_eq.
    apply getNodeCopy_heap in Hcopy as (Hns & [Hheap|(e1 & _ & Hfresh & Hheap)]);
      rewrite Hns, Hheap; (split; [|done]); [done|].
    rewrite lookup_insert_ne; [done|congruence].
  - (* insertNode *)
    destruct (unpublished s pnode) eqn:Hun; [|done].
    apply unpublished_spec in Hun as (_ & e0 & He0 & Hd0).
    assert (pnode ≠ q) by congruence.
    destruct (UA_NodeMap_insertNode H ok st None pnode added s)
      as [[[s0 st0] out]|] eqn:Hins; [|done].
    cbn in Ho. simplify_eq.
    unfold UA_NodeMap_insertNode in Hins.
    destruct (if u32 (size (ns s) * 3) <=? u32 (count (ns s) * 4)
              then expand H ok s else Some (s, UA_STATUSCODE_GOOD))
      as [[s1 expanded]|] eqn:Hexp; [|done].
    assert (heap s1 = heap s ∧ q ∉ entries (ns s1)) as [Hh1 Hout1].
    { destruct (_ <=? _); [|by simplify_eq].
      split; [by eapply expand_heap|].
      intros Hin. apply Hout. by eapply expand_entries. }
    cbn [mbind option_bind] in Hins.
    destruct (decide (expanded ≠ UA_STATUSCODE_GOOD)).
    { simplify_eq. by rewrite Hh1. }
    rewrite Hh1 in Hins. rewrite He0 in Hins. cbn [mbind option_bind] in Hins.
    set (search := if is_numeric_zero (nodeId (node e0)) then _ else _) in *.
    assert (Hsearch : ∀ slot hp, search = Some (slot, hp) → hp !! q = Some e).
    { subst search. intros slot hp. destruct (is_numeric_zero _).
      - intros Hl. apply assignNodeId_loop_heap in Hl
          as (e1 & e' & _ & -> & _). by rewrite lookup_insert_ne.
      - destruct (findFreeSlot H (ns s1) (heap s) (nodeId (node e0)));
          [|done]. cbn. intros ?. by simplify_eq. }
    destruct search as [[slot hp]|]; [|done].
    specialize (Hsearch slot hp eq_refl).
    cbn [mbind option_bind] in Hins.
    unfold deleteNodeMapEntry in Hins.
    destruct (hp !! pnode) as [e1|] eqn:He1;
      [|destruct slot; cbn in Hins; done].
    destruct slot as [i|]; cbn [mbind option_bind] in Hins.
    2:{ simplify_eq. cbn. by rewrite lookup_delete_ne. }
    destruct (_ && _).
    { cbn in Hins. simplify_eq. cbn. by rewrite lookup_delete_ne. }
    destruct (entries (ns s1) !! Z.to_nat i) as [oldEntry|] eqn:Hold; [|done].
    cbn [mbind option_bind] in Hins.
    rewrite cmpxchg_no_race in Hins by done.
    cbn [mbind option_bind] in Hins.
    rewrite Z.eqb_refl in Hins. cbn in Hins. simplify_eq. cbn.
    split; [by rewrite lookup_insert_ne|].
    intros Hin. apply elem_of_insert_inv in Hin as [?|?]; done.
  - (* replaceNode *)
    destruct (unpublished s pnode) eqn:Hun; [|done].
    apply unpublished_spec in Hun as (Hpout & e0 & He0 & Hd0).
    assert (pnode ≠ q) by congruence.
    destruct (UA_NodeMap_replaceNode H None pnode s) as [[s0 st0]|] eqn:Hrep;
      [|done].
    cbn in Ho. simplify_eq.
    destruct (replaceNode_spec H pnode e0 s He0 Hpout) as [Hnone Hsome].
    destruct (findOccupiedSlot H (ns s) (heap s) (nodeId (node e0)))
      as [[i|]|] eqn:Hslot.
    + destruct (Hsome i eq_refl)
        as (oldEntry & old & Hold & Hheap & _ & Hstale & Hfresh).
      assert (oldEntry ≠ q).
      { intros ->. apply Hout. by eapply list_elem_of_lookup_2. }
      destruct (decide (oldEntry = orig e0)) as [Heq|Hne].
      * rewrite Hfresh in Hrep by done. simplify_eq. cbn.
        split.
        -- destruct (refCount old =? 0).
           ++ by rewrite lookup_delete_ne, lookup_insert_ne.
           ++ by rewrite !lookup_insert_ne.
        -- intros Hin. apply elem_of_insert_inv in Hin as [?|?]; done.
      * rewrite Hstale in Hrep by done. simplify_eq. cbn.
        by rewrite lookup_delete_ne.
    + rewrite Hnone in Hrep by done. simplify_eq. cbn.
      by rewrite lookup_delete_ne.
    + unfold UA_NodeMap_replaceNode in Hrep. rewrite He0 in Hrep.
      cbn in Hrep. by rewrite Hslot in Hrep.
  - (* removeNode *)
    destruct (UA_NodeMap_removeNode H None ok nodeid s) as [[s0 st0]|] eqn:Hrem;
      [|done].
    cbn in Ho. simplify_eq.
    unfold UA_NodeMap_removeNode in Hrem.
    destruct (findOccupiedSlot H (ns s) (heap s) nodeid) as [[i|]|] eqn:Hslot;
      [| |done]; cbn in Hrem; [|by simplify_eq].
    destruct (findOccupiedSlot_found H _ _ _ _ Hslot)
      as (p & ep & Hp & _ & Hep & _).
    assert (p ≠ q).
    { intros ->. apply Hout. by eapply list_elem_of_lookup_2. }
    unfold clearSlot in Hrem. rewrite Hp in Hrem.
    cbn [mbind option_bind] in Hrem.
    rewrite cmpxchg_no_race in Hrem by done.
    cbn [mbind option_bind] in Hrem.
    rewrite Z.eqb_refl in Hrem. cbn [negb] in Hrem.
    rewrite Hep in Hrem. cbn [mbind option_bind] in Hrem.
    rewrite cleanup_after_delete in Hrem. cbn [mbind option_bind] in Hrem.
    set (hp := if refCount ep =? 0 then _ else _) in *.
    assert (hp !! q = Some e) as Hhp.
    { subst hp. destruct (refCount ep =? 0).
      - by rewrite lookup_delete_ne.
      - by rewrite lookup_insert_ne. }
    assert (Hout' : q ∉ <[Z.to_nat i := UA_NODEMAP_TOMBSTONE]> (entries (ns s))).
    { intros Hin. apply elem_of_insert_inv in Hin as [->|?]; [lia|done]. }
    destruct (_ && _).
    + destruct (expand H ok _) as [[s1 st1]|] eqn:Hexp; [|done].
      cbn in Hrem. simplify_eq.
      split.
      * erewrite expand_heap by done. done.
      * intros Hin. eapply expand_entries in Hin; [|done..]. done.
    + simplify_eq. done.
  - (* expand *)
    destruct (expand H ok s) as [[s0 st0]|] eqn:Hexp; [|done].
    cbn in Ho. simplify_eq. split.
    + by erewrite expand_heap by done.
    + intros Hin. eapply expand_entries in Hin; [|done..]. done.
Qed.

Lemma run_base_keeps_borrowed l : ∀ s s' q e,
  run_base H l s = Some s' →
  heap s !! q = Some e → deleted e = true → UA_NODEMAP_TOMBSTONE < q →
  q ∉ entries (ns s) → OpReleaseNode q ∉ l →
  heap s' !! q = Some e ∧ q ∉ entries (ns s').
Proof.
  induction l as [|o l IH]; intros s s' q e Hrun Hq Hdel Hvalid Hout Hrel;
    cbn in Hrun; [by simplify_eq|].
  destruct (apply_base H o s) as [s1|] eqn:Ho; [|done]. cbn in Hrun.
  eapply (apply_base_keeps_borrowed o s s1 q e) in Ho as [Hq1 Hout1];
    [|done..|intros ->; apply Hrel; by left].
  eapply IH; eauto. intros Hin. apply Hrel. by right.
Qed.

Lemma iterate_loop_keeps_borrowed fuel visitor : ∀ i s s' q e,
  UA_NodeMap_iterate_loop fuel (λ p s0, run_base H (visitor p s0) s0) i s
  = Some s' →
  heap s !! q = Some e → deleted e = true → UA_NODEMAP_TOMBSTONE < q →
  q ∉ entries (ns s) → (∀ p s0, OpReleaseNode q ∉ visitor p s0) →
  heap s' !! q = Some e ∧ q ∉ entries (ns s').
Proof.
  induction fuel as [|fuel IH]; intros i s s' q e Hit Hq Hdel Hvalid Hout Hrel;
    [done|].
  cbn [UA_NodeMap_iterate_loop] in Hit.
  destruct (i <? size (ns s)); [|by simplify_eq].
  destruct (entries (ns s) !! Z.to_nat i) as [entry|] eqn:Hentry; [|done].
  cbn [mbind option_bind] in Hit.
  destruct (UA_NODEMAP_TOMBSTONE <? entry); [|by eapply IH].
  destruct (iterate_visit _ entry s) as [s1|] eqn:Hvisit; [|done].
  cbn [mbind option_bind] in Hit.
  assert (entry ≠ q) as Hne.
  { intros ->. apply Hout. by eapply list_elem_of_lookup_2. }
  unfold iterate_visit in Hvisit.
  destruct (heap s !! entry) as [e0|]; [|done].
  cbn [mbind option_bind] in Hvisit.
  destruct (run_base H _ _) as [s2|] eqn:Hrun; [|done].
  cbn [mbind option_bind] in Hvisit.
  eapply (run_base_keeps_borrowed _ _ _ q e) in Hrun as [Hq2 Hout2];
    [|by cbn; rewrite lookup_insert_ne|done..].
  destruct (heap s2 !! entry) as [e2|]; [|done].
  cbn [mbind option_bind] in Hvisit.
  unfold cleanupNodeMapEntry, deleteNodeMapEntry in Hvisit.
  rewrite lookup_insert_eq in Hvisit. cbn in Hvisit.
  eapply (IH _ s1); eauto.
  - destruct (_ && _); cbn in Hvisit; simplify_eq; cbn.
    + by rewrite lookup_delete_ne, lookup_insert_ne.
    + by rewrite lookup_insert_ne.
  - destruct (_ && _); cbn in Hvisit; by simplify_eq.
Qed.

Lemma run_keeps_borrowed l : ∀ s s' q e,
  run H l s = Some s' →
  heap s !! q = Some e → deleted e = true → UA_NODEMAP_TOMBSTONE < q →
  q ∉ entries (ns s) → (∀ o, o ∈ l → ¬ releases q o) →
  heap s' !! q = Some e ∧ q ∉ entries (ns s').
Proof.
  induction l as [|o l IH]; intros s s' q e Hrun Hq Hdel Hvalid Hout Hrel;
    cbn in Hrun; [by simplify_eq|].
  destruct (apply_op H o s) as [s1|] eqn:Ho; [|done]. cbn in Hrun.
  assert (heap s1 !! q = Some e ∧ q ∉ entries (ns s1)) as [Hq1 Hout1].
  { assert (Hno : ¬ releases q o) by (apply Hrel; by left).
    destruct o as [b|fuel visitor]; cbn in Ho.
    - eapply (apply_base_keeps_borrowed b s s1 q e); [done..|].
      intros ->. by apply Hno.
    - eapply (iterate_loop_keeps_borrowed fuel visitor 0 s s1 q e); [done..|].
      intros p s0 Hin. apply Hno. by exists p, s0. }
  eapply IH; eauto. intros o' Hin. apply Hrel. by right.
Qed.

(** C4: an entry is freed as soon as it is marked deleted and nobody
    holds a reference to it.
    - [removeNode] and [replaceNode] mark the entry they take out of its
      slot; it is freed before they return when its reference count is
      zero, and it stays allocated, marked deleted, with its reference
      count, when not.
    - [releaseNode], and the unpin after the visitor in [iterate],
      decrement the count; the entry is freed there exactly when it is
      marked deleted and the count has become zero.
    - In between nothing frees or changes it: a run of calls that does
      not release a reference to a deleted, still referenced entry leaves
      that entry as it is. *)
Theorem deleted_entry_freed_at_zero_refcount :
  (∀ calloc_ok nodeid s s' status i entry e,
     findOccupiedSlot H (ns s) (heap s) nodeid = Some (Some i) →
     entries (ns s) !! Z.to_nat i = Some entry →
     heap s !! entry = Some e →
     UA_NodeMap_removeNode H None calloc_ok nodeid s = Some (s', status) →
     status = UA_STATUSCODE_GOOD ∧
     heap s' = if refCount e =? 0 then delete entry (heap s)
               else <[entry := set_deleted true e]> (heap s)) ∧
  (∀ pnode newEntry s s',
     heap s !! pnode = Some newEntry → pnode ∉ entries (ns s) →
     UA_NodeMap_replaceNode H None pnode s = Some (s', UA_STATUSCODE_GOOD) →
     ∃ old, heap s !! orig newEntry = Some old ∧
            heap s' !! orig newEntry
            = if refCount old =? 0 then None
              else Some (set_deleted true old)) ∧
  (∀ pnode e s,
     pnode ≠ NULL → heap s !! pnode = Some e → 0 < refCount e →
     UA_NodeMap_releaseNode pnode s
     = Some (mkStore (ns s)
               (if deleted e && (u16 (refCount e - 1) =? 0)
                then delete pnode (heap s)
                else <[pnode := set_refCount (u16 (refCount e - 1)) e]>
                       (heap s)))) ∧
  (∀ visitor entry s e s2 e2,
     heap s !! entry = Some e →
     visitor entry
       (mkStore (ns s)
          (<[entry := set_refCount (u16 (refCount e + 1)) e]> (heap s)))
     = Some s2 →
     heap s2 !! entry = Some e2 →
     iterate_visit visitor entry s
     = Some (mkStore (ns s2)
               (if deleted e2 && (u16 (refCount e2 - 1) =? 0)
                then delete entry (heap s2)
                else <[entry := set_refCount (u16 (refCount e2 - 1)) e2]>
                       (heap s2)))) ∧
  (∀ l s s' q e,
     run H l s = Some s' →
     heap s !! q = Some e → deleted e = true → 0 < refCount e →
     UA_NODEMAP_TOMBSTONE < q → q ∉ entries (ns s) →
     (∀ o, o ∈ l → ¬ releases q o) →
     heap s' !! q = Some e).
Proof.
  split_and!.
  - intros ok nodeid s s' status i entry e Hslot Hentry He Hrem.
    unfold UA_NodeMap_removeNode, clearSlot in Hrem.
    rewrite Hslot in Hrem. cbn [mbind option_bind] in Hrem.
    rewrite Hentry in Hrem. cbn [mbind option_bind] in Hrem.
    rewrite cmpxchg_no_race in Hrem by done.
    cbn [mbind option_bind] in Hrem.
    rewrite Z.eqb_refl in Hrem. cbn [negb] in Hrem.
    rewrite He in Hrem. cbn [mbind option_bind] in Hrem.
    rewrite cleanup_after_delete in Hrem. cbn [mbind option_bind] in Hrem.
    destruct (_ && _).
    + destruct (expand H ok _) as [[s1 st1]|] eqn:Hexp; [|done].
      cbn in Hrem. simplify_eq. split; [done|].
      by erewrite expand_heap by done.
    + by simplify_eq.
  - intros pnode newEntry s s' Hnew Hout Hrep.
    destruct (replaceNode_spec H pnode newEntry s Hnew Hout)
      as [Hnone Hsome].
    destruct (findOccupiedSlot H (ns s) (heap s) (nodeId (node newEntry)))
      as [[i|]|] eqn:Hslot.
    + destruct (Hsome i eq_refl)
        as (oldEntry & old & Hold & Hheap & _ & Hstale & Hfresh).
      destruct (decide (oldEntry = orig newEntry)) as [Heq|Hne].
      * rewrite Hfresh in Hrep by done. simplify_eq. cbn.
        exists old. split; [done|].
        destruct (refCount old =? 0).
        -- apply lookup_delete_eq.
        -- apply lookup_insert_eq.
      * rewrite Hstale in Hrep by done. simplify_eq.
    + rewrite Hnone in Hrep by done. simplify_eq.
    + unfold UA_NodeMap_replaceNode in Hrep. rewrite Hnew in Hrep.
      cbn in Hrep. by rewrite Hslot in Hrep.
  - intros pnode e s Hnn He Hrc. unfold UA_NodeMap_releaseNode.
    apply Z.eqb_neq in Hnn as ->. rewrite He. cbn [mbind option_bind].
    apply Z.ltb_lt in Hrc as ->.
    unfold cleanupNodeMapEntry, deleteNodeMapEntry.
    rewrite lookup_insert_eq. cbn.
    destruct (_ && _); cbn; [|done].
    by rewrite delete_insert_eq.
  - intros visitor entry s e s2 e2 He Hvis He2. unfold iterate_visit.
    rewrite He. cbn [mbind option_bind]. rewrite Hvis.
    cbn [mbind option_bind]. rewrite He2. cbn [mbind option_bind].
    unfold cleanupNodeMapEntry, deleteNodeMapEntry.
    rewrite lookup_insert_eq. cbn.
    destruct (_ && _); cbn; [|done].
    by rewrite delete_insert_eq.
  - intros l s s' q e Hrun Hq Hdel _ Hvalid Hout Hrel.
    by eapply run_keeps_borrowed.
Qed.

End Lifetime.

(** ** The table invariant *)

Lemma occupied_app l1 l2 : occupied (l1 ++ l2) = (occupied l1 + occupied l2)%nat.
Proof. unfold occupied. by rewrite filter_app, length_app. Qed.

Lemma occupied_cons x l :
  occupied (x :: l)
  = ((if bool_decide (UA_NODEMAP_TOMBSTONE < x)%Z then 1 else 0) + occupied l)%nat.
Proof.
  unfold occupied. rewrite filter_cons.
  case_bool_decide; destruct (decide _); try done.
Qed.

Lemma occupied_insert (es : list Z) (i : nat) x y :
  es !! i = Some x →
  Z.of_nat (occupied (<[i:=y]> es))
  = Z.of_nat (occupied es)
    - (if bool_decide (UA_NODEMAP_TOMBSTONE < x) then 1 else 0)
    + (if bool_decide (UA_NODEMAP_TOMBSTONE < y) then 1 else 0).
Proof.
  intros Hx.
  assert (Hi := lookup_lt_Some _ _ _ Hx).
  rewrite insert_take_drop by done.
  rewrite <- (take_drop_middle es i x) at 3 by done.
  rewrite !occupied_app, !occupied_cons.
  repeat case_bool_decide; lia.
Qed.

Lemma occupied_le_length es : (occupied es <= length es)%nat.
Proof. apply length_filter. Qed.

Lemma occupied_lt_length (es : list Z) (i : nat) x :
  es !! i = Some x → ¬ UA_NODEMAP_TOMBSTONE < x →
  (occupied es < length es)%nat.
Proof.
  intros Hx Hfree. eapply length_filter_lt; [|exact Hfree].
  by eapply list_elem_of_lookup_2.
Qed.

Lemma occupied_pos (es : list Z) (i : nat) x :
  es !! i = Some x → UA_NODEMAP_TOMBSTONE < x → (0 < occupied es)%nat.
Proof.
  intros Hx Hocc.
  rewrite <- (take_drop_middle es i x) by done.
  rewrite occupied_app, occupied_cons.
  rewrite bool_decide_eq_true_2 by done. lia.
Qed.

Lemma occupied_replicate_NULL n : occupied (replicate n NULL) = 0%nat.
Proof.
  induction n as [|n IH]; [done|].
  cbn [replicate]. rewrite occupied_cons, IH.
  rewrite bool_decide_eq_false_2; [done|].
  unfold NULL, UA_NODEMAP_TOMBSTONE. lia.
Qed.

Section TableInvariant.

Variable H : UA_NodeId → Z.

Lemma TableInv_size_prime m hp : TableInv H m hp → size m ∈ primes.
Proof. intros [Hp _ _ _ _]. by eapply list_elem_of_lookup_2. Qed.

(** No entry sits in two slots. *)
Lemma TableInv_ptr_inj m hp (i j : nat) p :
  TableInv H m hp → entries m !! i = Some p → entries m !! j = Some p →
  UA_NODEMAP_TOMBSTONE < p → i = j.
Proof.
  intros Hinv Hi Hj Hocc.
  destruct (inv_live H m hp Hinv p) as (e & He & _); [|done|].
  { by eapply list_elem_of_lookup_2. }
  eapply (inv_nodup H m hp Hinv i j p p e e); eauto.
Qed.

(** The invariant only reads the NodeId, the cached hash and the deleted
    flag of the entries that sit in slots. *)
Lemma TableInv_frame m hp hp' :
  TableInv H m hp →
  (∀ p e, p ∈ entries m → UA_NODEMAP_TOMBSTONE < p → hp !! p = Some e →
     ∃ e', hp' !! p = Some e' ∧ nodeId (node e') = nodeId (node e) ∧
           nodeIdHash e' = nodeIdHash e ∧ deleted e' = deleted e) →
  TableInv H m hp'.
Proof.
  intros Hinv Hframe.
  assert (Hback : ∀ (i : nat) p e', entries m !! i = Some p →
            UA_NODEMAP_TOMBSTONE < p → hp' !! p = Some e' →
            ∃ e, hp !! p = Some e ∧ nodeId (node e') = nodeId (node e) ∧
                 nodeIdHash e' = nodeIdHash e ∧ deleted e' = deleted e).
  { intros i p e' Hi Hocc He'.
    assert (Hin : p ∈ entries m) by (by eapply list_elem_of_lookup_2).
    destruct (inv_live H m hp Hinv p Hin Hocc) as (e & He & _).
    destruct (Hframe p e Hin Hocc He) as (e'' & He'' & ?).
    exists e. by simplify_eq. }
  destruct Hinv as [Hprime Hlen Hlive Hnodup Hprobe].
  split; [done|done| | |].
  - intros p Hin Hocc.
    destruct (Hlive p Hin Hocc) as (e & He & Hdel & Hhash).
    destruct (Hframe p e Hin Hocc He) as (e' & He' & Hid & Hh & Hd).
    exists e'. split_and!; [done|congruence|congruence].
  - intros i j p q e1 e2 Hi Hj Hp Hq He1 He2 Hid.
    destruct (Hback i p e1 Hi Hp He1) as (e1' & ? & Hid1 & _).
    destruct (Hback j q e2 Hj Hq He2) as (e2' & ? & Hid2 & _).
    eapply (Hnodup i j p q e1' e2'); eauto. congruence.
  - intros i p e' Hi Hp He'.
    destruct (Hback i p e' Hi Hp He') as (e & ? & Hid & _).
    rewrite Hid. by eapply Hprobe.
Qed.

Lemma findFreeSlot_scan m hp nodeid :
  size m ∈ primes →
  findFreeSlot H m hp nodeid
  = scanFree (entries m) hp nodeid (UA_NodeId_hash H nodeid) None
      (probe_cycle (UA_NodeId_hash H nodeid) (size m)).
Proof.
  intros HP.
  assert (Hprime := primes_prime _ HP).
  assert (Hrange := primes_range _ HP).
  pose proof (u32_range (H nodeid)) as Hh. fold (UA_NodeId_hash H nodeid) in Hh.
  unfold findFreeSlot, probe_cycle.
  set (h := UA_NodeId_hash H nodeid) in *.
  assert (Hs : 1 <= mod2 h (size m) <= size m - 2) by (apply mod2_range; lia).
  assert (Hi0 : 0 <= mod1 h (size m) < size m) by (apply Z.mod_pos_bound; lia).
  rewrite (u32_small (mod1 h (size m))) by lia.
  assert (Hz : mod1 h (size m)
               = (mod1 h (size m) + 0 * mod2 h (size m)) mod size m).
  { rewrite Z.mul_0_l, Z.add_0_r. symmetry. apply Z.mod_small. lia. }
  rewrite Hz at 2 3.
  apply findFreeSlot_loop_scan; (done || lia).
Qed.

Lemma findOccupiedSlot_scan m hp nodeid :
  size m ∈ primes →
  findOccupiedSlot H m hp nodeid
  = scanOccupied (entries m) hp nodeid (UA_NodeId_hash H nodeid)
      (probe_cycle (UA_NodeId_hash H nodeid) (size m)).
Proof.
  intros HP.
  assert (Hprime := primes_prime _ HP).
  assert (Hrange := primes_range _ HP).
  pose proof (u32_range (H nodeid)) as Hh. fold (UA_NodeId_hash H nodeid) in Hh.
  unfold findOccupiedSlot, probe_cycle.
  set (h := UA_NodeId_hash H nodeid) in *.
  assert (Hs : 1 <= mod2 h (size m) <= size m - 2) by (apply mod2_range; lia).
  assert (Hi0 : 0 <= mod1 h (size m) < size m) by (apply Z.mod_pos_bound; lia).
  rewrite (u32_small (mod1 h (size m))) by lia.
  assert (Hz : mod1 h (size m)
               = (mod1 h (size m) + 0 * mod2 h (size m)) mod size m).
  { rewrite Z.mul_0_l, Z.add_0_r. symmetry. apply Z.mod_small. lia. }
  rewrite Hz at 2 3.
  apply findOccupiedSlot_loop_scan; (done || lia).
Qed.

(** What a successful scan for a free slot has seen: no entry with the
    NodeId in the cells before the first empty one, and, when it started
    without a candidate, only occupied cells before the slot it returns. *)
Lemma scanFree_Some es hp nodeid h l : ∀ candidate i,
  scanFree es hp nodeid h candidate l = Some (Some i) →
  (∀ (j : nat) x p e,
     l !! j = Some x →
     (∀ (j' : nat) x', (j' < j)%nat → l !! j' = Some x' →
                       es !! Z.to_nat x' ≠ Some NULL) →
     es !! Z.to_nat x = Some p → UA_NODEMAP_TOMBSTONE < p → hp !! p = Some e →
     ¬ (nodeIdHash e = h ∧ nodeId (node e) = nodeid)) ∧
  (candidate = Some i ∨
   candidate = None ∧
   ∃ k : nat, l !! k = Some i ∧
     (∃ x, es !! Z.to_nat i = Some x ∧ ¬ UA_NODEMAP_TOMBSTONE < x) ∧
     ∀ (j' : nat) x', (j' < k)%nat → l !! j' = Some x' →
       ∃ p, es !! Z.to_nat x' = Some p ∧ UA_NODEMAP_TOMBSTONE < p).
Proof.
  induction l as [|c l IH]; intros candidate i Hscan.
  { cbn in Hscan. simplify_eq. split; [|by left].
    intros j x p e Hj. by rewrite lookup_nil in Hj. }
  cbn [scanFree] in Hscan.
  destruct (es !! Z.to_nat c) as [entry|] eqn:Hentry; [|done].
  cbn [mbind option_bind] in Hscan.
  destruct (Z.ltb_spec UA_NODEMAP_TOMBSTONE entry) as [Hocc|Hfree].
  - destruct (hp !! entry) as [e0|] eqn:He0; [|done].
    cbn [mbind option_bind] in Hscan.
    destruct ((nodeIdHash e0 =? h)
              && UA_NodeId_equal (nodeId (node e0)) nodeid) eqn:Hm; [done|].
    apply IH in Hscan as [Hnomatch Hcand]. split.
    + intros [|j] x p e Hj Hbefore Hp Hpocc He.
      * cbn in Hj. simplify_eq. intros [Hh Hid].
        apply andb_false_iff in Hm as [Hm|Hm].
        -- by apply Z.eqb_neq in Hm.
        -- unfold UA_NodeId_equal in Hm. by apply bool_decide_eq_false in Hm.
      * cbn in Hj. eapply (Hnomatch j); eauto.
        intros j' x' Hj' Hx'. apply (Hbefore (S j')); [lia|done].
    + destruct Hcand as [?|(? & k & Hk & Hx & Hbefore)]; [by left|right].
      split; [done|]. exists (S k). split_and!; [done..|].
      intros [|j'] x' Hj' Hx'; cbn in Hx'.
      * simplify_eq. by exists entry.
      * apply (Hbefore j'); [lia|done].
  - cbv zeta in Hscan.
    destruct (Z.eqb_spec entry NULL) as [->|Hnn].
    + split.
      * intros [|j] x p e Hj Hbefore Hp Hpocc He.
        -- cbn in Hj. simplify_eq. lia.
        -- exfalso. apply (Hbefore 0%nat c); [lia|done|done].
      * destruct candidate as [c0|]; simplify_eq; [by left|right].
        split; [done|]. exists 0%nat. split_and!; [done|exists NULL; split; [done|unfold NULL, UA_NODEMAP_TOMBSTONE; lia]|].
        intros; lia.
    + apply IH in Hscan as [Hnomatch Hcand]. split.
      * intros [|j] x p e Hj Hbefore Hp Hpocc He.
        -- cbn in Hj. simplify_eq. lia.
        -- cbn in Hj. eapply (Hnomatch j); eauto.
           intros j' x' Hj' Hx'. apply (Hbefore (S j')); [lia|done].
      * destruct candidate as [c0|].
        -- destruct Hcand as [?|[? _]]; [by left|done].
        -- destruct Hcand as [?|[? _]]; [|done]. simplify_eq. right.
           split; [done|]. exists 0%nat.
           split_and!; [done|exists entry; split; [done|lia]|]. intros; lia.
Qed.

End TableInvariant.

(** ** Writing to one slot *)

(** Filling a cell cuts no probe path. *)
Lemma probe_reaches_insert (es : list Z) h size i (n : nat) y :
  probe_reaches es h size i → y ≠ NULL →
  probe_reaches (<[n:=y]> es) h size i.
Proof.
  intros (k & Hk & Hbefore) Hy. exists k. split; [done|].
  intros j x Hj Hx Hnull.
  apply list_lookup_insert_Some in Hnull as [(_ & ? & _)|[_ Hnull]]; [done|].
  by eapply Hbefore.
Qed.

Lemma probe_cycle_range h P x :
  P ∈ primes → 0 <= h → x ∈ probe_cycle h P → 0 <= x < P.
Proof.
  intros HP Hh Hx.
  assert (Hrange := primes_range _ HP).
  assert (Hs : 1 <= mod2 h P <= P - 2) by (apply mod2_range; lia).
  assert (Hi0 : 0 <= mod1 h P < P) by (apply Z.mod_pos_bound; lia).
  eapply probe_seq_range; [| | |exact Hx]; lia.
Qed.

Section SlotWrites.

Variable H : UA_NodeId → Z.

(** The slot [findFreeSlot] returns is free, no entry of the table has
    the NodeId, and the slot lies on the probe path of the NodeId with
    occupied cells only before it. *)
Lemma findFreeSlot_sound m hp nodeid i :
  TableInv H m hp →
  findFreeSlot H m hp nodeid = Some (Some i) →
  0 <= i ∧
  (∃ x, entries m !! Z.to_nat i = Some x ∧ ¬ UA_NODEMAP_TOMBSTONE < x) ∧
  (∀ (j : nat) p e, entries m !! j = Some p → UA_NODEMAP_TOMBSTONE < p →
                    hp !! p = Some e → nodeId (node e) ≠ nodeid) ∧
  probe_reaches (entries m) (UA_NodeId_hash H nodeid) (size m) i.
Proof.
  intros Hinv Hfree.
  assert (HP := TableInv_size_prime H m hp Hinv).
  rewrite findFreeSlot_scan in Hfree by done.
  apply scanFree_Some in Hfree as [Hnomatch [?|(_ & k & Hk & Hx & Hbefore)]];
    [done|].
  split_and!; [|done| |].
  - eapply probe_cycle_range; [done|apply u32_range|].
    by eapply list_elem_of_lookup_2.
  - intros j p e Hj Hocc He Hid.
    destruct (inv_probe H m hp Hinv j p e Hj Hocc He) as (k' & Hk' & Hpath).
    destruct (inv_live H m hp Hinv p) as (e' & He' & _ & Hhash);
      [by eapply list_elem_of_lookup_2|done|]. simplify_eq.
    eapply (Hnomatch k' (Z.of_nat j) p e); eauto.
    by rewrite Nat2Z.id.
  - exists k. split; [done|]. intros j x Hj Hjx Hnull.
    destruct (Hbefore j x Hj Hjx) as (p & Hp & Hocc). simplify_eq.
    unfold NULL, UA_NODEMAP_TOMBSTONE in *. lia.
Qed.

(** Publishing a client-owned entry into a free slot of its probe path. *)
Lemma TableInv_publish m hp (n : nat) x pnode e :
  TableInv H m hp →
  entries m !! n = Some x → ¬ UA_NODEMAP_TOMBSTONE < x →
  UA_NODEMAP_TOMBSTONE < pnode → hp !! pnode = Some e →
  deleted e = false → nodeIdHash e = UA_NodeId_hash H (nodeId (node e)) →
  (∀ (j : nat) p e', entries m !! j = Some p → UA_NODEMAP_TOMBSTONE < p →
                     hp !! p = Some e' → nodeId (node e') ≠ nodeId (node e)) →
  probe_reaches (entries m) (UA_NodeId_hash H (nodeId (node e))) (size m)
    (Z.of_nat n) →
  TableInv H (set_entries (<[n:=pnode]> (entries m)) m) hp.
Proof.
  intros Hinv Hx Hfree Hvalid He Hdel Hhash Habsent Hreach.
  assert (Hnn : pnode ≠ NULL)
    by (unfold NULL, UA_NODEMAP_TOMBSTONE in *; lia).
  destruct Hinv as [Hprime Hlen Hlive Hnodup Hprobe].
  split; cbn.
  - done.
  - by rewrite length_insert.
  - intros p Hin Hocc. apply elem_of_insert_inv in Hin as [->|Hin].
    + by exists e.
    + by apply Hlive.
  - intros i j p q e1 e2 Hi Hj Hp Hq He1 He2 Hid.
    apply list_lookup_insert_Some in Hi as [(-> & -> & _)|[Hin Hi]];
      apply list_lookup_insert_Some in Hj as [(-> & -> & _)|[Hjn Hj]];
      simplify_eq; try done.
    + exfalso. by eapply (Habsent j q e2).
    + exfalso. by eapply (Habsent i p e1).
    + by eapply (Hnodup i j p q e1 e2).
  - intros i p e1 Hi Hp He1. apply probe_reaches_insert; [|done].
    apply list_lookup_insert_Some in Hi as [(-> & -> & _)|[Hin Hi]].
    + by simplify_eq.
    + by eapply Hprobe.
Qed.

(** Overwriting a slot with the tombstone. *)
Lemma TableInv_tombstone m hp (n : nat) :
  TableInv H m hp →
  TableInv H (set_entries (<[n:=UA_NODEMAP_TOMBSTONE]> (entries m)) m) hp.
Proof.
  intros [Hprime Hlen Hlive Hnodup Hprobe].
  split; cbn.
  - done.
  - by rewrite length_insert.
  - intros p Hin Hocc. apply elem_of_insert_inv in Hin as [->|Hin]; [lia|].
    by apply Hlive.
  - intros i j p q e1 e2 Hi Hj Hp Hq He1 He2 Hid.
    apply list_lookup_insert_Some in Hi as [(_ & ? & _)|[Hin Hi]]; [lia|].
    apply list_lookup_insert_Some in Hj as [(_ & ? & _)|[Hjn Hj]]; [lia|].
    by eapply (Hnodup i j p q e1 e2).
  - intros i p e1 Hi Hp He1.
    apply probe_reaches_insert; [|done].
    apply list_lookup_insert_Some in Hi as [(_ & ? & _)|[Hin Hi]]; [lia|].
    by eapply Hprobe.
Qed.

(** Replacing the entry of a slot by a client-owned entry with the same
    NodeId and cached hash. *)
Lemma TableInv_replace m hp (n : nat) oldEntry old pnode e :
  TableInv H m hp →
  entries m !! n = Some oldEntry → UA_NODEMAP_TOMBSTONE < oldEntry →
  hp !! oldEntry = Some old →
  UA_NODEMAP_TOMBSTONE < pnode → hp !! pnode = Some e →
  deleted e = false → nodeIdHash e = nodeIdHash old →
  nodeId (node e) = nodeId (node old) →
  TableInv H (set_entries (<[n:=pnode]> (entries m)) m) hp.
Proof.
  intros Hinv Hn Hocc Hold Hvalid He Hdel Hhash Hid.
  assert (Hnn : pnode ≠ NULL)
    by (unfold NULL, UA_NODEMAP_TOMBSTONE in *; lia).
  destruct (inv_live H m hp Hinv oldEntry) as (old' & Hold' & _ & Hhold);
    [by eapply list_elem_of_lookup_2|done|]. simplify_eq.
  destruct Hinv as [Hprime Hlen Hlive Hnodup Hprobe].
  split; cbn.
  - done.
  - by rewrite length_insert.
  - intros p Hin Hp. apply elem_of_insert_inv in Hin as [->|Hin].
    + exists e. split_and!; [done..|]. congruence.
    + by apply Hlive.
  - intros i j p q e1 e2 Hi Hj Hp Hq He1 He2 Hid12.
    apply list_lookup_insert_Some in Hi as [(-> & -> & _)|[Hin Hi]];
      apply list_lookup_insert_Some in Hj as [(-> & -> & _)|[Hjn Hj]];
      simplify_eq; try done.
    + exfalso. apply Hjn.
      eapply (Hnodup i j oldEntry q _ e2); eauto. congruence.
    + exfalso. apply Hin.
      eapply (Hnodup j i oldEntry p _ e1); eauto. congruence.
    + by eapply (Hnodup i j p q e1 e2).
  - intros i p e1 Hi Hp He1. apply probe_reaches_insert; [|done].
    apply list_lookup_insert_Some in Hi as [(-> & -> & _)|[Hin Hi]].
    + simplify_eq. rewrite Hid. by eapply Hprobe.
    + by eapply Hprobe.
Qed.

End SlotWrites.

(** ** [expand] keeps the invariant *)

Section ExpandInvariant.

Variable H : UA_NodeId → Z.

Lemma TableInv_set_count c m hp :
  TableInv H m hp → TableInv H (set_count c m) hp.
Proof. intros [? ? ? ? ?]. by split. Qed.

Lemma Inv_frame s hp' :
  Inv H s →
  (∀ p e, p ∈ entries (ns s) → UA_NODEMAP_TOMBSTONE < p →
     heap s !! p = Some e →
     ∃ e', hp' !! p = Some e' ∧ nodeId (node e') = nodeId (node e) ∧
           nodeIdHash e' = nodeIdHash e ∧ deleted e' = deleted e) →
  (∀ p e, hp' !! p = Some e → UA_NODEMAP_TOMBSTONE < p) →
  Inv H (mkStore (ns s) hp').
Proof.
  intros [Htable Hcount Hheap] Hframe Hkeys. split; cbn; [|done|done].
  by eapply TableInv_frame.
Qed.

(** Entries that stay where they are in the heap satisfy the frame
    condition. *)
Lemma frame_same (es : list Z) (hp hp' : gmap Z UA_NodeMapEntry) :
  (∀ p, p ∈ es → UA_NODEMAP_TOMBSTONE < p → hp' !! p = hp !! p) →
  ∀ p e, p ∈ es → UA_NODEMAP_TOMBSTONE < p → hp !! p = Some e →
    ∃ e', hp' !! p = Some e' ∧ nodeId (node e') = nodeId (node e) ∧
          nodeIdHash e' = nodeIdHash e ∧ deleted e' = deleted e.
Proof.
  intros Hsame p e Hin Hocc He. exists e. rewrite Hsame by done. done.
Qed.

Lemma expand_loop_inv oentries : ∀ j cnt m hp m',
  TableInv H m hp →
  (∀ p, p ∈ oentries → UA_NODEMAP_TOMBSTONE < p →
     ∃ e, hp !! p = Some e ∧ deleted e = false ∧
          nodeIdHash e = UA_NodeId_hash H (nodeId (node e))) →
  expand_loop H oentries j cnt m hp = Some m' →
  TableInv H m' hp ∧
  Z.of_nat (occupied (entries m'))
  = Z.of_nat (occupied (entries m))
    + Z.min (Z.max 0 (cnt - j)) (Z.of_nat (occupied oentries)).
Proof.
  induction oentries as [|p oentries IH]; intros j cnt m hp m' Hinv Hlive Hl;
    cbn [expand_loop] in Hl.
  { simplify_eq. split; [done|]. unfold occupied. cbn. lia. }
  rewrite occupied_cons.
  destruct (Z.ltb_spec j cnt) as [Hj|Hj]; [|simplify_eq; split; [done|lia]].
  destruct (Z.leb_spec p UA_NODEMAP_TOMBSTONE) as [Hfree|Hocc].
  { rewrite bool_decide_eq_false_2 by lia.
    eapply IH in Hl as [? ->]; [|done|].
    - split; [done|]. lia.
    - intros q Hq. apply Hlive. by right. }
  rewrite bool_decide_eq_true_2 by lia.
  destruct (Hlive p) as (e & He & Hdel & Hhash); [by left|done|].
  rewrite He in Hl. cbn [mbind option_bind] in Hl.
  destruct (findFreeSlot H m hp (nodeId (node e))) as [[i|]|] eqn:Hslot;
    [|done..].
  cbn [mbind option_bind] in Hl.
  destruct (findFreeSlot_sound H m hp _ i Hinv Hslot)
    as (Hi & (x & Hx & Hxfree) & Habsent & Hreach).
  apply IH in Hl as [Hinv' Hocc'].
  - split; [done|]. rewrite Hocc'. cbn [entries set_entries].
    rewrite (occupied_insert _ _ x p) by done.
    rewrite bool_decide_eq_false_2 by done.
    rewrite bool_decide_eq_true_2 by done. lia.
  - eapply TableInv_publish; eauto. by rewrite Z2Nat.id.
  - intros q Hq. apply Hlive. by right.
Qed.

Lemma TableInv_empty nsize nindex cnt hp :
  primes !! Z.to_nat nindex = Some nsize →
  TableInv H (mkNodeMap (replicate (Z.to_nat nsize) NULL) nsize cnt nindex) hp.
Proof.
  intros Hprime.
  assert (Hrange := primes_lookup_range _ _ Hprime).
  split; cbn.
  - done.
  - rewrite length_replicate. lia.
  - intros p Hin Hocc. apply elem_of_replicate_inv in Hin.
    unfold NULL, UA_NODEMAP_TOMBSTONE in *. lia.
  - intros i j p q e e' Hi _ Hp. apply lookup_replicate in Hi as [-> _].
    unfold NULL, UA_NODEMAP_TOMBSTONE in *. lia.
  - intros i p e Hi Hp. apply lookup_replicate in Hi as [-> _].
    unfold NULL, UA_NODEMAP_TOMBSTONE in *. lia.
Qed.

Lemma expand_Inv calloc_ok s s' status :
  Inv H s → expand H calloc_ok s = Some (s', status) → Inv H s'.
Proof.
  intros Hinv He. unfold expand in He.
  destruct (_ && _); [by simplify_eq|].
  destruct (higher_prime_index _) as [nindex|]; [|done]. cbn in He.
  destruct (primes !! Z.to_nat nindex) as [nsize|] eqn:Hprime; [|done].
  cbn in He.
  destruct (negb calloc_ok); [by simplify_eq|].
  destruct (expand_loop _ _ _ _ _ _) as [m'|] eqn:Hloop; [|done]. cbn in He.
  simplify_eq.
  destruct Hinv as [Htable Hcount Hheap].
  assert (Hfields := expand_loop_fields _ _ _ _ _ _ _ Hloop).
  destruct Hfields as (_ & Hcnt & _). cbn in Hcnt.
  rewrite take_ge in Hloop
    by (pose proof (inv_length H _ _ Htable); lia).
  apply expand_loop_inv in Hloop as [Htable' Hocc].
  - split; cbn; [done| |done].
    rewrite Hcnt, Hocc. cbn [entries]. rewrite occupied_replicate_NULL. lia.
  - by apply TableInv_empty.
  - intros p Hp Hocc. by eapply (inv_live H _ _ Htable).
Qed.

End ExpandInvariant.

(** ** The interface functions keep the invariant *)

Section OperationsInvariant.

Variable H : UA_NodeId → Z.

(** A change of the heap at one address: harmless when the entry is in no
    slot, and when its NodeId, cached hash and deleted flag stay. *)
Lemma Inv_touch s p hp' :
  Inv H s → UA_NODEMAP_TOMBSTONE < p →
  (∀ q, q ≠ p → hp' !! q = heap s !! q) →
  (p ∈ entries (ns s) → ∀ e, heap s !! p = Some e →
     ∃ e', hp' !! p = Some e' ∧ nodeId (node e') = nodeId (node e) ∧
           nodeIdHash e' = nodeIdHash e ∧ deleted e' = deleted e) →
  Inv H (mkStore (ns s) hp').
Proof.
  intros Hinv Hp Hother Hsame. apply Inv_frame; [done| |].
  - intros q e Hin Hocc He. destruct (decide (q = p)) as [->|Hne].
    + by apply Hsame.
    + exists e. by rewrite Hother.
  - intros q e He. destruct (decide (q = p)) as [->|Hne]; [done|].
    rewrite Hother in He by done. by eapply (inv_heap H s Hinv).
Qed.

Lemma newNode_Inv alloc nodeClass s :
  Inv H s → Inv H (UA_NodeMap_newNode alloc nodeClass s).1.
Proof.
  intros Hinv. unfold UA_NodeMap_newNode.
  destruct (createEntry_spec alloc nodeClass (heap s))
    as [->|(p & Hp & Hfresh & ->)]; [done|].
  destruct (p =? NULL); [done|]. cbn.
  apply (Inv_touch s p); [done..| |].
  - intros q Hq. by rewrite lookup_insert_ne.
  - intros _ e He. congruence.
Qed.

Lemma getNode_Inv nodeid s s' pnode :
  Inv H s → UA_NodeMap_getNode H nodeid s = Some (s', pnode) → Inv H s'.
Proof.
  intros Hinv Hget. unfold UA_NodeMap_getNode in Hget.
  destruct (findOccupiedSlot H (ns s) (heap s) nodeid) as [[i|]|] eqn:Hslot;
    [| |done]; cbn in Hget; [|by simplify_eq].
  destruct (findOccupiedSlot_found H _ _ _ _ Hslot)
    as (p & e & Hp & Hocc & He & _).
  rewrite Hp in Hget. cbn in Hget. rewrite He in Hget. cbn in Hget.
  simplify_eq.
  apply (Inv_touch s pnode); [done..| |].
  - intros q Hq. by rewrite lookup_insert_ne.
  - intros _ e' He'. simplify_eq. rewrite lookup_insert_eq. by eexists.
Qed.

(** Decrementing the reference count and cleaning up, as [releaseNode]
    and the unpin of [iterate] do. *)
Lemma unpin_Inv s p e r hp' :
  Inv H s → heap s !! p = Some e →
  cleanupNodeMapEntry p (<[p := set_refCount r e]> (heap s)) = Some hp' →
  Inv H (mkStore (ns s) hp').
Proof.
  intros Hinv He Hclean.
  assert (Hp := inv_heap H s Hinv p e He).
  unfold cleanupNodeMapEntry, deleteNodeMapEntry in Hclean.
  rewrite lookup_insert_eq in Hclean. cbn in Hclean.
  apply (Inv_touch s p); [done..| |].
  - intros q Hq.
    destruct (_ && _); cbn in Hclean; simplify_eq.
    + by rewrite lookup_delete_ne, lookup_insert_ne.
    + by rewrite lookup_insert_ne.
  - intros Hin e' He'. simplify_eq.
    destruct (inv_live H _ _ (inv_table H s Hinv) p Hin Hp)
      as (e' & He' & Hdel & _). simplify_eq.
    rewrite Hdel in Hclean. cbn in Hclean. simplify_eq.
    rewrite lookup_insert_eq. by eexists.
Qed.

Lemma releaseNode_Inv pnode s s' :
  Inv H s → UA_NodeMap_releaseNode pnode s = Some s' → Inv H s'.
Proof.
  intros Hinv Hrel. unfold UA_NodeMap_releaseNode in Hrel.
  destruct (pnode =? NULL); [by simplify_eq|].
  destruct (heap s !! pnode) as [e|] eqn:He; [|done]. cbn in Hrel.
  destruct (0 <? refCount e); [|done].
  destruct (cleanupNodeMapEntry _ _) as [hp'|] eqn:Hclean; [|done].
  cbn in Hrel. simplify_eq. by eapply unpin_Inv.
Qed.

Lemma getNodeCopy_Inv alloc copy_status nodeid s s' status out :
  Inv H s →
  UA_NodeMap_getNodeCopy H alloc copy_status nodeid s = Some (s', status, out) →
  Inv H s'.
Proof.
  intros Hinv Hcopy.
  apply getNodeCopy_heap in Hcopy as (Hns & [Hheap|(e & Hvalid & Hfresh & Hheap)]);
    destruct s' as [m' hp']; cbn in *; subst; [by destruct s|].
  apply (Inv_touch s out); [done..| |].
  - intros q Hq. by rewrite lookup_insert_ne.
  - intros _ e' He'. congruence.
Qed.

(** The search for a fresh identifier ends with the answer of
    [findFreeSlot] for the identifier it has written into the node. *)
Lemma assignNodeId_loop_found fuel : ∀ m hp pnode size increase startId
    identifier slot hp',
  assignNodeId_loop H fuel m hp pnode size increase startId identifier
  = Some (slot, hp') →
  ∃ e e', hp !! pnode = Some e ∧ hp' = <[pnode := e']> hp ∧
          deleted e' = deleted e ∧
          ∀ i, slot = Some i →
               findFreeSlot H m hp' (nodeId (node e')) = Some (Some i).
Proof.
  induction fuel as [|fuel IH];
    intros m hp pnode size increase startId identifier slot hp' Hl; [done|].
  cbn [assignNodeId_loop] in Hl.
  destruct (hp !! pnode) as [e|] eqn:He; [|done]. cbn in Hl.
  destruct (findFreeSlot H m _ _) as [[j|]|] eqn:Hfree; [| |done]; cbn in Hl.
  - simplify_eq. eexists e, _. split_and!; [done..|].
    intros i ?. by simplify_eq.
  - destruct (u32 _ =? startId).
    + simplify_eq. eexists e, _. split_and!; done.
    + apply IH in Hl as (e1 & e' & He1 & -> & Hdel & Hfound).
      rewrite lookup_insert_eq in He1. simplify_eq.
      exists e, e'. rewrite insert_insert_eq. split_and!; try done.
      by rewrite insert_insert_eq in Hfound.
Qed.

Lemma insertNode_Inv calloc_ok idcopy_status pnode addedNodeId s s' status out :
  Inv H s → unpublished s pnode = true →
  UA_NodeMap_insertNode H calloc_ok idcopy_status None pnode addedNodeId s
  = Some (s', status, out) →
  Inv H s'.
Proof.
  intros Hinv Hun Hins.
  apply unpublished_spec in Hun as (Hout & e0 & He0 & Hd0).
  assert (Hvalid := inv_heap H s Hinv pnode e0 He0).
  unfold UA_NodeMap_insertNode in Hins.
  destruct (if u32 (size (ns s) * 3) <=? u32 (count (ns s) * 4)
            then expand H calloc_ok s else Some (s, UA_STATUSCODE_GOOD))
    as [[s1 expanded]|] eqn:Hexp; [|done].
  assert (Inv H s1 ∧ heap s1 = heap s ∧ pnode ∉ entries (ns s1))
    as (Hinv1 & Hh1 & Hout1).
  { destruct (_ <=? _); [|by simplify_eq].
    split_and!; [by eapply expand_Inv|by eapply expand_heap|].
    intros Hin. apply Hout. eapply expand_entries; [done| |done].
    unfold NULL, UA_NODEMAP_TOMBSTONE in *. lia. }
  clear Hexp Hinv Hout.
  cbn [mbind option_bind] in Hins.
  destruct (decide (expanded ≠ UA_STATUSCODE_GOOD)); [by simplify_eq|].
  rewrite Hh1 in Hins. rewrite He0 in Hins. cbn [mbind option_bind] in Hins.
  set (search := if is_numeric_zero (nodeId (node e0)) then _ else _) in *.
  assert (Hsearch : ∀ slot hp, search = Some (slot, hp) →
            ∃ e, hp = <[pnode := e]> (heap s1) ∧ deleted e = false ∧
                 ∀ i, slot = Some i →
                   findFreeSlot H (ns s1) hp (nodeId (node e)) = Some (Some i)).
  { subst search. intros slot hp. destruct (is_numeric_zero _).
    - intros Hl. apply assignNodeId_loop_found in Hl
        as (e1 & e' & He1 & -> & Hdel & Hfound).
      simplify_eq. exists e'. rewrite Hh1. split_and!; [done|congruence|done].
    - destruct (findFreeSlot H (ns s1) (heap s) (nodeId (node e0)))
        as [slot'|] eqn:Hfree; [|done].
      cbn. intros ?. simplify_eq. exists e0.
      rewrite Hh1, insert_id by done. split_and!; [done..|].
      intros i ->. done. }
  destruct search as [[slot hp]|]; [|done].
  destruct (Hsearch slot hp eq_refl) as (e & -> & Hdel & Hfound).
  clear Hsearch.
  assert (Hinv2 : Inv H (mkStore (ns s1) (<[pnode := e]> (heap s1)))).
  { apply (Inv_touch s1 pnode); [done..| |done].
    intros q Hq. by rewrite lookup_insert_ne. }
  cbn [mbind option_bind] in Hins.
  unfold deleteNodeMapEntry in Hins. rewrite lookup_insert_eq in Hins.
  assert (Hdelete : Inv H (mkStore (ns s1)
                             (delete pnode (<[pnode := e]> (heap s1))))).
  { apply (Inv_touch s1 pnode); [done..| |done].
    intros q Hq. by rewrite lookup_delete_ne, lookup_insert_ne. }
  destruct slot as [i|]; cbn [mbind option_bind] in Hins;
    [|by simplify_eq].
  destruct (_ && _); [cbn in Hins; by simplify_eq|].
  destruct (findFreeSlot_sound H (ns s1) _ _ i (inv_table H _ Hinv2)
              (Hfound i eq_refl))
    as (Hi & (x & Hx & Hxfree) & Habsent & Hreach).
  cbn [ns heap] in *.
  rewrite Hx in Hins. cbn [mbind option_bind] in Hins.
  rewrite cmpxchg_no_race in Hins by done.
  cbn [mbind option_bind] in Hins.
  rewrite Z.eqb_refl in Hins. cbn [negb] in Hins. simplify_eq.
  rewrite insert_insert_eq.
  set (e' := set_nodeIdHash (UA_NodeId_hash H (nodeId (node e))) e).
  assert (Hinv3 : Inv H (mkStore (ns s1) (<[pnode := e']> (heap s1)))).
  { apply (Inv_touch s1 pnode); [done..| |done].
    intros q Hq. by rewrite lookup_insert_ne. }
  destruct Hinv3 as [Htable3 Hcount3 Hheap3]. cbn [ns heap] in *.
  split; cbn [ns heap].
  - apply TableInv_set_count.
    eapply (TableInv_publish H (ns s1) _ (Z.to_nat i) x pnode e');
      [done..|apply lookup_insert_eq|done|done| |by rewrite Z2Nat.id].
    intros j p ep Hj Hp Hep. eapply (Habsent j p ep); [done..|].
    rewrite lookup_insert_ne in Hep |- *; [done| |].
    + intros ->. apply Hout1. by eapply list_elem_of_lookup_2.
    + intros ->. apply Hout1. by eapply list_elem_of_lookup_2.
  - cbn [count set_count entries set_entries].
    rewrite (occupied_insert _ _ x pnode) by done.
    rewrite bool_decide_eq_false_2 by done.
    rewrite bool_decide_eq_true_2 by done.
    assert (Hlt := occupied_lt_length _ _ _ Hx Hxfree).
    assert (Hlen := inv_length H _ _ Htable3).
    assert (HP := primes_range _ (TableInv_size_prime H _ _ Htable3)).
    rewrite u32_small by lia. lia.
  - done.
Qed.

Lemma replaceNode_Inv pnode s s' status :
  Inv H s → unpublished s pnode = true →
  UA_NodeMap_replaceNode H None pnode s = Some (s', status) →
  Inv H s'.
Proof.
  intros Hinv Hun Hrep.
  apply unpublished_spec in Hun as (Hout & e0 & He0 & Hd0).
  assert (Hvalid := inv_heap H s Hinv pnode e0 He0).
  assert (Hdelete : Inv H (mkStore (ns s) (delete pnode (heap s)))).
  { apply (Inv_touch s pnode); [done..| |done].
    intros q Hq. by rewrite lookup_delete_ne. }
  destruct (replaceNode_spec H pnode e0 s He0 Hout) as [Hnone Hsome].
  destruct (findOccupiedSlot H (ns s) (heap s) (nodeId (node e0)))
    as [[i|]|] eqn:Hslot.
  - destruct (Hsome i eq_refl)
      as (oldEntry & old & Hold & Hheap & Hid & Hstale & Hfresh).
    destruct (decide (oldEntry = orig e0)) as [Heq|Hne];
      [|rewrite Hstale in Hrep by done; by simplify_eq].
    rewrite Hfresh in Hrep by done. simplify_eq. clear Hstale Hfresh.
    assert (Hocc := inv_heap H s Hinv _ _ Hheap).
    assert (Hneq : orig e0 ≠ pnode).
    { intros Heq. apply Hout. rewrite <- Heq.
      by eapply list_elem_of_lookup_2. }
    set (e' := set_nodeIdHash (nodeIdHash old) e0).
    assert (Hinv1 : Inv H (mkStore (ns s) (<[pnode := e']> (heap s)))).
    { apply (Inv_touch s pnode); [done..| |done].
      intros q Hq. by rewrite lookup_insert_ne. }
    destruct Hinv1 as [Htable1 Hcount1 Hheap1]. cbn [ns heap] in *.
    assert (Htable2 :
      TableInv H (set_entries (<[Z.to_nat i := pnode]> (entries (ns s))) (ns s))
        (<[pnode := e']> (heap s))).
    { eapply (TableInv_replace H (ns s) _ (Z.to_nat i) (orig e0) old pnode e');
        [done..|by rewrite lookup_insert_ne|done|apply lookup_insert_eq
        |done|done|done]. }
    split; cbn [ns heap].
    + eapply TableInv_frame; [exact Htable2|].
      cbn [entries set_entries]. apply frame_same. intros p Hin Hp.
      assert (p ≠ orig e0) as Hpo.
      { intros ->. apply list_elem_of_lookup in Hin as [j Hj].
        apply list_lookup_insert_Some in Hj as [(_ & ? & _)|[Hjn Hj]];
          [done|].
        apply Hjn. symmetry.
        by eapply (TableInv_ptr_inj H _ _ j (Z.to_nat i) _ Htable1). }
      destruct (refCount old =? 0).
      * by rewrite lookup_delete_ne.
      * by rewrite lookup_insert_ne.
    + cbn [count set_entries entries].
      rewrite (occupied_insert _ _ (orig e0) pnode) by done.
      rewrite !bool_decide_eq_true_2 by done. lia.
    + intros p e Hp. destruct (decide (p = orig e0)) as [->|Hpo]; [done|].
      eapply Hheap1.
      destruct (refCount old =? 0).
      * by rewrite lookup_delete_ne in Hp.
      * by rewrite lookup_insert_ne in Hp.
  - rewrite Hnone in Hrep by done. by simplify_eq.
  - unfold UA_NodeMap_replaceNode in Hrep. rewrite He0 in Hrep.
    cbn in Hrep. by rewrite Hslot in Hrep.
Qed.

(** The store between the tombstone of [clearSlot] and its resize. *)
Lemma clearSlot_tombstone_Inv s (i : nat) p hp :
  Inv H s →
  entries (ns s) !! i = Some p → UA_NODEMAP_TOMBSTONE < p →
  (∀ q, q ≠ p → hp !! q = heap s !! q) →
  Inv H (mkStore
           (set_count (u32 (count (ns s) - 1))
              (set_entries (<[i := UA_NODEMAP_TOMBSTONE]> (entries (ns s)))
                 (ns s)))
           hp).
Proof.
  intros [Htable Hcount Hheap] Hp Hocc Hsame.
  split; cbn [ns heap].
  - apply TableInv_set_count.
    eapply TableInv_frame; [by apply TableInv_tombstone|].
    cbn [entries set_entries]. apply frame_same. intros q Hin Hq.
    apply Hsame. intros ->. apply list_elem_of_lookup in Hin as [j Hj].
    apply list_lookup_insert_Some in Hj as [(_ & ? & _)|[Hjn Hj]]; [lia|].
    apply Hjn. symmetry.
    by eapply (TableInv_ptr_inj H _ _ j i _ Htable).
  - cbn [count set_count entries set_entries].
    rewrite (occupied_insert _ _ p UA_NODEMAP_TOMBSTONE) by done.
    rewrite bool_decide_eq_true_2 by done.
    rewrite bool_decide_eq_false_2 by lia.
    assert (Hpos := occupied_pos _ _ _ Hp Hocc).
    assert (Hle := occupied_le_length (entries (ns s))).
    assert (Hlen := inv_length H _ _ Htable).
    assert (HP := primes_range _ (TableInv_size_prime H _ _ Htable)).
    rewrite u32_small by lia. lia.
  - intros q e Hq. destruct (decide (q = p)) as [->|Hqp]; [done|].
    eapply Hheap. by rewrite Hsame in Hq.
Qed.

Lemma removeNode_Inv calloc_ok nodeid s s' status :
  Inv H s →
  UA_NodeMap_removeNode H None calloc_ok nodeid s = Some (s', status) →
  Inv H s'.
Proof.
  intros Hinv Hrem. unfold UA_NodeMap_removeNode in Hrem.
  destruct (findOccupiedSlot H (ns s) (heap s) nodeid) as [[i|]|] eqn:Hslot;
    [| |done]; cbn in Hrem; [|by simplify_eq].
  destruct (findOccupiedSlot_found H _ _ _ _ Hslot)
    as (p & ep & Hp & Hocc & Hep & _).
  unfold clearSlot in Hrem. rewrite Hp in Hrem.
  cbn [mbind option_bind] in Hrem.
  rewrite cmpxchg_no_race in Hrem by done.
  cbn [mbind option_bind] in Hrem.
  rewrite Z.eqb_refl in Hrem. cbn [negb] in Hrem.
  rewrite Hep in Hrem. cbn [mbind option_bind] in Hrem.
  rewrite cleanup_after_delete in Hrem. cbn [mbind option_bind] in Hrem.
  set (hp := if refCount ep =? 0 then _ else _) in *.
  set (m := set_count _ _) in *.
  assert (Hmid : Inv H (mkStore m hp)).
  { subst m. apply (clearSlot_tombstone_Inv s (Z.to_nat i) p); [done..|].
    intros q Hqp. subst hp. destruct (refCount ep =? 0).
    - by rewrite lookup_delete_ne.
    - by rewrite lookup_insert_ne. }
  destruct (_ && _); [|by simplify_eq].
  destruct (expand H calloc_ok _) as [[s1 st1]|] eqn:Hexp; [|done].
  cbn in Hrem. simplify_eq. by eapply expand_Inv.
Qed.

Lemma apply_base_Inv o s s' :
  Inv H s → apply_base H o s = Some s' → Inv H s'.
Proof.
  intros Hinv Ho.
  destruct o as [alloc cls|pnode n|pnode|nodeid|pnode|alloc st nodeid
                |ok st pnode added|pnode|ok nodeid|ok]; cbn in Ho.
  - simplify_eq. by apply newNode_Inv.
  - destruct (unpublished s pnode) eqn:Hun; [|done].
    apply unpublished_spec in Hun as (Hout & e0 & He0 & Hd0).
    rewrite He0 in Ho. cbn in Ho. simplify_eq.
    apply (Inv_touch s pnode); [done|by eapply (inv_heap H s)| |done].
    intros q Hq. by rewrite lookup_insert_ne.
  - destruct (unpublished s pnode) eqn:Hun; [|done].
    apply unpublished_spec in Hun as (Hout & e0 & He0 & Hd0).
    unfold UA_NodeMap_deleteNode, deleteNodeMapEntry in Ho.
    rewrite He0 in Ho. cbn in Ho. simplify_eq.
    apply (Inv_touch s pnode); [done|by eapply (inv_heap H s)| |done].
    intros q Hq. by rewrite lookup_delete_ne.
  - destruct (UA_NodeMap_getNode H nodeid s) as [[s0 p]|] eqn:Hget; [|done].
    cbn in Ho. simplify_eq. by eapply getNode_Inv.
  - by eapply releaseNode_Inv.
  - destruct (UA_NodeMap_getNodeCopy H alloc st nodeid s)
      as [[[s0 st0] out]|] eqn:Hcopy; [|done].
    cbn in Ho. simplify_eq. by eapply getNodeCopy_Inv.
  - destruct (unpublished s pnode) eqn:Hun; [|done].
    destruct (UA_NodeMap_insertNode H ok st None pnode added s)
      as [[[s0 st0] out]|] eqn:Hins; [|done].
    cbn in Ho. simplify_eq. by eapply insertNode_Inv.
  - destruct (unpublished s pnode) eqn:Hun; [|done].
    destruct (UA_NodeMap_replaceNode H None pnode s) as [[s0 st0]|] eqn:Hrep;
      [|done].
    cbn in Ho. simplify_eq. by eapply replaceNode_Inv.
  - destruct (UA_NodeMap_removeNode H None ok nodeid s) as [[s0 st0]|] eqn:Hrem;
      [|done].
    cbn in Ho. simplify_eq. by eapply removeNode_Inv.
  - destruct (expand H ok s) as [[s0 st0]|] eqn:Hexp; [|done].
    cbn in Ho. simplify_eq. by eapply expand_Inv.
Qed.

Lemma run_base_Inv l : ∀ s s',
  Inv H s → run_base H l s = Some s' → Inv H s'.
Proof.
  induction l as [|o l IH]; intros s s' Hinv Hrun; cbn in Hrun;
    [by simplify_eq|].
  destruct (apply_base H o s) as [s1|] eqn:Ho; [|done]. cbn in Hrun.
  eapply IH; [|done]. by eapply apply_base_Inv.
Qed.

Lemma iterate_loop_Inv fuel visitor : ∀ i s s',
  Inv H s →
  UA_NodeMap_iterate_loop fuel (λ p s0, run_base H (visitor p s0) s0) i s
  = Some s' →
  Inv H s'.
Proof.
  induction fuel as [|fuel IH]; intros i s s' Hinv Hit; [done|].
  cbn [UA_NodeMap_iterate_loop] in Hit.
  destruct (i <? size (ns s)); [|by simplify_eq].
  destruct (entries (ns s) !! Z.to_nat i) as [entry|] eqn:Hentry; [|done].
  cbn [mbind option_bind] in Hit.
  destruct (UA_NODEMAP_TOMBSTONE <? entry); [|by eapply IH].
  destruct (iterate_visit _ entry s) as [s1|] eqn:Hvisit; [|done].
  cbn [mbind option_bind] in Hit.
  eapply IH; [|done].
  unfold iterate_visit in Hvisit.
  destruct (heap s !! entry) as [e0|] eqn:He0; [|done].
  cbn [mbind option_bind] in Hvisit.
  destruct (run_base H _ _) as [s2|] eqn:Hrun; [|done].
  cbn [mbind option_bind] in Hvisit.
  apply run_base_Inv in Hrun.
  2:{ apply (Inv_touch s entry); [done|by eapply (inv_heap H s)| |].
      - intros q Hq. by rewrite lookup_insert_ne.
      - intros _ e' He'. simplify_eq. rewrite lookup_insert_eq. by eexists. }
  destruct (heap s2 !! entry) as [e2|] eqn:He2; [|done].
  cbn [mbind option_bind] in Hvisit.
  destruct (cleanupNodeMapEntry _ _) as [hp'|] eqn:Hclean; [|done].
  cbn in Hvisit. simplify_eq. by eapply unpin_Inv.
Qed.

Lemma apply_op_Inv o s s' :
  Inv H s → apply_op H o s = Some s' → Inv H s'.
Proof.
  intros Hinv Ho. destruct o as [b|fuel visitor]; cbn in Ho.
  - by eapply apply_base_Inv.
  - by eapply iterate_loop_Inv.
Qed.

Lemma run_Inv l : ∀ s s', Inv H s → run H l s = Some s' → Inv H s'.
Proof.
  induction l as [|o l IH]; intros s s' Hinv Hrun; cbn in Hrun;
    [by simplify_eq|].
  destruct (apply_op H o s) as [s1|] eqn:Ho; [|done]. cbn in Hrun.
  eapply IH; [|done]. by eapply apply_op_Inv.
Qed.

Lemma new_store_Inv : Inv H new_store.
Proof.
  change new_store
    with (mkStore (mkNodeMap (replicate (Z.to_nat 127) NULL) 127 0 4) ∅).
  split.
  - apply TableInv_empty. reflexivity.
  - cbn [ns entries count]. by rewrite occupied_replicate_NULL.
  - intros p e Hp. cbn [heap] in Hp. by rewrite lookup_empty in Hp.
Qed.

End OperationsInvariant.

(** ** Whole runs *)

Lemma NoDup_omap {A B} (f : A → option B) (l : list A) :
  (∀ (i j : nat) x y z, l !! i = Some x → l !! j = Some y →
                        f x = Some z → f y = Some z → i = j) →
  NoDup (omap f l).
Proof.
  induction l as [|a l IH]; intros Hinj; [constructor|].
  change (omap f (a :: l))
    with (match f a with Some y => y :: omap f l | None => omap f l end).
  assert (Htail : NoDup (omap f l)).
  { apply IH. intros i j x y z Hi Hj Hx Hy.
    assert (S i = S j); [|lia]. by eapply (Hinj (S i) (S j) x y z). }
  destruct (f a) as [z|] eqn:Ha; [|done].
  constructor; [|done].
  intros Hin. apply list_elem_of_omap in Hin as (y & Hy & Hfy).
  apply list_elem_of_lookup in Hy as [j Hj].
  assert (0%nat = S j); [|lia]. by eapply (Hinj 0%nat (S j) a y z).
Qed.

Lemma present_ids_length s :
  (∀ p, p ∈ entries (ns s) → UA_NODEMAP_TOMBSTONE < p →
        is_Some (heap s !! p)) →
  length (present_ids s) = occupied (entries (ns s)).
Proof.
  unfold present_ids. generalize (entries (ns s)) as es.
  induction es as [|p es IH]; intros Hlive; [done|].
  rewrite occupied_cons.
  match goal with
  | |- context [omap ?f (p :: es)] =>
      change (omap f (p :: es))
        with (match f p with Some y => y :: omap f es | None => omap f es end)
  end.
  cbv beta.
  assert (IH' := IH (λ q Hq, Hlive q (list_elem_of_further _ _ _ Hq))).
  destruct (decide (UA_NODEMAP_TOMBSTONE < p)) as [Hocc|Hfree].
  - destruct (Hlive p) as [e He]; [by left|done|].
    rewrite He. rewrite bool_decide_eq_true_2 by done.
    cbn [fmap option_fmap option_map length]. by rewrite IH'.
  - rewrite bool_decide_eq_false_2 by done. by rewrite IH'.
Qed.

Lemma expand_small_never_shrinks H calloc_ok s s' status :
  expand H calloc_ok s = Some (s', status) →
  size (ns s) <= UA_NODEMAP_MINSIZE → size (ns s) <= size (ns s').
Proof.
  unfold expand. intros He Hsmall.
  destruct (_ && _) eqn:Hcond; [by simplify_eq|].
  assert (Hfull : size (ns s) <= u32 (count (ns s) * 2)).
  { apply andb_false_iff in Hcond as [Hc|Hc].
    - by apply Z.ltb_ge in Hc.
    - apply orb_false_iff in Hc as [_ Hc]. apply Z.leb_gt in Hc. lia. }
  destruct (higher_prime_index_total (u32 (count (ns s) * 2)))
    as (i & Hi & Hr & _ & Hhigh & _).
  rewrite Hi in He. cbn in He.
  destruct (primes !! Z.to_nat i) as [nsize|] eqn:Hprime; [|done].
  cbn in He.
  assert (u32 (count (ns s) * 2) <= nsize) by (eapply (Hhigh i); [lia|done]).
  destruct (negb calloc_ok); [simplify_eq; lia|].
  destruct (expand_loop _ _ _ _ _ _) as [m'|] eqn:Hloop; [|done]. cbn in He.
  simplify_eq. cbn [ns].
  apply expand_loop_fields in Hloop as (-> & _). cbn [size]. lia.
Qed.

Section Runs.

Variable H : UA_NodeId → Z.

(** C2: after every run of interface calls on a new store (insert,
    replace, remove, iterate with a visitor that calls the interface, get,
    release, get-copy, the resizes they trigger, and the client's writes
    to its own nodes) [count] is the number of occupied slots, that is, of
    the cells that hold a pointer above the tombstone sentinel; it is also
    the number of NodeIds in the table, and no NodeId is in two slots. *)
Theorem count_is_number_of_nodes (l : list Op) (s : Store) :
  run H l new_store = Some s →
  count (ns s) = Z.of_nat (occupied (entries (ns s))) ∧
  count (ns s) = Z.of_nat (length (present_ids s)) ∧
  NoDup (present_ids s) ∧
  (∀ (i j : nat) p q e e',
     entries (ns s) !! i = Some p → entries (ns s) !! j = Some q →
     UA_NODEMAP_TOMBSTONE < p → UA_NODEMAP_TOMBSTONE < q →
     heap s !! p = Some e → heap s !! q = Some e' →
     nodeId (node e) = nodeId (node e') → i = j).
Proof.
  intros Hrun.
  assert (Hinv : Inv H s) by (eapply run_Inv; [apply new_store_Inv|done]).
  destruct Hinv as [Htable Hcount Hheap].
  split_and!.
  - done.
  - rewrite present_ids_length; [done|].
    intros p Hin Hocc.
    destruct (inv_live H _ _ Htable p Hin Hocc) as (e & -> & _). by eexists.
  - apply NoDup_omap. intros i j p q z Hi Hj Hp Hq.
    destruct (decide (UA_NODEMAP_TOMBSTONE < p)); [|done].
    destruct (decide (UA_NODEMAP_TOMBSTONE < q)); [|done].
    destruct (heap s !! p) as [e|] eqn:He; [|done].
    destruct (heap s !! q) as [e'|] eqn:He'; [|done].
    cbn in Hp, Hq. simplify_eq.
    by eapply (inv_nodup H _ _ Htable i j p q e e').
  - apply (inv_nodup H _ _ Htable).
Qed.

(** C8 (as the code has it): the new store has the capacity 127, the
    smallest prime of the ladder that is not below 64.  In every store
    reached by a run of interface calls the capacity is a prime of the
    ladder, and so at least 7, and the array has that many cells.  A
    resize never shrinks a table whose capacity is at most 64; the shrink
    after a remove of a larger table picks its size by [count * 2] alone
    and may leave fewer than 64 slots. *)
Theorem capacity_is_ladder_prime (l : list Op) (s : Store) :
  run H l new_store = Some s →
  UA_Nodestore_HashMap true true = Some (UA_STATUSCODE_GOOD, Some new_store) ∧
  size (ns new_store) = 127 ∧
  (∀ p, p ∈ primes → UA_NODEMAP_MINSIZE <= p → size (ns new_store) <= p) ∧
  size (ns s) ∈ primes ∧ 7 <= size (ns s) ∧
  Z.of_nat (length (entries (ns s))) = size (ns s) ∧
  (∀ calloc_ok s' status,
     expand H calloc_ok s = Some (s', status) →
     size (ns s) <= UA_NODEMAP_MINSIZE → size (ns s) <= size (ns s')).
Proof.
  intros Hrun.
  assert (Hinv : Inv H s) by (eapply run_Inv; [apply new_store_Inv|done]).
  destruct Hinv as [Htable _ _].
  assert (HP := TableInv_size_prime H _ _ Htable).
  split_and!.
  - reflexivity.
  - reflexivity.
  - apply (proj1 (Forall_forall
               (λ p, UA_NODEMAP_MINSIZE <= p → size (ns new_store) <= p) primes)).
    unfold primes, UA_NODEMAP_MINSIZE. cbn [ns size new_store].
    repeat (apply Forall_cons; split; [lia|]). apply Forall_nil_2.
  - done.
  - pose proof (primes_range _ HP). lia.
  - by apply (inv_length H _ _ Htable).
  - intros ok s' status. apply expand_small_never_shrinks.
Qed.

(** X26: a copy [pnode] handed out by [getNodeCopy] for the NodeId
    [nodeid] is a new client-owned entry with [orig] set to the address
    of the entry that the slot of [nodeid] held at that moment.  Whenever
    [replaceNode] is later called with it (the copy still allocated and
    in no slot, its [orig] as it was set, its node possibly rewritten by
    the client), the outcome is decided by the address that the slot of
    its NodeId holds at the call.
    - No entry with that NodeId: [BADNODEIDUNKNOWN].
    - The slot holds another address than [orig]: [BADINTERNALERROR].
    In both cases the copy is freed and nothing else changes: the map
    structure with its array and count, and every other entry, are as
    before the call.
    - The slot holds the address [orig]: the slot now holds the copy, the
      copy carries the cached hash of the entry at that address, and
      that entry is marked deleted (and freed at once when nobody holds a
      reference to it); count is unchanged.
    The comparison is one of addresses only. *)
Theorem replaceNode_checks_orig alloc copy_status nodeid s0 s1 status pnode :
  UA_NodeMap_getNodeCopy H alloc copy_status nodeid s0
  = Some (s1, status, pnode) →
  pnode ≠ NULL →
  ∃ i entry e,
    findOccupiedSlot H (ns s0) (heap s0) nodeid = Some (Some i) ∧
    entries (ns s0) !! Z.to_nat i = Some entry ∧
    heap s0 !! entry = Some e ∧
    heap s1 !! pnode = Some (mkEntry 0 entry 0 false (node e)) ∧
    ∀ s newEntry,
      heap s !! pnode = Some newEntry → orig newEntry = entry →
      pnode ∉ entries (ns s) →
      (findOccupiedSlot H (ns s) (heap s) (nodeId (node newEntry)) = Some None →
       UA_NodeMap_replaceNode H None pnode s
       = Some (mkStore (ns s) (delete pnode (heap s)),
               UA_STATUSCODE_BADNODEIDUNKNOWN)) ∧
      (∀ j, findOccupiedSlot H (ns s) (heap s) (nodeId (node newEntry))
            = Some (Some j) →
         ∃ oldEntry old,
           entries (ns s) !! Z.to_nat j = Some oldEntry ∧
           heap s !! oldEntry = Some old ∧
           nodeId (node old) = nodeId (node newEntry) ∧
           (oldEntry ≠ entry →
            UA_NodeMap_replaceNode H None pnode s
            = Some (mkStore (ns s) (delete pnode (heap s)),
                    UA_STATUSCODE_BADINTERNALERROR)) ∧
           (oldEntry = entry →
            UA_NodeMap_replaceNode H None pnode s
            = Some (mkStore
                      (set_entries (<[Z.to_nat j := pnode]> (entries (ns s)))
                         (ns s))
                      (let hp :=
                         <[pnode := set_nodeIdHash (nodeIdHash old) newEntry]>
                           (heap s) in
                       if refCount old =? 0 then delete oldEntry hp
                       else <[oldEntry := set_deleted true old]> hp),
                    UA_STATUSCODE_GOOD))).
Proof.
  intros Hcopy Hnn. unfold UA_NodeMap_getNodeCopy in Hcopy.
  destruct (findOccupiedSlot H (ns s0) (heap s0) nodeid) as [[i|]|] eqn:Hslot;
    [| |done]; cbn in Hcopy; [|by simplify_eq].
  destruct (entries (ns s0) !! Z.to_nat i) as [entry|] eqn:Hentry; [|done].
  cbn in Hcopy. destruct (heap s0 !! entry) as [e|] eqn:He; [|done].
  cbn in Hcopy.
  destruct (createEntry_spec alloc (nodeClass (node e)) (heap s0))
    as [Hnull|(p & Hp & Hfresh & Hcreate)].
  { rewrite Hnull in Hcopy. cbn in Hcopy. by simplify_eq. }
  rewrite Hcreate in Hcopy.
  assert ((p =? NULL) = false) as Hpn
    by (apply Z.eqb_neq; unfold NULL, UA_NODEMAP_TOMBSTONE in *; lia).
  rewrite Hpn in Hcopy.
  unfold deleteNodeMapEntry in Hcopy. rewrite lookup_insert_eq in Hcopy.
  destruct (decide (copy_status = UA_STATUSCODE_GOOD)); cbn in Hcopy;
    [|by simplify_eq].
  simplify_eq. exists i, entry, e. split_and!; [done..| |].
  { cbn. rewrite insert_insert_eq. apply lookup_insert_eq. }
  intros s newEntry Hnew Horig Hout.
  destruct (replaceNode_spec H pnode newEntry s Hnew Hout) as [Hnone Hsome].
  split; [done|].
  intros j Hj.
  destruct (Hsome j Hj) as (oldEntry & old & Hold & Hheap & Hid & Hstale & Hcur).
  exists oldEntry, old. rewrite Horig in Hstale, Hcur. by split_and!.
Qed.

End Runs.

(** ** The store at work: concrete runs *)

(** In the store of 127 slots with 96 nodes, an [insertNode] whose
    [expand] cannot allocate returns [BADINTERNALERROR], not
    [BADOUTOFMEMORY]. *)
Lemma insertNode_failed_expand_not_OutOfMemory :
  (s ← store_three_quarters;
   r ← UA_NodeMap_insertNode numeric_hash false UA_STATUSCODE_GOOD None 5000
         false s;
   Some (size (ns s), count (ns s), r.1.2,
         bool_decide (r.1.2 = UA_STATUSCODE_BADOUTOFMEMORY)))
  = Some (127, 96, UA_STATUSCODE_BADINTERNALERROR, false).
Proof. vm_compute. reflexivity. Qed.

(** In the new store, an [insertNode] of NodeId 5 whose slot is taken by
    another writer (entry 200) before the compare-and-swap returns
    [BADNODEIDEXISTS], not [BADINTERNALERROR]. *)
Lemma insertNode_lost_cas_not_internal :
  (r ← UA_NodeMap_insertNode numeric_hash true UA_STATUSCODE_GOOD (Some 200)
         100 false store_pending_state;
   Some (r.1.2, bool_decide (r.1.2 = UA_STATUSCODE_BADINTERNALERROR),
         entries (ns r.1.1) !! 5%nat, heap r.1.1 !! 100))
  = Some (UA_STATUSCODE_BADNODEIDEXISTS, false, Some 200, None).
Proof. vm_compute. reflexivity. Qed.

(** Inserting one node into the new store and removing it again leaves a
    table of 7 slots. *)
Lemma remove_shrinks_below_minsize :
  (s ← run numeric_hash
         (insert_numeric 100 5 ++ [OpBase (OpRemoveNode true (numeric_id 5))])
         new_store;
   Some (size (ns s), bool_decide (size (ns s) < UA_NODEMAP_MINSIZE)))
  = Some (7, true).
Proof. vm_compute. reflexivity. Qed.

(** C5, at the store of 509 slots that holds the 190 nodes of
    [crowded_ids]: [insertNode] of a node with the numeric identifier 0
    returns [GOOD] and the identifier it has assigned, written into the
    node and copied to the out-parameter, is 0.  The search started at
    [50000 + 509 + 1] and went through 177 identifiers that are all
    taken. *)
Lemma insertNode_assigns_identifier_zero :
  (s ← store_crowded;
   r ← UA_NodeMap_insertNode numeric_hash true UA_STATUSCODE_GOOD None 5000
         true s;
   Some (size (ns s), count (ns s), r.1.2, r.2,
         (λ e, nodeId (node e)) <$> heap r.1.1 !! 5000))
  = Some (509, 190, UA_STATUSCODE_GOOD, Some (numeric_id 0),
          Some (numeric_id 0)).
Proof. vm_compute. reflexivity. Qed.

(** C3, on a stale copy.  Node 5 is in the table (entry 100) and a copy
    of it is taken (entry 200, [orig] = 100).  Then the node is replaced
    twice, each time through a copy of its own: by entry 201, which frees
    entry 100, and by a copy for which the allocator hands out the freed
    address 100 again, which frees entry 201.  Both calls return [GOOD].
    The slot now holds the address 100 once more, with the attributes of
    the second replacement.  [replaceNode] with the first copy, taken
    before both replacements, finds the address of its [orig] in the slot
    and returns [GOOD], not [BADINTERNALERROR]: the slot holds the stale
    copy and both replacements are lost. *)
Lemma replaceNode_accepts_stale_copy :
  (s ← run numeric_hash (insert_numeric 100 5) new_store;
   '(s, _, a) ← UA_NodeMap_getNodeCopy numeric_hash (Some 200)
                  UA_STATUSCODE_GOOD (numeric_id 5) s;
   ea ← heap s !! a;
   taken_from ← entries (ns s) !! 5%nat;
   '(s, _, b) ← UA_NodeMap_getNodeCopy numeric_hash (Some 201)
                  UA_STATUSCODE_GOOD (numeric_id 5) s;
   s ← apply_base numeric_hash
         (OpSetNode b (mkNode (numeric_id 5) UA_NODECLASS_OBJECT 1)) s;
   '(s, first) ← UA_NodeMap_replaceNode numeric_hash None b s;
   '(s, _, c) ← UA_NodeMap_getNodeCopy numeric_hash (Some 100)
                  UA_STATUSCODE_GOOD (numeric_id 5) s;
   s ← apply_base numeric_hash
         (OpSetNode c (mkNode (numeric_id 5) UA_NODECLASS_OBJECT 2)) s;
   '(s, second) ← UA_NodeMap_replaceNode numeric_hash None c s;
   in_slot ← entries (ns s) !! 5%nat;
   e ← heap s !! in_slot;
   '(s', stale) ← UA_NodeMap_replaceNode numeric_hash None a s;
   in_slot' ← entries (ns s') !! 5%nat;
   e' ← heap s' !! in_slot';
   Some (a, orig ea, taken_from, first, second,
         in_slot, attributes (node e),
         stale, bool_decide (stale = UA_STATUSCODE_BADINTERNALERROR),
         in_slot', attributes (node e')))
  = Some (200, 100, 100, UA_STATUSCODE_GOOD, UA_STATUSCODE_GOOD,
          100, 2,
          UA_STATUSCODE_GOOD, false,
          200, 0).
Proof. vm_compute. reflexivity. Qed.

(** ** Instances of the theorems *)

Lemma probe_visits_every_slot_once_witness :
  probe_seq 127 127 (mod2 1000 127) (mod1 1000 127) ≡ₚ seqZ 0 127.
Proof.
  assert (Hprime : 127 ∈ primes) by compute_done.
  assert (Hhash : 0 <= 1000 < 4294967296) by lia.
  pose proof (probe_visits_every_slot_once numeric_hash 127 1000 Hprime Hhash)
    as Hw.
  cbv zeta in Hw. destruct Hw as (_ & _ & _ & _ & Hperm & _). exact Hperm.
Defined.

Lemma count_is_number_of_nodes_witness :
  count (ns demo_state) = Z.of_nat (occupied (entries (ns demo_state))) ∧
  count (ns demo_state) = Z.of_nat (length (present_ids demo_state)) ∧
  NoDup (present_ids demo_state).
Proof.
  assert (Hrun : run numeric_hash demo_run new_store = Some demo_state)
    by (vm_compute; reflexivity).
  pose proof (count_is_number_of_nodes numeric_hash _ _ Hrun)
    as (Hocc & Hcount & Hnodup & _).
  exact (conj Hocc (conj Hcount Hnodup)).
Defined.

Lemma replaceNode_checks_orig_witness :
  ∃ s', UA_NodeMap_replaceNode numeric_hash None 200 store_copy_state
        = Some (s', UA_STATUSCODE_GOOD).
Proof.
  assert (Hcopy : UA_NodeMap_getNodeCopy numeric_hash (Some 200)
                    UA_STATUSCODE_GOOD (numeric_id 5) store_one_state
                  = Some (store_copy_state, UA_STATUSCODE_GOOD, 200))
    by (vm_compute; reflexivity).
  assert (Hnn : 200 ≠ NULL) by (unfold NULL; lia).
  destruct (replaceNode_checks_orig numeric_hash _ _ _ _ _ _ _ Hcopy Hnn)
    as (i & entry & e & Hslot & Hentry & He & Hnew & Hreplace).
  vm_compute in Hslot. injection Hslot as <-.
  vm_compute in Hentry. injection Hentry as <-.
  vm_compute in He. injection He as <-.
  assert (Hout : 200 ∉ entries (ns store_copy_state)) by compute_done.
  destruct (Hreplace store_copy_state _ Hnew eq_refl Hout) as [_ Hfound].
  destruct (Hfound 5) as (oldEntry & old & Hold & _ & _ & _ & Hsame).
  { vm_compute. reflexivity. }
  eexists. apply Hsame.
  vm_compute in Hold. injection Hold as <-. reflexivity.
Defined.

Lemma deleted_entry_freed_at_zero_refcount_witness :
  UA_NodeMap_releaseNode 100 store_borrowed_state
  = Some (mkStore (ns store_borrowed_state) (delete 100 (heap store_borrowed_state))).
Proof.
  pose proof (deleted_entry_freed_at_zero_refcount numeric_hash)
    as (_ & _ & Hrelease & _).
  assert (Hnn : 100 ≠ NULL) by (unfold NULL; lia).
  assert (He : heap store_borrowed_state !! 100
               = Some (mkEntry 5 0 1 true
                         (mkNode (numeric_id 5) UA_NODECLASS_OBJECT 0)))
    by (vm_compute; reflexivity).
  assert (Hrc : 0 < refCount (mkEntry 5 0 1 true
                         (mkNode (numeric_id 5) UA_NODECLASS_OBJECT 0)))
    by (simpl; lia).
  exact (Hrelease 100 _ store_borrowed_state Hnn He Hrc).
Defined.

Lemma insertNode_lost_cas_is_NodeIdExists_witness :
  ∃ s2, UA_NodeMap_insertNode numeric_hash true UA_STATUSCODE_GOOD
          (Some UA_NODEMAP_TOMBSTONE) 100 false store_pending_state
        = Some (s2, UA_STATUSCODE_BADNODEIDEXISTS, None) ∧
        heap s2 !! 100 = None ∧
        count (ns s2) = count (ns store_pending_state).
Proof.
  assert (Hgood : UA_NodeMap_insertNode numeric_hash true UA_STATUSCODE_GOOD
                    None 100 false store_pending_state
                  = Some (store_one_state, UA_STATUSCODE_GOOD, None))
    by (vm_compute; reflexivity).
  destruct (insertNode_lost_cas_is_NodeIdExists numeric_hash _ _ _ _ _ _ _
              Hgood) as (s0 & i & x & Hpre & Hx & _ & _ & Hlost).
  vm_compute in Hpre. injection Hpre as <-.
  assert (Hv : UA_NODEMAP_TOMBSTONE ≠ x).
  { apply list_elem_of_lookup_2 in Hx.
    change (x ∈ replicate 127 NULL) in Hx.
    apply elem_of_replicate in Hx as [-> _]. discriminate. }
  destruct (Hlost UA_NODEMAP_TOMBSTONE Hv) as (hp2 & Hcall & Hfreed).
  eexists. split; [exact Hcall|]. split; [exact Hfreed|reflexivity].
Defined.

Lemma insertNode_failed_expand_is_internal_witness :
  UA_NodeMap_insertNode numeric_hash false UA_STATUSCODE_GOOD None 5000 false
    store_three_quarters_state
  = Some (store_three_quarters_state, UA_STATUSCODE_BADINTERNALERROR, None).
Proof.
  assert (Hfire : u32 (size (ns store_three_quarters_state) * 3)
                  <= u32 (count (ns store_three_quarters_state) * 4))
    by (vm_compute; discriminate).
  assert (Hexp : expand numeric_hash false store_three_quarters_state
                 = Some (store_three_quarters_state,
                         UA_STATUSCODE_BADOUTOFMEMORY))
    by (vm_compute; reflexivity).
  assert (Hst : UA_STATUSCODE_BADOUTOFMEMORY ≠ UA_STATUSCODE_GOOD)
    by discriminate.
  destruct (insertNode_failed_expand_is_internal numeric_hash
              UA_STATUSCODE_GOOD None 5000 false _ Hfire) as [Hfail _].
  exact (proj2 (proj2 (proj2 (Hfail false _ _ Hexp Hst)))).
Defined.

Lemma capacity_is_ladder_prime_witness :
  size (ns demo_state) ∈ primes ∧ 7 <= size (ns demo_state).
Proof.
  assert (Hrun : run numeric_hash demo_run new_store = Some demo_state)
    by (vm_compute; reflexivity).
  pose proof (capacity_is_ladder_prime numeric_hash _ _ Hrun)
    as (_ & _ & _ & Hprime & Hmin & _).
  exact (conj Hprime Hmin).
Defined.

Lemma getNodeCopy_leaves_store_witness :
  ns store_copy_state = ns store_one_state ∧
  ∀ p e, heap store_one_state !! p = Some e →
         heap store_copy_state !! p = Some e.
Proof.
  assert (Hcopy : UA_NodeMap_getNodeCopy numeric_hash (Some 200)
                    UA_STATUSCODE_GOOD (numeric_id 5) store_one_state
                  = Some (store_copy_state, UA_STATUSCODE_GOOD, 200))
    by (vm_compute; reflexivity).
  pose proof (getNodeCopy_leaves_store numeric_hash _ _ _ _ _ _ _ Hcopy)
    as (Hns & Hheap & _).
  exact (conj Hns Hheap).
Defined.

(** ** The calls return: no read out of bounds, no dangling pointer *)

Lemma occupied_lt_exists (es : list Z) :
  (occupied es < length es)%nat →
  ∃ (i : nat) x, es !! i = Some x ∧ ¬ UA_NODEMAP_TOMBSTONE < x.
Proof.
  induction es as [|a es IH]; intros Hlt; [cbn in Hlt; lia|].
  rewrite occupied_cons in Hlt. cbn [length] in Hlt.
  case_bool_decide as Ha.
  - destruct IH as (i & x & Hi & Hx); [lia|]. by exists (S i), x.
  - by exists 0%nat, a.
Qed.

(** A scan for a free slot that meets no entry with the NodeId and at
    least one cell that is not occupied returns a slot. *)
Lemma scanFree_finds es hp nodeid h l : ∀ candidate,
  (∀ i, i ∈ l → ∃ p, es !! Z.to_nat i = Some p ∧
     (UA_NODEMAP_TOMBSTONE < p →
      ∃ e, hp !! p = Some e ∧
           ¬ (nodeIdHash e = h ∧ nodeId (node e) = nodeid))) →
  (is_Some candidate ∨
   ∃ i x, i ∈ l ∧ es !! Z.to_nat i = Some x ∧ ¬ UA_NODEMAP_TOMBSTONE < x) →
  ∃ c, scanFree es hp nodeid h candidate l = Some (Some c).
Proof.
  induction l as [|i l IH]; intros candidate Hcells Hfree.
  { destruct Hfree as [[c ->]|(i & x & Hi & _)]; [by exists c|].
    by apply elem_of_nil in Hi. }
  destruct (Hcells i) as (p & Hp & Hocc); [left|].
  cbn [scanFree]. rewrite Hp. cbn [mbind option_bind].
  assert (Htail : ∀ j, j ∈ l → ∃ p, es !! Z.to_nat j = Some p ∧
     (UA_NODEMAP_TOMBSTONE < p →
      ∃ e, hp !! p = Some e ∧
           ¬ (nodeIdHash e = h ∧ nodeId (node e) = nodeid))).
  { intros j Hj. apply Hcells. by right. }
  destruct (Z.ltb_spec UA_NODEMAP_TOMBSTONE p) as [Hlt|Hge].
  - destruct (Hocc Hlt) as (e & -> & Hnomatch). cbn [mbind option_bind].
    assert (Hm : (nodeIdHash e =? h)
                 && UA_NodeId_equal (nodeId (node e)) nodeid = false).
    { apply andb_false_iff.
      destruct (Z.eqb_spec (nodeIdHash e) h) as [Hh|]; [right|by left].
      apply bool_decide_eq_false. intros Hid. by apply Hnomatch. }
    rewrite Hm. apply IH; [done|].
    destruct Hfree as [?|(j & x & Hj & Hx & Hxfree)]; [by left|right].
    apply elem_of_cons in Hj as [->|Hj]; [|by exists j, x].
    simplify_eq. lia.
  - cbv zeta. destruct (p =? NULL).
    + destruct candidate as [c|]; by eexists.
    + apply IH; [done|]. left. destruct candidate; by eexists.
Qed.

(** ** The search for a fresh identifier ends *)

Lemma probe_seq_app (a b : nat) size inc : ∀ c,
  probe_seq (a + b) size inc c
  = probe_seq a size inc c
    ++ probe_seq b size inc (Nat.iter a (probe_next size inc) c).
Proof.
  induction a as [|a IH]; intros c; [done|].
  rewrite Nat.iter_succ_r. cbn [Nat.add probe_seq app]. by rewrite IH.
Qed.

(** A candidate above the table size comes down by at least two per
    round; once below, it stays below. *)
Lemma probe_iter_bound size inc c (k : nat) :
  7 <= size < 4294967296 → 1 <= inc <= size - 2 → 0 <= c <= 4294967296 →
  0 <= Nat.iter k (probe_next size inc) c
    <= Z.max (size - 1) (c - 2 * Z.of_nat k).
Proof.
  intros Hsize Hinc Hc. induction k as [|k IH]; [cbn; lia|].
  change (Nat.iter (S k) (probe_next size inc) c)
    with (probe_next size inc (Nat.iter k (probe_next size inc) c)).
  set (x := Nat.iter k (probe_next size inc) c) in *.
  unfold probe_next. cbv zeta. rewrite (u64_small (x + inc)) by lia.
  destruct (Z.leb_spec size (x + inc)).
  - rewrite u64_small by lia. lia.
  - lia.
Qed.

Section Progress.

Variable H : UA_NodeId → Z.

Lemma TableInv_readable m hp h :
  TableInv H m hp → 0 <= h →
  ∀ i, i ∈ probe_cycle h (size m) →
       ∃ p, entries m !! Z.to_nat i = Some p ∧
            (UA_NODEMAP_TOMBSTONE < p → is_Some (hp !! p)).
Proof.
  intros Hinv Hh i Hi.
  assert (HP := TableInv_size_prime H _ _ Hinv).
  apply probe_cycle_range in Hi; [|done..].
  destruct (lookup_lt_is_Some_2 (entries m) (Z.to_nat i)) as [p Hp].
  { pose proof (inv_length H _ _ Hinv). lia. }
  exists p. split; [done|]. intros Hocc.
  destruct (inv_live H _ _ Hinv p) as (e & -> & _);
    [by eapply list_elem_of_lookup_2|done|by eexists].
Qed.

Lemma findOccupiedSlot_returns m hp nodeid :
  TableInv H m hp → is_Some (findOccupiedSlot H m hp nodeid).
Proof.
  intros Hinv.
  rewrite findOccupiedSlot_scan by by eapply TableInv_size_prime.
  apply scanOccupied_is_Some. apply TableInv_readable; [done|].
  apply u32_range.
Qed.

Lemma findFreeSlot_returns m hp nodeid :
  TableInv H m hp → is_Some (findFreeSlot H m hp nodeid).
Proof.
  intros Hinv.
  rewrite findFreeSlot_scan by by eapply TableInv_size_prime.
  apply scanFree_is_Some. apply TableInv_readable; [done|].
  apply u32_range.
Qed.

(** In a table that is not full, [findFreeSlot] finds a slot for every
    NodeId that is not in the table. *)
Lemma findFreeSlot_finds m hp nodeid :
  TableInv H m hp →
  (occupied (entries m) < length (entries m))%nat →
  (∀ (j : nat) p e, entries m !! j = Some p → UA_NODEMAP_TOMBSTONE < p →
                    hp !! p = Some e → nodeId (node e) ≠ nodeid) →
  ∃ i, findFreeSlot H m hp nodeid = Some (Some i).
Proof.
  intros Hinv Hroom Habsent.
  assert (HP := TableInv_size_prime H _ _ Hinv).
  assert (Hprime := primes_prime _ HP).
  assert (Hrange := primes_range _ HP).
  assert (Hlen := inv_length H _ _ Hinv).
  pose proof (u32_range (H nodeid)) as Hh.
  fold (UA_NodeId_hash H nodeid) in Hh.
  rewrite findFreeSlot_scan by done.
  apply scanFree_finds.
  - intros i Hi.
    destruct (TableInv_readable m hp _ Hinv (proj1 Hh) i Hi) as (p & Hp & Hlive).
    exists p. split; [done|]. intros Hocc.
    destruct (Hlive Hocc) as [e He]. exists e. split; [done|].
    intros [_ Hid]. by eapply (Habsent (Z.to_nat i) p e).
  - right. destruct (occupied_lt_exists _ Hroom) as (i & x & Hi & Hx).
    exists (Z.of_nat i), x. rewrite Nat2Z.id. split_and!; [|done..].
    assert (Hperm : probe_cycle (UA_NodeId_hash H nodeid) (size m)
                    ≡ₚ seqZ 0 (size m)).
    { apply probe_seq_Permutation; [done|lia| |].
      - pose proof (mod2_range (UA_NodeId_hash H nodeid) (size m)). lia.
      - apply Z.mod_pos_bound. lia. }
    rewrite Hperm. apply elem_of_seqZ.
    apply lookup_lt_Some in Hi. lia.
Qed.

(** The rehash of [expand] returns: the entries still to be moved are
    live, have pairwise different NodeIds, none of which is in the new
    table, and the new table has room for all of them. *)
Lemma expand_loop_returns oentries : ∀ j cnt m hp,
  TableInv H m hp →
  (∀ p, p ∈ oentries → UA_NODEMAP_TOMBSTONE < p →
     ∃ e, hp !! p = Some e ∧ deleted e = false ∧
          nodeIdHash e = UA_NodeId_hash H (nodeId (node e))) →
  (∀ (i k : nat) p q e e',
     oentries !! i = Some p → oentries !! k = Some q →
     UA_NODEMAP_TOMBSTONE < p → UA_NODEMAP_TOMBSTONE < q →
     hp !! p = Some e → hp !! q = Some e' →
     nodeId (node e) = nodeId (node e') → i = k) →
  (∀ (i k : nat) p q e e',
     oentries !! i = Some p → entries m !! k = Some q →
     UA_NODEMAP_TOMBSTONE < p → UA_NODEMAP_TOMBSTONE < q →
     hp !! p = Some e → hp !! q = Some e' →
     nodeId (node e') ≠ nodeId (node e)) →
  (occupied (entries m) + occupied oentries < length (entries m))%nat →
  is_Some (expand_loop H oentries j cnt m hp).
Proof.
  induction oentries as [|p oentries IH];
    intros j cnt m hp Hinv Hlive Hdistinct Hnew Hroom; cbn [expand_loop].
  { by eexists. }
  destruct (j <? cnt); [|by eexists].
  assert (Hlive' : ∀ q, q ∈ oentries → UA_NODEMAP_TOMBSTONE < q →
     ∃ e, hp !! q = Some e ∧ deleted e = false ∧
          nodeIdHash e = UA_NodeId_hash H (nodeId (node e))).
  { intros q Hq. apply Hlive. by right. }
  assert (Hdistinct' : ∀ (i k : nat) p q e e',
     oentries !! i = Some p → oentries !! k = Some q →
     UA_NODEMAP_TOMBSTONE < p → UA_NODEMAP_TOMBSTONE < q →
     hp !! p = Some e → hp !! q = Some e' →
     nodeId (node e) = nodeId (node e') → i = k).
  { intros i k p' q e e' Hi Hk Hp Hq He He' Hid.
    assert (S i = S k) by (by eapply (Hdistinct (S i) (S k) p' q e e')).
    lia. }
  rewrite occupied_cons in Hroom.
  destruct (Z.leb_spec p UA_NODEMAP_TOMBSTONE) as [Hfree|Hocc].
  { apply IH; [done..| |].
    - intros i k p' q e e' Hi. by apply (Hnew (S i) k p' q e e').
    - lia. }
  rewrite bool_decide_eq_true_2 in Hroom by lia.
  destruct (Hlive p) as (e & He & Hdel & Hhash); [by left|done|].
  rewrite He. cbn [mbind option_bind].
  destruct (findFreeSlot_finds m hp (nodeId (node e)) Hinv) as [i Hslot].
  { lia. }
  { intros k q e' Hk Hq He'. by eapply (Hnew 0%nat k p q e e'). }
  rewrite Hslot. cbn [mbind option_bind].
  destruct (findFreeSlot_sound H m hp _ i Hinv Hslot)
    as (Hi & (x & Hx & Hxfree) & Habsent & Hreach).
  apply IH; [|done..| |].
  - eapply TableInv_publish; eauto. by rewrite Z2Nat.id.
  - cbn [entries set_entries]. intros i' k p' q e1 e2 Hi' Hk Hp' Hq He1 He2.
    destruct (decide (k = Z.to_nat i)) as [->|Hne].
    + rewrite list_lookup_insert_eq in Hk by by eapply lookup_lt_Some.
      assert (q = p) as -> by congruence.
      assert (e2 = e) as -> by congruence. intros Hid.
      assert (0%nat = S i') by (by eapply (Hdistinct 0%nat (S i') p p' e e1)).
      lia.
    + rewrite list_lookup_insert_ne in Hk by done.
      by eapply (Hnew (S i') k p' q e1 e2).
  - cbn [entries set_entries]. rewrite length_insert.
    pose proof (occupied_insert _ _ x p Hx) as Hins.
    rewrite bool_decide_eq_false_2 in Hins by done.
    rewrite bool_decide_eq_true_2 in Hins by done. lia.
Qed.

(** [expand] returns in every state of the invariant with at most
    2147483645 nodes: [count * 2] does not wrap and the ladder has a prime
    for it. *)
Lemma expand_returns calloc_ok s :
  Inv H s → count (ns s) <= 2147483645 → is_Some (expand H calloc_ok s).
Proof.
  intros [Htable Hcount Hheap] Hbound. unfold expand.
  destruct (_ && _); [by eexists|].
  assert (Hc : 0 <= count (ns s)) by lia.
  rewrite (u32_small (count (ns s) * 2)) by lia.
  destruct (higher_prime_index_total (count (ns s) * 2))
    as (nindex & -> & Hidx & _ & Hge & Hlt).
  cbn [mbind option_bind].
  destruct (lookup_lt_is_Some_2 primes (Z.to_nat nindex)) as [nsize Hprime].
  { change (length primes) with 30%nat. lia. }
  rewrite Hprime. cbn [mbind option_bind].
  assert (count (ns s) * 2 <= nsize) by (eapply Hge; [|done]; lia).
  destruct (negb calloc_ok); [by eexists|].
  rewrite take_ge by (pose proof (inv_length H _ _ Htable); lia).
  destruct (expand_loop_returns (entries (ns s)) 0 (count (ns s))
              (mkNodeMap (replicate (Z.to_nat nsize) NULL) nsize
                 (count (ns s)) nindex) (heap s)) as [m' ->];
    [| | | | |by eexists].
  - by apply TableInv_empty.
  - intros p Hp Hocc. by eapply (inv_live H _ _ Htable).
  - apply (inv_nodup H _ _ Htable).
  - cbn [entries]. intros i k p q e e' _ Hk _ Hq.
    apply lookup_replicate in Hk as [-> _].
    unfold NULL, UA_NODEMAP_TOMBSTONE in *. lia.
  - cbn [entries]. rewrite occupied_replicate_NULL, length_replicate.
    assert (Hrange := primes_lookup_range _ _ Hprime). lia.
Qed.

(** A search that runs out of rounds has met every candidate in the
    table. *)
Lemma assignNodeId_loop_exhausted m hp0 pnode nsi size inc startId fuel :
  ∀ hp c,
  TableInv H m hp0 → pnode ∉ entries m →
  (occupied (entries m) < length (entries m))%nat →
  (∀ q, q ≠ pnode → hp !! q = hp0 !! q) →
  (∃ e, hp !! pnode = Some e ∧ namespaceIndex (nodeId (node e)) = nsi) →
  assignNodeId_loop H fuel m hp pnode size inc startId c = None →
  Forall (λ x, mkNodeId nsi (UA_NODEIDTYPE_NUMERIC x)
               ∈ present_ids (mkStore m hp0))
         (probe_seq fuel size inc c).
Proof.
  induction fuel as [|fuel IH];
    intros hp c Hinv Hout Hroom Hsame (e & He & Hns) Hl; [constructor|].
  cbn [assignNodeId_loop] in Hl. rewrite He in Hl.
  cbn [mbind option_bind] in Hl. cbv zeta in Hl.
  set (e' := set_node (set_numeric (u32 c) (node e)) e) in *.
  set (hp' := <[pnode := e']> hp) in *.
  assert (Hid : nodeId (set_numeric (u32 c) (node e))
                = mkNodeId nsi (UA_NODEIDTYPE_NUMERIC (u32 c))).
  { cbn. by rewrite Hns. }
  rewrite Hid in Hl.
  assert (Hsame' : ∀ q, q ≠ pnode → hp' !! q = hp0 !! q).
  { intros q Hq. subst hp'. rewrite lookup_insert_ne by done. by apply Hsame. }
  assert (Hinv' : TableInv H m hp').
  { eapply TableInv_frame; [exact Hinv|]. apply frame_same.
    intros p Hp _. apply Hsame'. by intros ->. }
  destruct (findFreeSlot H m hp' _) as [[i|]|] eqn:Hslot.
  - done.
  - cbn [mbind option_bind] in Hl.
    destruct (u32 _ =? startId); [done|].
    cbn [probe_seq]. constructor.
    + destruct (decide (mkNodeId nsi (UA_NODEIDTYPE_NUMERIC (u32 c))
                        ∈ present_ids (mkStore m hp0))) as [|Hnot]; [done|].
      destruct (findFreeSlot_finds m hp'
                  (mkNodeId nsi (UA_NODEIDTYPE_NUMERIC (u32 c))) Hinv' Hroom)
        as [i Hi]; [|congruence].
      intros j p e1 Hj Hocc He1 Habs. apply Hnot.
      unfold present_ids. cbn [ns heap entries].
      apply list_elem_of_omap. exists p. split.
      { by eapply list_elem_of_lookup_2. }
      rewrite decide_True by done.
      rewrite <- Hsame'.
      * by rewrite He1, <- Habs.
      * intros ->. apply Hout. by eapply list_elem_of_lookup_2.
    + eapply (IH hp'); [done..| |done].
      exists e'. split; [subst hp'; by rewrite lookup_insert_eq|].
      subst e'. cbn. done.
  - destruct (findFreeSlot_returns m hp'
                (mkNodeId nsi (UA_NODEIDTYPE_NUMERIC (u32 c))) Hinv');
      congruence.
Qed.

(** The search of [insertNode] for a fresh identifier returns, with a
    slot or without, before its rounds are used up: in a table with a
    free cell and at most 2147483647 slots. *)
Lemma assignNodeId_loop_returns m hp pnode e increase :
  TableInv H m hp → pnode ∉ entries m → hp !! pnode = Some e →
  (occupied (entries m) < length (entries m))%nat →
  size m <= 2147483647 → 1 <= increase <= size m - 2 →
  let identifier := mod1 (u32 (50000 + size m + 1)) UA_UINT32_MAX in
  is_Some (assignNodeId_loop H (Z.to_nat (50001 + 2 * size m)) m hp pnode
             (size m) increase (u32 identifier) identifier).
Proof.
  intros Hinv Hout He Hroom Hbound Hinc identifier.
  assert (HP := TableInv_size_prime H _ _ Hinv).
  assert (Hprime := primes_prime _ HP).
  assert (Hrange := primes_range _ HP).
  assert (Hlen := inv_length H _ _ Hinv).
  assert (Hc0 : identifier = 50001 + size m).
  { subst identifier. unfold mod1, UA_UINT32_MAX.
    rewrite u32_small by lia. rewrite Z.mod_small by lia. lia. }
  destruct (assignNodeId_loop _ _ _ _ _ _ _ _ _) eqn:Hl; [by eexists|].
  exfalso.
  eapply (assignNodeId_loop_exhausted m hp pnode
            (namespaceIndex (nodeId (node e)))) in Hl;
    [|done..|by exists e].
  replace (Z.to_nat (50001 + 2 * size m))
    with (Z.to_nat 25001
          + (Z.to_nat (size m) + Z.to_nat (25000 + size m)))%nat in Hl
    by lia.
  rewrite probe_seq_app in Hl. apply Forall_app in Hl as [_ Hl].
  rewrite probe_seq_app in Hl. apply Forall_app in Hl as [Hl _].
  pose proof (probe_iter_bound (size m) increase identifier (Z.to_nat 25001))
    as Hk.
  set (x := Nat.iter (Z.to_nat 25001) (probe_next (size m) increase)
              identifier) in *.
  rewrite Z2Nat.id in Hk by lia.
  assert (Hx : 0 <= x < size m) by lia.
  assert (Hnodup : NoDup (probe_seq (Z.to_nat (size m)) (size m) increase x)).
  { apply probe_seq_NoDup; [done|lia|lia|done]. }
  set (ids := (λ x, mkNodeId (namespaceIndex (nodeId (node e)))
                      (UA_NODEIDTYPE_NUMERIC x))
              <$> probe_seq (Z.to_nat (size m)) (size m) increase x).
  assert (Hsub : ids ⊆+ present_ids (mkStore m hp)).
  { apply NoDup_submseteq.
    - apply NoDup_fmap_2; [|done]. intros a b Hab. by simplify_eq.
    - intros id Hin. apply list_elem_of_fmap in Hin as (a & -> & Ha).
      by eapply (proj1 (Forall_forall _ _) Hl). }
  apply submseteq_length in Hsub.
  subst ids. rewrite length_fmap, probe_seq_length in Hsub.
  rewrite present_ids_length in Hsub.
  - cbn [ns entries] in Hsub. lia.
  - cbn [ns heap entries]. intros p Hp Hocc.
    destruct (inv_live H _ _ Hinv p Hp Hocc) as (e1 & -> & _). by eexists.
Qed.

(** What [expand] leaves behind when it reports success: a table at
    least twice as large as the number of nodes, of at most 2147483647
    slots. *)
Lemma expand_room calloc_ok s s' :
  Inv H s → size (ns s) <= 1073741789 →
  size (ns s) * 3 <= count (ns s) * 4 →
  expand H calloc_ok s = Some (s', UA_STATUSCODE_GOOD) →
  count (ns s') * 2 <= size (ns s') ∧ size (ns s') <= 2147483647.
Proof.
  intros [Htable Hcount Hheap] Hbound Hload He. unfold expand in He.
  assert (Hle := occupied_le_length (entries (ns s))).
  assert (Hlen := inv_length H _ _ Htable).
  rewrite (u32_small (count (ns s) * 2)) in He by lia.
  destruct (_ && _) eqn:Hcond.
  { simplify_eq. apply andb_true_iff in Hcond as [Hc _].
    apply Z.ltb_lt in Hc. lia. }
  destruct (higher_prime_index_total (count (ns s) * 2))
    as (nindex & Hidx & Hr & Hlow & Hhigh & _).
  rewrite Hidx in He. cbn [mbind option_bind] in He.
  destruct (primes !! Z.to_nat nindex) as [nsize|] eqn:Hprime; [|done].
  cbn [mbind option_bind] in He.
  destruct (negb calloc_ok); [done|].
  destruct (expand_loop _ _ _ _ _ _) as [m'|] eqn:Hloop; [|done].
  cbn [mbind option_bind] in He. simplify_eq. cbn [ns].
  apply expand_loop_fields in Hloop as (-> & -> & _). cbn [size count].
  split; [eapply Hhigh; [|done]; lia|].
  destruct (Z.le_gt_cases nindex 28) as [Hsmall|Hbig].
  - apply (primes_lookup_le (Z.to_nat nindex) 28 nsize 2147483647);
      [done|reflexivity|lia].
  - assert (2147483647 < count (ns s) * 2); [|lia].
    apply (Hlow 28); [lia|reflexivity].
Qed.

Lemma deleteNodeMapEntry_returns entry hp :
  is_Some (hp !! entry) → is_Some (deleteNodeMapEntry entry hp).
Proof. intros [e He]. unfold deleteNodeMapEntry. rewrite He. by eexists. Qed.


Lemma Inv_count_le s : Inv H s → 0 <= count (ns s) <= size (ns s).
Proof.
  intros [Htable Hcount _].
  assert (Hle := occupied_le_length (entries (ns s))).
  assert (Hlen := inv_length H _ _ Htable). lia.
Qed.





Lemma removeNode_returns calloc_ok nodeid s :
  Inv H s → size (ns s) <= 1073741789 →
  is_Some (UA_NodeMap_removeNode H None calloc_ok nodeid s).
Proof.
  intros Hinv Hbound. unfold UA_NodeMap_removeNode.
  destruct (findOccupiedSlot_returns (ns s) (heap s) nodeid
              (inv_table H s Hinv)) as [[i|] Hslot];
    rewrite Hslot; cbn [mbind option_bind]; [|by eexists].
  destruct (findOccupiedSlot_found H _ _ _ _ Hslot)
    as (p & ep & Hp & Hocc & Hep & _).
  unfold clearSlot. rewrite Hp. cbn [mbind option_bind].
  rewrite cmpxchg_no_race by done. cbn [mbind option_bind].
  rewrite Z.eqb_refl. cbn [negb].
  rewrite Hep. cbn [mbind option_bind].
  rewrite cleanup_after_delete. cbn [mbind option_bind].
  set (hp := if refCount ep =? 0 then _ else _).
  set (m := set_count _ _).
  assert (Hmid : Inv H (mkStore m hp)).
  { subst m. apply (clearSlot_tombstone_Inv H s (Z.to_nat i) p); [done..|].
    intros q Hqp. subst hp. destruct (refCount ep =? 0).
    - by rewrite lookup_delete_ne.
    - by rewrite lookup_insert_ne. }
  destruct (_ && _); [|by eexists].
  destruct (expand_returns calloc_ok (mkStore m hp) Hmid) as [[s1 st] ->];
    [|by eexists].
  pose proof (Inv_count_le _ Hmid) as Hc.
  subst m. cbn [ns size count set_count set_entries] in Hc |- *. lia.
Qed.

Lemma insertNode_returns calloc_ok idcopy_status pnode addedNodeId s :
  Inv H s → size (ns s) <= 1073741789 → unpublished s pnode = true →
  is_Some (UA_NodeMap_insertNode H calloc_ok idcopy_status None pnode
             addedNodeId s).
Proof.
  intros Hinv Hbound Hun.
  apply unpublished_spec in Hun as (Hout & e0 & He0 & Hd0).
  assert (Hvalid := inv_heap H s Hinv pnode e0 He0).
  pose proof (Inv_count_le s Hinv) as Hcnt.
  assert (Hrange := primes_range _ (TableInv_size_prime H _ _
                                      (inv_table H s Hinv))).
  unfold UA_NodeMap_insertNode.
  rewrite (u32_small (size (ns s) * 3)), (u32_small (count (ns s) * 4))
    by lia.
  assert (Hpre : ∃ s1 st,
    (if size (ns s) * 3 <=? count (ns s) * 4
     then expand H calloc_ok s else Some (s, UA_STATUSCODE_GOOD))
    = Some (s1, st) ∧
    (st = UA_STATUSCODE_GOOD →
     Inv H s1 ∧ ¬ (pnode ∈ entries (ns s1)) ∧ heap s1 !! pnode = Some e0 ∧
     count (ns s1) < size (ns s1) ∧ size (ns s1) <= 2147483647)).
  { destruct (Z.leb_spec (size (ns s) * 3) (count (ns s) * 4)) as [Hload|Hload].
    - destruct (expand_returns calloc_ok s Hinv) as [[s1 st] Hexp]; [lia|].
      exists s1, st. split; [done|]. intros ->.
      destruct (expand_room calloc_ok s s1 Hinv Hbound Hload Hexp)
        as [Hroom Hsz].
      assert (Hinv1 : Inv H s1) by by eapply expand_Inv.
      pose proof (Inv_count_le s1 Hinv1).
      assert (Hrange1 := primes_range _ (TableInv_size_prime H _ _
                                           (inv_table H s1 Hinv1))).
      split_and!; [done| | |lia|done].
      + intros Hin. apply Hout. eapply expand_entries; [done| |done].
        unfold NULL, UA_NODEMAP_TOMBSTONE in *. lia.
      + by rewrite (expand_heap H _ _ _ _ Hexp).
    - exists s, UA_STATUSCODE_GOOD. split; [done|]. intros _.
      split_and!; [done..|lia|lia]. }
  destruct Hpre as (s1 & st & -> & Hpost). cbn [mbind option_bind].
  destruct (decide (st ≠ UA_STATUSCODE_GOOD)) as [|Hgood]; [by eexists|].
  destruct Hpost as (Hinv1 & Hout1 & He1 & Hroom1 & Hsz1).
  { by destruct (decide (st = UA_STATUSCODE_GOOD)). }
  rewrite He1. cbn [mbind option_bind].
  assert (Hrange1 := primes_range _ (TableInv_size_prime H _ _
                                       (inv_table H s1 Hinv1))).
  assert (Hfree : (occupied (entries (ns s1)) < length (entries (ns s1)))%nat).
  { pose proof (inv_count H s1 Hinv1).
    pose proof (inv_length H _ _ (inv_table H s1 Hinv1)). lia. }
  match goal with
  | |- is_Some (?search ≫= _) =>
      assert (Hsearch : ∃ slot hp,
        search = Some (slot, hp) ∧ is_Some (hp !! pnode) ∧
        (∀ i, slot = Some i → is_Some (entries (ns s1) !! Z.to_nat i)))
  end.
  { destruct (is_numeric_zero _).
    - cbv zeta.
      destruct (assignNodeId_loop_returns (ns s1) (heap s1) pnode e0
                  (mod2 (u32 (count (ns s1) + 1)) (size (ns s1))))
        as [[slot hp] Hl]; [by apply inv_table|done..| |].
      { apply mod2_range; [lia|apply u32_range]. }
      exists slot, hp. split; [exact Hl|]. split.
      + destruct (assignNodeId_loop_heap H _ _ _ _ _ _ _ _ _ _ Hl)
          as (e & e' & _ & -> & _).
        rewrite lookup_insert_eq. by eexists.
      + intros i ->.
        destruct (assignNodeId_loop_free H _ _ _ _ _ _ _ _ _ _ Hl)
          as (x & Hx & _).
        by eexists.
    - destruct (findFreeSlot_returns (ns s1) (heap s1) (nodeId (node e0))
                  (inv_table H s1 Hinv1)) as [slot Hslot].
      rewrite Hslot. cbn [mbind option_bind].
      exists slot, (heap s1). split; [done|]. split; [by eexists|].
      intros i ->. destruct (findFreeSlot_free H _ _ _ _ Hslot) as (x & Hx & _).
      by eexists. }
  destruct Hsearch as (slot & hp & -> & [e1 He1'] & Hcell).
  cbn [mbind option_bind].
  destruct slot as [i|].
  - rewrite He1'. cbn [mbind option_bind].
    destruct (addedNodeId && _).
    + destruct (deleteNodeMapEntry_returns pnode hp) as [hp' ->];
        by eexists.
    + cbv zeta. destruct (Hcell i eq_refl) as [x Hx].
      rewrite Hx. cbn [mbind option_bind].
      rewrite cmpxchg_no_race by done. cbn [mbind option_bind].
      rewrite Z.eqb_refl. cbn [negb]. by eexists.
  - destruct (deleteNodeMapEntry_returns pnode hp) as [hp' ->]; by eexists.
Qed.


End Progress.

(** ** Lookups find what is in the table *)

(** A scan that meets the NodeId at position [k] of its list, after cells
    that are neither empty nor a match, returns that slot. *)
Lemma scanOccupied_reaches es hp nodeid h l : ∀ (k : nat) i p e,
  l !! k = Some i →
  (∀ (j : nat) x, (j < k)%nat → l !! j = Some x →
     ∃ q, es !! Z.to_nat x = Some q ∧ q ≠ NULL ∧
          (UA_NODEMAP_TOMBSTONE < q →
           ∃ e', hp !! q = Some e' ∧
                 ¬ (nodeIdHash e' = h ∧ nodeId (node e') = nodeid))) →
  es !! Z.to_nat i = Some p → UA_NODEMAP_TOMBSTONE < p → hp !! p = Some e →
  nodeIdHash e = h → nodeId (node e) = nodeid →
  scanOccupied es hp nodeid h l = Some (Some i).
Proof.
  induction l as [|c l IH]; intros k i p e Hk Hbefore Hp Hocc He Hh Hid;
    [by rewrite lookup_nil in Hk|].
  cbn [scanOccupied].
  destruct k as [|k].
  { cbn in Hk. simplify_eq. rewrite Hp. cbn [mbind option_bind].
    apply Z.ltb_lt in Hocc as ->. rewrite He. cbn [mbind option_bind].
    rewrite Z.eqb_refl. unfold UA_NodeId_equal.
    by rewrite bool_decide_eq_true_2. }
  destruct (Hbefore 0%nat c) as (q & Hq & Hnn & Hlive); [lia|done|].
  rewrite Hq. cbn [mbind option_bind].
  assert (Htail : scanOccupied es hp nodeid h l = Some (Some i)).
  { eapply (IH k); eauto. intros j x Hj Hx. apply (Hbefore (S j)); [lia|done]. }
  destruct (Z.ltb_spec UA_NODEMAP_TOMBSTONE q) as [Hlt|Hge].
  - destruct (Hlive Hlt) as (e' & -> & Hnomatch). cbn [mbind option_bind].
    assert ((nodeIdHash e' =? h)
            && UA_NodeId_equal (nodeId (node e')) nodeid = false) as ->; [|done].
    apply andb_false_iff.
    destruct (Z.eqb_spec (nodeIdHash e') h) as [Hh'|]; [right|by left].
    apply bool_decide_eq_false. intros Hid'. by apply Hnomatch.
  - apply Z.eqb_neq in Hnn as ->. done.
Qed.

Section Lookup.

Variable H : UA_NodeId → Z.

Lemma probe_cycle_NoDup h P :
  P ∈ primes → 0 <= h → NoDup (probe_cycle h P).
Proof.
  intros HP Hh.
  assert (Hprime := primes_prime _ HP).
  assert (Hrange := primes_range _ HP).
  apply probe_seq_NoDup; [done|lia| |].
  - pose proof (mod2_range h P). lia.
  - apply Z.mod_pos_bound. lia.
Qed.

(** [findOccupiedSlot] finds every entry of the table under its NodeId. *)
Lemma findOccupiedSlot_complete m hp (n : nat) p e :
  TableInv H m hp →
  entries m !! n = Some p → UA_NODEMAP_TOMBSTONE < p → hp !! p = Some e →
  findOccupiedSlot H m hp (nodeId (node e)) = Some (Some (Z.of_nat n)).
Proof.
  intros Hinv Hn Hocc He.
  assert (HP := TableInv_size_prime H _ _ Hinv).
  pose proof (u32_range (H (nodeId (node e)))) as Hh.
  fold (UA_NodeId_hash H (nodeId (node e))) in Hh.
  rewrite findOccupiedSlot_scan by done.
  destruct (inv_probe H _ _ Hinv n p e Hn Hocc He) as (k & Hk & Hbefore).
  destruct (inv_live H _ _ Hinv p) as (e0 & He0 & _ & Hhash);
    [by eapply list_elem_of_lookup_2|done|].
  assert (e0 = e) as -> by congruence.
  eapply (scanOccupied_reaches _ _ _ _ _ k (Z.of_nat n) p e);
    [done| |by rewrite Nat2Z.id|done..].
  intros j x Hj Hx.
  destruct (TableInv_readable H m hp _ Hinv (proj1 Hh) x) as (q & Hq & Hlive).
  { by eapply list_elem_of_lookup_2. }
  exists q. split_and!; [done| |].
  - intros ->. by eapply Hbefore.
  - intros Hqocc. destruct (Hlive Hqocc) as [e' He']. exists e'.
    split; [done|]. intros [_ Hid].
    assert (Z.to_nat x = n) as Hxn.
    { by eapply (inv_nodup H _ _ Hinv (Z.to_nat x) n q p e' e). }
    assert (0 <= x).
    { eapply probe_cycle_range; [done|apply Hh|].
      by eapply list_elem_of_lookup_2. }
    assert (j = k); [|lia].
    eapply NoDup_lookup; [by apply probe_cycle_NoDup; [|apply Hh]|done|].
    rewrite Hk. f_equal. lia.
Qed.

(** A NodeId that no entry of the table carries is not found. *)
Lemma findOccupiedSlot_absent m hp nodeid :
  TableInv H m hp →
  (∀ (j : nat) p e, entries m !! j = Some p → UA_NODEMAP_TOMBSTONE < p →
                    hp !! p = Some e → nodeId (node e) ≠ nodeid) →
  findOccupiedSlot H m hp nodeid = Some None.
Proof.
  intros Hinv Habsent.
  destruct (findOccupiedSlot_returns H m hp nodeid Hinv) as [[i|] Hslot];
    [|done].
  destruct (findOccupiedSlot_found H _ _ _ _ Hslot)
    as (p & e & Hp & Hocc & He & _ & Hid).
  by destruct (Habsent (Z.to_nat i) p e).
Qed.

(** [findFreeSlot] has no slot for a NodeId that is in the table. *)
Lemma findFreeSlot_present m hp (n : nat) p e :
  TableInv H m hp →
  entries m !! n = Some p → UA_NODEMAP_TOMBSTONE < p → hp !! p = Some e →
  findFreeSlot H m hp (nodeId (node e)) = Some None.
Proof.
  intros Hinv Hn Hocc He.
  destruct (findFreeSlot_returns H m hp (nodeId (node e)) Hinv)
    as [[i|] Hslot]; [|done].
  destruct (findFreeSlot_sound H m hp _ i Hinv Hslot) as (_ & _ & Habsent & _).
  by destruct (Habsent n p e).
Qed.

End Lookup.

(** ** The NodeIds in the table, slot by slot *)

Lemma omap_cons_app {A B} (f : A → option B) (a : A) (l : list A) :
  omap f (a :: l) = option_list (f a) ++ omap f l.
Proof.
  change (omap f (a :: l))
    with (match f a with Some y => y :: omap f l | None => omap f l end).
  by destruct (f a).
Qed.

(** Writing one cell of a list changes one contribution to its [omap]. *)
Lemma omap_insert_split {A B} (f g : A → option B) (l : list A) :
  ∀ (i : nat) x y,
  l !! i = Some x →
  (∀ (j : nat) q, j ≠ i → l !! j = Some q → g q = f q) →
  ∃ l1 l2, omap f l = l1 ++ option_list (f x) ++ l2 ∧
           omap g (<[i:=y]> l) = l1 ++ option_list (g y) ++ l2.
Proof.
  induction l as [|a l IH]; intros i x y Hi Hext; [by rewrite lookup_nil in Hi|].
  destruct i as [|i]; cbn in Hi.
  - simplify_eq. exists [], (omap f l).
    change (<[0%nat:=y]> (x :: l)) with (y :: l).
    rewrite !omap_cons_app. split; [done|]. cbn [app]. f_equal.
    clear IH. induction l as [|b l IHl]; [done|].
    rewrite !omap_cons_app.
    rewrite (Hext 1%nat b) by done. f_equal. apply IHl.
    intros j q Hj Hq. destruct j as [|j]; [done|].
    apply (Hext (S (S j))); [lia|done].
  - destruct (IH i x y Hi) as (l1 & l2 & Hf & Hg).
    { intros j q Hj Hq. apply (Hext (S j)); [lia|done]. }
    exists (option_list (f a) ++ l1), l2.
    change (<[S i:=y]> (a :: l)) with (a :: <[i:=y]> l).
    rewrite !omap_cons_app, Hf, Hg, (Hext 0%nat a) by done.
    by rewrite <- !app_assoc.
Qed.

Lemma present_ids_unfold m hp :
  present_ids (mkStore m hp)
  = omap (λ p, if decide (UA_NODEMAP_TOMBSTONE < p)
               then (λ e, nodeId (node e)) <$> hp !! p
               else None) (entries m).
Proof. done. Qed.

(** An entry put into a free cell adds its NodeId. *)
Lemma present_ids_publish m hp hp' (i : nat) x p e :
  entries m !! i = Some x → ¬ UA_NODEMAP_TOMBSTONE < x →
  UA_NODEMAP_TOMBSTONE < p → hp' !! p = Some e →
  (∀ q, q ∈ entries m → UA_NODEMAP_TOMBSTONE < q → hp' !! q = hp !! q) →
  present_ids (mkStore (set_entries (<[i:=p]> (entries m)) m) hp')
  ≡ₚ nodeId (node e) :: present_ids (mkStore m hp).
Proof.
  intros Hx Hfree Hp He Hsame. rewrite !present_ids_unfold.
  cbn [entries set_entries].
  match goal with
  | |- omap ?g _ ≡ₚ _ :: omap ?f _ =>
      destruct (omap_insert_split f g (entries m) i x p Hx)
        as (l1 & l2 & -> & ->)
  end.
  { intros j q _ Hq. cbv beta. destruct (decide _) as [Hocc|]; [|done].
    rewrite Hsame; [done|by eapply list_elem_of_lookup_2|done]. }
  cbv beta. rewrite (decide_False (P:=UA_NODEMAP_TOMBSTONE < x)) by done.
  rewrite (decide_True (P:=UA_NODEMAP_TOMBSTONE < p)) by done.
  rewrite He. cbn [fmap option_fmap option_map option_list app].
  symmetry. apply Permutation_middle.
Qed.

(** A tombstone written over an entry takes its NodeId away. *)
Lemma present_ids_tombstone m hp hp' (i : nat) p e :
  entries m !! i = Some p → UA_NODEMAP_TOMBSTONE < p → hp !! p = Some e →
  (∀ (j : nat) q, j ≠ i → entries m !! j = Some q →
                  UA_NODEMAP_TOMBSTONE < q → hp' !! q = hp !! q) →
  present_ids (mkStore m hp)
  ≡ₚ nodeId (node e)
     :: present_ids
          (mkStore (set_entries (<[i:=UA_NODEMAP_TOMBSTONE]> (entries m)) m)
                   hp').
Proof.
  intros Hp Hocc He Hsame. rewrite !present_ids_unfold.
  cbn [entries set_entries].
  match goal with
  | |- omap ?f _ ≡ₚ _ :: omap ?g _ =>
      destruct (omap_insert_split f g (entries m) i p UA_NODEMAP_TOMBSTONE Hp)
        as (l1 & l2 & -> & ->)
  end.
  { intros j q Hj Hq. cbv beta. destruct (decide _) as [Hqocc|]; [|done].
    by rewrite (Hsame j q). }
  cbv beta. rewrite (decide_True (P:=UA_NODEMAP_TOMBSTONE < p)) by done.
  rewrite He.
  rewrite (decide_False (P:=UA_NODEMAP_TOMBSTONE < UA_NODEMAP_TOMBSTONE))
    by lia.
  cbn [fmap option_fmap option_map option_list app].
  symmetry. apply Permutation_middle.
Qed.

(** An entry written over another one with the same NodeId changes
    nothing. *)
Lemma present_ids_replace m hp hp' (i : nat) p e q e' :
  entries m !! i = Some p → UA_NODEMAP_TOMBSTONE < p → hp !! p = Some e →
  UA_NODEMAP_TOMBSTONE < q → hp' !! q = Some e' →
  nodeId (node e') = nodeId (node e) →
  (∀ (j : nat) r, j ≠ i → entries m !! j = Some r →
                  UA_NODEMAP_TOMBSTONE < r → hp' !! r = hp !! r) →
  present_ids (mkStore (set_entries (<[i:=q]> (entries m)) m) hp')
  = present_ids (mkStore m hp).
Proof.
  intros Hp Hocc He Hq He' Hid Hsame. rewrite !present_ids_unfold.
  cbn [entries set_entries].
  match goal with
  | |- omap ?g _ = omap ?f _ =>
      destruct (omap_insert_split f g (entries m) i p q Hp)
        as (l1 & l2 & -> & ->)
  end.
  { intros j r Hj Hr. cbv beta. destruct (decide _) as [Hrocc|]; [|done].
    by rewrite (Hsame j r). }
  cbv beta. rewrite !decide_True by done. rewrite He, He'. cbn.
  by rewrite Hid.
Qed.

(** The NodeIds of a table whose heap changed outside of its entries. *)
Lemma present_ids_frame m hp hp' :
  (∀ q, q ∈ entries m → UA_NODEMAP_TOMBSTONE < q →
        (λ e, nodeId (node e)) <$> hp' !! q
        = (λ e, nodeId (node e)) <$> hp !! q) →
  present_ids (mkStore m hp') = present_ids (mkStore m hp).
Proof.
  rewrite !present_ids_unfold. generalize (entries m) as es.
  induction es as [|a es IH]; intros Hsame; [done|].
  rewrite !omap_cons_app. rewrite IH.
  - f_equal. destruct (decide _); [|done].
    rewrite Hsame; [done|by left|done].
  - intros q Hq. apply Hsame. by right.
Qed.

Lemma elem_of_present_ids s nodeid :
  nodeid ∈ present_ids s ↔ ∃ p, stored s nodeid p.
Proof.
  unfold present_ids, stored. rewrite list_elem_of_omap. split.
  - intros (p & Hp & Hid). exists p.
    destruct (decide (UA_NODEMAP_TOMBSTONE < p)); [|done].
    destruct (heap s !! p) as [e|]; [|done]. cbn in Hid. simplify_eq.
    split_and!; [done..|]. by exists e.
  - intros (p & Hocc & Hp & e & He & Hid). exists p. split; [done|].
    rewrite decide_True by done. rewrite He. cbn. by rewrite Hid.
Qed.

(** ** What a resize does to the table *)

Section Resize.

Variable H : UA_NodeId → Z.

(** The rehash moves every entry it is given into the new table, and
    nothing else. *)
Lemma expand_loop_moves oentries : ∀ j cnt m hp m',
  TableInv H m hp →
  (∀ p, p ∈ oentries → UA_NODEMAP_TOMBSTONE < p →
     ∃ e, hp !! p = Some e ∧ deleted e = false ∧
          nodeIdHash e = UA_NodeId_hash H (nodeId (node e))) →
  expand_loop H oentries j cnt m hp = Some m' →
  Z.of_nat (occupied oentries) <= cnt - j →
  (∀ q, UA_NODEMAP_TOMBSTONE < q →
        q ∈ entries m' ↔ q ∈ entries m ∨ q ∈ oentries) ∧
  (∀ q, q ∈ entries m' → ¬ UA_NODEMAP_TOMBSTONE < q → q ∈ entries m) ∧
  present_ids (mkStore m' hp)
  ≡ₚ present_ids (mkStore (set_entries oentries m) hp)
     ++ present_ids (mkStore m hp).
Proof.
  induction oentries as [|p oentries IH]; intros j cnt m hp m' Hinv Hlive Hl Hcnt;
    cbn [expand_loop] in Hl.
  { simplify_eq. split_and!; [|done|done].
    intros q _. split; [by left|]. intros [?|Hq]; [done|].
    by apply elem_of_nil in Hq. }
  rewrite occupied_cons in Hcnt.
  assert (Hlive' : ∀ q, q ∈ oentries → UA_NODEMAP_TOMBSTONE < q →
     ∃ e, hp !! q = Some e ∧ deleted e = false ∧
          nodeIdHash e = UA_NodeId_hash H (nodeId (node e))).
  { intros q Hq. apply Hlive. by right. }
  destruct (Z.leb_spec p UA_NODEMAP_TOMBSTONE) as [Hfree|Hocc].
  { rewrite bool_decide_eq_false_2 in Hcnt by lia.
    assert (Htail : expand_loop H oentries j cnt m hp = Some m').
    { destruct (Z.ltb_spec j cnt) as [|Hge]; [done|]. simplify_eq.
      destruct oentries; [done|]. cbn [expand_loop].
      destruct (Z.ltb_spec j cnt); [lia|done]. }
    destruct (IH j cnt m hp m' Hinv Hlive' Htail) as (Hin & Hnon & Hperm);
      [lia|].
    split_and!; [|done|].
    - intros q Hq. rewrite (Hin q Hq). split; intros [?|Hqo]; try by left.
      + right. by right.
      + apply elem_of_cons in Hqo as [->|?]; [lia|by right].
    - rewrite Hperm. rewrite (present_ids_unfold (set_entries (p :: oentries) m)).
      cbn [entries set_entries]. rewrite omap_cons_app.
      rewrite decide_False by lia. done. }
  rewrite bool_decide_eq_true_2 in Hcnt by lia.
  destruct (Z.ltb_spec j cnt) as [Hj|Hj]; [|lia].
  destruct (Hlive p) as (e & He & Hdel & Hhash); [by left|done|].
  rewrite He in Hl. cbn [mbind option_bind] in Hl.
  destruct (findFreeSlot H m hp (nodeId (node e))) as [[i|]|] eqn:Hslot;
    [|done..].
  cbn [mbind option_bind] in Hl.
  destruct (findFreeSlot_sound H m hp _ i Hinv Hslot)
    as (Hi & (x & Hx & Hxfree) & Habsent & Hreach).
  apply IH in Hl as (Hin & Hnon & Hperm); [| |done|lia].
  2:{ eapply TableInv_publish; eauto. by rewrite Z2Nat.id. }
  cbn [entries set_entries] in Hin, Hnon.
  split_and!.
  - intros q Hq. rewrite (Hin q Hq). split.
    + intros [Hqi|Hqo]; [|right; by right].
      apply elem_of_insert_inv in Hqi as [->|?]; [right; by left|by left].
    + intros [Hqm|Hqo].
      * left. apply list_elem_of_lookup in Hqm as [k Hk].
        apply list_elem_of_lookup. exists k.
        rewrite list_lookup_insert_ne; [done|]. intros <-.
        assert (q = x) as -> by congruence. done.
      * apply elem_of_cons in Hqo as [->|?]; [|by right].
        left. apply list_elem_of_lookup. exists (Z.to_nat i).
        apply list_lookup_insert_eq. by eapply lookup_lt_Some.
  - intros q Hq Hqfree. apply Hnon in Hq; [|done].
    apply elem_of_insert_inv in Hq as [->|?]; [lia|done].
  - rewrite Hperm.
    rewrite (present_ids_publish m hp hp (Z.to_nat i) x p e) by done.
    rewrite (present_ids_unfold (set_entries (p :: oentries) m)).
    cbn [entries set_entries]. rewrite omap_cons_app.
    rewrite decide_True by done. rewrite He.
    cbn [fmap option_fmap option_map option_list app].
    rewrite (present_ids_unfold (set_entries oentries m)).
    cbn [entries set_entries].
    by rewrite <- Permutation_middle.
Qed.

Lemma present_ids_set_entries_self m hp :
  present_ids (mkStore (set_entries (entries m) m) hp)
  = present_ids (mkStore m hp).
Proof. done. Qed.

Lemma present_ids_empty_table m hp n :
  entries m = replicate n NULL → present_ids (mkStore m hp) = [].
Proof.
  rewrite present_ids_unfold. intros ->.
  induction n as [|n IHn]; [done|].
  cbn [replicate]. rewrite omap_cons_app, IHn.
  rewrite decide_False; [done|].
  unfold NULL, UA_NODEMAP_TOMBSTONE. lia.
Qed.

(** [expand]: the heap, the count and the entries in the table stay; a
    failed allocation leaves the store as it is; a resize takes the
    smallest prime of the ladder that is at least twice the count and
    leaves no tombstone. *)
Lemma expand_outcome calloc_ok s s' st :
  Inv H s → expand H calloc_ok s = Some (s', st) →
  heap s' = heap s ∧ count (ns s') = count (ns s) ∧
  (∀ q, UA_NODEMAP_TOMBSTONE < q →
        q ∈ entries (ns s') ↔ q ∈ entries (ns s)) ∧
  present_ids s' ≡ₚ present_ids s ∧
  (st = UA_STATUSCODE_GOOD ∨ st = UA_STATUSCODE_BADOUTOFMEMORY ∧ s' = s) ∧
  (s' = s ∨
   (∀ q, q ∈ entries (ns s') → q = NULL ∨ UA_NODEMAP_TOMBSTONE < q) ∧
   higher_prime_index (u32 (count (ns s) * 2)) = Some (sizePrimeIndex (ns s')) ∧
   primes !! Z.to_nat (sizePrimeIndex (ns s')) = Some (size (ns s'))).
Proof.
  intros Hinv He. unfold expand in He.
  destruct (_ && _).
  { simplify_eq. split_and!; [done..|by left|by left]. }
  destruct (higher_prime_index _) as [nindex|] eqn:Hidx; [|done].
  cbn [mbind option_bind] in He.
  destruct (primes !! Z.to_nat nindex) as [nsize|] eqn:Hprime; [|done].
  cbn [mbind option_bind] in He.
  destruct (negb calloc_ok).
  { simplify_eq. split_and!; [done..|right; done|by left]. }
  destruct (expand_loop _ _ _ _ _ _) as [m'|] eqn:Hloop; [|done].
  cbn [mbind option_bind] in He. simplify_eq. cbn [ns heap].
  destruct Hinv as [Htable Hcount Hheap].
  destruct (expand_loop_fields _ _ _ _ _ _ _ Hloop) as (Hsz & Hcnt & Hpi & _).
  cbn [size count sizePrimeIndex] in Hsz, Hcnt, Hpi.
  rewrite take_ge in Hloop by (pose proof (inv_length H _ _ Htable); lia).
  apply expand_loop_moves in Hloop as (Hin & Hnon & Hperm);
    [|by apply TableInv_empty| |lia].
  2:{ intros p Hp Hocc. by eapply (inv_live H _ _ Htable). }
  cbn [entries] in Hin, Hnon.
  assert (Hrep : ∀ q, q ∈ replicate (Z.to_nat nsize) NULL → q = NULL).
  { intros q Hq. by apply elem_of_replicate_inv in Hq. }
  split_and!; [done|done| | |by left|right; split_and!].
  - intros q Hq. rewrite (Hin q Hq). split; [|by right].
    intros [Hr|?]; [|done]. apply Hrep in Hr.
    unfold NULL, UA_NODEMAP_TOMBSTONE in *. lia.
  - rewrite Hperm. destruct s as [m hp]. cbn [ns heap].
    rewrite (present_ids_empty_table
               (mkNodeMap (replicate (Z.to_nat nsize) NULL) nsize (count m)
                  nindex) hp (Z.to_nat nsize)) by done.
    by rewrite app_nil_r.
  - intros q Hq. destruct (decide (UA_NODEMAP_TOMBSTONE < q)); [by right|].
    left. apply Hrep. by apply Hnon.
  - by rewrite Hpi.
  - by rewrite Hpi, Hsz.
Qed.

(** [expand] fails only when its allocation fails. *)
Lemma expand_failure calloc_ok s s' st :
  expand H calloc_ok s = Some (s', st) → st ≠ UA_STATUSCODE_GOOD →
  calloc_ok = false ∧ st = UA_STATUSCODE_BADOUTOFMEMORY ∧ s' = s.
Proof.
  unfold expand. intros He Hst.
  destruct (_ && _); [by simplify_eq|].
  destruct (higher_prime_index _) as [nindex|]; [|done]. cbn in He.
  destruct (primes !! Z.to_nat nindex) as [nsize|]; [|done]. cbn in He.
  destruct calloc_ok; cbn in He; [|by simplify_eq].
  destruct (expand_loop _ _ _ _ _ _) as [m'|]; [|done]. cbn in He.
  by simplify_eq.
Qed.

(** The tables [expand] makes out of a table of at most 1073741789
    slots have at most 2147483647 slots. *)
Lemma expand_size_bound calloc_ok s s' st :
  Inv H s → size (ns s) <= 1073741789 →
  expand H calloc_ok s = Some (s', st) →
  size (ns s') <= 2147483647.
Proof.
  intros Hinv Hbound He.
  destruct (expand_outcome _ _ _ _ Hinv He)
    as (_ & _ & _ & _ & _ & [->|(_ & Hidx & Hprime)]); [lia|].
  destruct Hinv as [Htable Hcount _].
  assert (Hle := occupied_le_length (entries (ns s))).
  assert (Hlen := inv_length H _ _ Htable).
  rewrite u32_small in Hidx by lia.
  destruct (higher_prime_index_total (count (ns s) * 2))
    as (nindex & Hidx' & Hr & Hlow & _).
  assert (nindex = sizePrimeIndex (ns s')) as Heq by congruence.
  rewrite <- Heq in Hprime.
  destruct (Z.le_gt_cases nindex 28) as [Hsmall|Hbig].
  - apply (primes_lookup_le (Z.to_nat nindex) 28 _ 2147483647);
      [done|reflexivity|lia].
  - assert (2147483647 < count (ns s) * 2); [|lia].
    apply (Hlow 28); [lia|reflexivity].
Qed.

(** A resize keeps every binding of the table. *)
Lemma expand_stored calloc_ok s s' st nodeid p :
  Inv H s → expand H calloc_ok s = Some (s', st) →
  stored s' nodeid p ↔ stored s nodeid p.
Proof.
  intros Hinv He.
  destruct (expand_outcome _ _ _ _ Hinv He) as (Hheap & _ & Hin & _).
  unfold stored. rewrite Hheap. split; intros (Hocc & Hp & Hid).
  - split_and!; [done| |done]. by apply Hin.
  - split_and!; [done| |done]. by apply Hin.
Qed.

End Resize.

(** ** What [insertNode] and [removeNode] do to the table *)

Section InsertRemove.

Variable H : UA_NodeId → Z.

Lemma addedNodeId_and (st : UA_StatusCode) (added : bool) :
  added && bool_decide (st ≠ UA_STATUSCODE_GOOD) = true ∨
  added && bool_decide (st ≠ UA_STATUSCODE_GOOD) = false.
Proof. destruct (_ && _); [by left|by right]. Qed.

(** The search for a fresh identifier only rewrites the numeric
    identifier of the node. *)
Lemma assignNodeId_loop_node fuel : ∀ m hp pnode size increase startId
    identifier slot hp',
  assignNodeId_loop H fuel m hp pnode size increase startId identifier
  = Some (slot, hp') →
  ∃ e c, hp !! pnode = Some e ∧
         hp' = <[pnode := set_node (set_numeric c (node e)) e]> hp ∧
         ∀ i, slot = Some i →
              findFreeSlot H m hp' (nodeId (set_numeric c (node e)))
              = Some (Some i).
Proof.
  induction fuel as [|fuel IH];
    intros m hp pnode size increase startId identifier slot hp' Hl; [done|].
  cbn [assignNodeId_loop] in Hl.
  destruct (hp !! pnode) as [e|] eqn:He; [|done]. cbn in Hl.
  destruct (findFreeSlot H m _ _) as [[j|]|] eqn:Hfree; [| |done]; cbn in Hl.
  - simplify_eq. exists e, (u32 identifier). split_and!; [done..|].
    intros i ?. by simplify_eq.
  - destruct (u32 _ =? startId).
    + simplify_eq. exists e, (u32 identifier). split_and!; done.
    + apply IH in Hl as (e1 & c & He1 & -> & Hfound).
      rewrite lookup_insert_eq in He1. simplify_eq.
      exists e, c. rewrite insert_insert_eq. split_and!; [done..|].
      by rewrite insert_insert_eq in Hfound.
Qed.

(** An [insertNode] that returns [GOOD]: the table it works on is the one
    after the pre-check [s1]; the node went into a cell [i] of it that
    was not occupied, its NodeId was not in the table, and nothing but
    the numeric identifier of a node that asked for one and the cached
    hash was changed in the node. *)
Lemma insertNode_GOOD calloc_ok st pnode added s s' out e0 :
  Inv H s → pnode ∉ entries (ns s) → heap s !! pnode = Some e0 →
  deleted e0 = false →
  UA_NodeMap_insertNode H calloc_ok st None pnode added s
  = Some (s', UA_STATUSCODE_GOOD, out) →
  ∃ s1 (i : nat) x nd,
    (if u32 (size (ns s) * 3) <=? u32 (count (ns s) * 4)
     then expand H calloc_ok s else Some (s, UA_STATUSCODE_GOOD))
    = Some (s1, UA_STATUSCODE_GOOD) ∧
    Inv H s1 ∧ heap s1 = heap s ∧ ¬ (pnode ∈ entries (ns s1)) ∧
    entries (ns s1) !! i = Some x ∧ ¬ UA_NODEMAP_TOMBSTONE < x ∧
    (∀ (j : nat) p e, entries (ns s1) !! j = Some p →
       UA_NODEMAP_TOMBSTONE < p → heap s !! p = Some e →
       nodeId (node e) ≠ nodeId nd) ∧
    (if is_numeric_zero (nodeId (node e0))
     then ∃ c, nd = set_numeric c (node e0)
     else nd = node e0) ∧
    s' = mkStore
           (set_count (count (ns s1) + 1)
              (set_entries (<[i:=pnode]> (entries (ns s1))) (ns s1)))
           (<[pnode := set_nodeIdHash (UA_NodeId_hash H (nodeId nd))
                         (set_node nd e0)]> (heap s)) ∧
    out = (if added then Some (nodeId nd) else None).
Proof.
  intros Hinv Hout He0 Hd0 Hins.
  assert (Hvalid := inv_heap H s Hinv pnode e0 He0).
  unfold UA_NodeMap_insertNode in Hins.
  destruct (if u32 (size (ns s) * 3) <=? u32 (count (ns s) * 4)
            then expand H calloc_ok s else Some (s, UA_STATUSCODE_GOOD))
    as [[s1 expanded]|] eqn:Hexp; [|done].
  cbn [mbind option_bind] in Hins.
  destruct (decide (expanded ≠ UA_STATUSCODE_GOOD)) as [|Hgood];
    [by simplify_eq|].
  assert (expanded = UA_STATUSCODE_GOOD) as ->
    by (by destruct (decide (expanded = UA_STATUSCODE_GOOD))).
  assert (Inv H s1 ∧ heap s1 = heap s ∧ ¬ (pnode ∈ entries (ns s1)))
    as (Hinv1 & Hh1 & Hout1).
  { destruct (_ <=? _); [|simplify_eq; split_and!; done].
    split_and!; [by eapply expand_Inv|by eapply expand_heap|].
    intros Hin. apply Hout. eapply expand_entries; [done| |done].
    unfold NULL, UA_NODEMAP_TOMBSTONE in *. lia. }
  assert (Hs1 := Hexp). clear Hexp.
  rewrite Hh1 in Hins. rewrite He0 in Hins. cbn [mbind option_bind] in Hins.
  set (search := if is_numeric_zero (nodeId (node e0)) then _ else _) in *.
  assert (Hsearch : ∀ slot hp, search = Some (slot, hp) →
            ∃ nd, hp = <[pnode := set_node nd e0]> (heap s) ∧
                 (if is_numeric_zero (nodeId (node e0))
                  then ∃ c, nd = set_numeric c (node e0)
                  else nd = node e0) ∧
                 ∀ i, slot = Some i →
                   findFreeSlot H (ns s1) hp (nodeId nd) = Some (Some i)).
  { subst search. intros slot hp. destruct (is_numeric_zero _).
    - intros Hl. apply assignNodeId_loop_node in Hl
        as (e1 & c & He1 & -> & Hfound).
      assert (e1 = e0) as -> by congruence.
      exists (set_numeric c (node e0)).
      split_and!; [done|by exists c|done].
    - destruct (findFreeSlot H (ns s1) (heap s) (nodeId (node e0)))
        as [slot'|] eqn:Hfree; [|done].
      cbn. intros ?. simplify_eq. exists (node e0).
      assert (set_node (node e0) e0 = e0) as -> by (by destruct e0).
      rewrite insert_id by done. split_and!; [done..|].
      intros i ->. done. }
  destruct search as [[slot hp]|]; [|done].
  destruct (Hsearch slot hp eq_refl) as (nd & -> & Hnd & Hfound).
  clear Hsearch.
  assert (Hinv2 : Inv H (mkStore (ns s1) (<[pnode := set_node nd e0]> (heap s)))).
  { rewrite <- Hh1. apply (Inv_touch H s1 pnode); [done..| |done].
    intros q Hq. by rewrite lookup_insert_ne. }
  cbn [mbind option_bind] in Hins.
  unfold deleteNodeMapEntry in Hins. rewrite lookup_insert_eq in Hins.
  destruct slot as [i|]; cbn [mbind option_bind] in Hins;
    [|by simplify_eq].
  destruct (addedNodeId_and st added) as [Hfail|Hok].
  { rewrite Hfail in Hins. cbn in Hins. simplify_eq.
    apply andb_true_iff in Hfail as [_ Hfail].
    by apply bool_decide_eq_true in Hfail. }
  rewrite Hok in Hins.
  destruct (findFreeSlot_sound H (ns s1) _ _ i (inv_table H _ Hinv2)
              (Hfound i eq_refl))
    as (Hi & (x & Hx & Hxfree) & Habsent & Hreach).
  cbn [ns heap] in *.
  rewrite Hx in Hins. cbn [mbind option_bind] in Hins.
  rewrite cmpxchg_no_race in Hins by done.
  cbn [mbind option_bind] in Hins.
  rewrite Z.eqb_refl in Hins. cbn [negb] in Hins. simplify_eq.
  rewrite insert_insert_eq.
  exists s1, (Z.to_nat i), x, nd.
  split_and!; [done..| |done| |done].
  - intros j p e Hj Hp Hep. eapply (Habsent j p e); [done..|].
    rewrite lookup_insert_ne; [done|].
    intros ->. apply Hout1. by eapply list_elem_of_lookup_2.
  - f_equal. f_equal.
    assert (Hlt := occupied_lt_length _ _ _ Hx Hxfree).
    assert (Hlen := inv_length H _ _ (inv_table H _ Hinv1)).
    assert (HP := primes_range _ (TableInv_size_prime H _ _
                                    (inv_table H _ Hinv1))).
    pose proof (inv_count H _ Hinv1).
    rewrite u32_small by lia. done.
Qed.

(** An [insertNode] that does not return [GOOD]: either the resize of
    the pre-check failed, and the store and the node are as they were,
    or the node was freed: because there was no slot for its NodeId, or
    because the copy of the NodeId for the caller failed. *)
Lemma insertNode_failed calloc_ok st pnode added s s' status out e0 :
  Inv H s → pnode ∉ entries (ns s) → heap s !! pnode = Some e0 →
  deleted e0 = false →
  UA_NodeMap_insertNode H calloc_ok st None pnode added s
  = Some (s', status, out) →
  status ≠ UA_STATUSCODE_GOOD →
  out = None ∧
  ((status = UA_STATUSCODE_BADINTERNALERROR ∧ s' = s ∧
    ∃ st1, expand H calloc_ok s = Some (s, st1) ∧ st1 ≠ UA_STATUSCODE_GOOD) ∨
   ∃ s1, (s1 = s ∨ expand H calloc_ok s = Some (s1, UA_STATUSCODE_GOOD)) ∧
         Inv H s1 ∧ heap s1 = heap s ∧
         s' = mkStore (ns s1) (delete pnode (heap s)) ∧
         ((status = UA_STATUSCODE_BADNODEIDEXISTS ∧
           (if is_numeric_zero (nodeId (node e0))
            then ∃ hp, assignNodeId_loop H
                         (Z.to_nat (50001 + 2 * size (ns s1))) (ns s1) (heap s)
                         pnode (size (ns s1))
                         (mod2 (u32 (count (ns s1) + 1)) (size (ns s1)))
                         (u32 (mod1 (u32 (50000 + size (ns s1) + 1))
                                 UA_UINT32_MAX))
                         (mod1 (u32 (50000 + size (ns s1) + 1)) UA_UINT32_MAX)
                       = Some (None, hp)
            else findFreeSlot H (ns s1) (heap s) (nodeId (node e0))
                 = Some None)) ∨
          (status = st ∧ added = true ∧
           ∃ nd i, (if is_numeric_zero (nodeId (node e0))
                    then ∃ c, nd = set_numeric c (node e0)
                    else nd = node e0) ∧
                   findFreeSlot H (ns s1)
                     (<[pnode := set_node nd e0]> (heap s)) (nodeId nd)
                   = Some (Some i)))).
Proof.
  intros Hinv Hout He0 Hd0 Hins Hbad.
  assert (Hvalid := inv_heap H s Hinv pnode e0 He0).
  unfold UA_NodeMap_insertNode in Hins.
  destruct (if u32 (size (ns s) * 3) <=? u32 (count (ns s) * 4)
            then expand H calloc_ok s else Some (s, UA_STATUSCODE_GOOD))
    as [[s1 expanded]|] eqn:Hexp; [|done].
  cbn [mbind option_bind] in Hins.
  destruct (decide (expanded ≠ UA_STATUSCODE_GOOD)) as [Hfail|Hgood].
  { simplify_eq. split; [done|]. left.
    destruct (_ <=? _); [|by simplify_eq].
    destruct (expand_outcome H _ _ _ _ Hinv Hexp)
      as (_ & _ & _ & _ & [->|[-> ->]] & _); [done|].
    split_and!; [done..|]. by eexists. }
  assert (expanded = UA_STATUSCODE_GOOD) as ->
    by (by destruct (decide (expanded = UA_STATUSCODE_GOOD))).
  assert (Inv H s1 ∧ heap s1 = heap s ∧
          (s1 = s ∨ expand H calloc_ok s = Some (s1, UA_STATUSCODE_GOOD)))
    as (Hinv1 & Hh1 & Hs1).
  { destruct (_ <=? _); [|simplify_eq; split_and!; [done..|by left]].
    split_and!; [by eapply expand_Inv|by eapply expand_heap|by right]. }
  clear Hexp.
  rewrite Hh1 in Hins. rewrite He0 in Hins. cbn [mbind option_bind] in Hins.
  split; [|right; exists s1; split_and!; [done..| |]].
  - destruct (if is_numeric_zero _ then _ else _) as [[[i|] hp]|]; [| |done];
      cbn [mbind option_bind] in Hins.
    + destruct (hp !! pnode); [|done]. cbn [mbind option_bind] in Hins.
      destruct (_ && _).
      { destruct (deleteNodeMapEntry pnode hp); [|done].
        cbn in Hins. by simplify_eq. }
      cbv zeta in Hins.
      destruct (entries (ns s1) !! Z.to_nat i) as [x|] eqn:Hx; [|done].
      cbn [mbind option_bind] in Hins.
      rewrite cmpxchg_no_race in Hins by done.
      cbn [mbind option_bind] in Hins.
      rewrite Z.eqb_refl in Hins. cbn [negb] in Hins. by simplify_eq.
    + destruct (deleteNodeMapEntry pnode hp); [|done].
      cbn in Hins. by simplify_eq.
  - set (search := if is_numeric_zero (nodeId (node e0)) then _ else _) in *.
    assert (Hsearch : ∀ slot hp, search = Some (slot, hp) →
              ∃ nd, hp = <[pnode := set_node nd e0]> (heap s)).
    { subst search. intros slot hp. destruct (is_numeric_zero _).
      - intros Hl. apply assignNodeId_loop_node in Hl
          as (e1 & c & He1 & -> & _).
        assert (e1 = e0) as -> by congruence. by eexists.
      - destruct (findFreeSlot H (ns s1) (heap s) (nodeId (node e0)));
          [|done].
        cbn. intros ?. simplify_eq. exists (node e0).
        assert (set_node (node e0) e0 = e0) as -> by (by destruct e0).
        by rewrite insert_id. }
    destruct search as [[slot hp]|]; [|done].
    destruct (Hsearch slot hp eq_refl) as (nd & ->).
    cbn [mbind option_bind] in Hins.
    unfold deleteNodeMapEntry in Hins. rewrite lookup_insert_eq in Hins.
    cbn [mbind option_bind] in Hins. rewrite delete_insert_eq in Hins.
    destruct slot as [i|]; [|by simplify_eq].
    destruct (_ && _); [by simplify_eq|].
    cbv zeta in Hins.
    destruct (entries (ns s1) !! Z.to_nat i) as [x|] eqn:Hx; [|done].
    cbn [mbind option_bind] in Hins.
    rewrite cmpxchg_no_race in Hins by done.
    cbn [mbind option_bind] in Hins.
    rewrite Z.eqb_refl in Hins. cbn [negb] in Hins. by simplify_eq.
  - set (search := if is_numeric_zero (nodeId (node e0)) then _ else _) in *.
    assert (Hsearch : ∀ slot hp, search = Some (slot, hp) →
              (slot = None →
               if is_numeric_zero (nodeId (node e0))
               then ∃ hp, assignNodeId_loop H
                         (Z.to_nat (50001 + 2 * size (ns s1))) (ns s1) (heap s)
                         pnode (size (ns s1))
                         (mod2 (u32 (count (ns s1) + 1)) (size (ns s1)))
                         (u32 (mod1 (u32 (50000 + size (ns s1) + 1))
                                 UA_UINT32_MAX))
                         (mod1 (u32 (50000 + size (ns s1) + 1)) UA_UINT32_MAX)
                       = Some (None, hp)
               else findFreeSlot H (ns s1) (heap s) (nodeId (node e0))
                    = Some None) ∧
              (∀ i, slot = Some i →
                 ∃ nd, hp = <[pnode := set_node nd e0]> (heap s) ∧
                       (if is_numeric_zero (nodeId (node e0))
                        then ∃ c, nd = set_numeric c (node e0)
                        else nd = node e0) ∧
                       findFreeSlot H (ns s1) hp (nodeId nd) = Some (Some i))).
    { subst search. intros slot hp. destruct (is_numeric_zero _).
      - cbv zeta. intros Hl. split.
        + intros ->. by exists hp.
        + intros i ->. apply assignNodeId_loop_node in Hl
            as (e1 & c & He1 & -> & Hfound).
          assert (e1 = e0) as -> by congruence.
          exists (set_numeric c (node e0)).
          split_and!; [done|by exists c|by apply Hfound].
      - destruct (findFreeSlot H (ns s1) (heap s) (nodeId (node e0)))
          as [slot'|] eqn:Hfree; [|done].
        cbn. intros ?. simplify_eq. split; [by intros ->|].
        intros i ->. exists (node e0).
        assert (set_node (node e0) e0 = e0) as -> by (by destruct e0).
        by rewrite insert_id. }
    destruct search as [[slot hp]|]; [|done].
    destruct (Hsearch slot hp eq_refl) as [Hnone Hsome]. clear Hsearch.
    cbn [mbind option_bind] in Hins.
    destruct slot as [i|].
    + destruct (Hsome i eq_refl) as (nd & -> & Hnd & Hfound).
      rewrite lookup_insert_eq in Hins. cbn [mbind option_bind] in Hins.
      destruct added; cbn [andb] in Hins.
      * case_bool_decide as Hst.
        { unfold deleteNodeMapEntry in Hins.
          rewrite lookup_insert_eq in Hins. cbn in Hins. simplify_eq.
          right. split_and!; [done..|]. by exists nd, i. }
        cbv zeta in Hins.
        destruct (entries (ns s1) !! Z.to_nat i) as [x|] eqn:Hx; [|done].
        cbn [mbind option_bind] in Hins.
        rewrite cmpxchg_no_race in Hins by done.
        cbn [mbind option_bind] in Hins.
        rewrite Z.eqb_refl in Hins. cbn [negb] in Hins. by simplify_eq.
      * cbv zeta in Hins.
        destruct (entries (ns s1) !! Z.to_nat i) as [x|] eqn:Hx; [|done].
        cbn [mbind option_bind] in Hins.
        rewrite cmpxchg_no_race in Hins by done.
        cbn [mbind option_bind] in Hins.
        rewrite Z.eqb_refl in Hins. cbn [negb] in Hins. by simplify_eq.
    + destruct (deleteNodeMapEntry pnode hp); [|done].
      cbn in Hins. simplify_eq. left. split; [done|]. by apply Hnone.
Qed.

(** [getNode] of a NodeId in the table: the entry, with one more
    reference. *)
Lemma getNode_stored s nodeid p e :
  Inv H s → stored s nodeid p → heap s !! p = Some e →
  UA_NodeMap_getNode H nodeid s
  = Some (mkStore (ns s)
            (<[p := set_refCount (u16 (refCount e + 1)) e]> (heap s)), p).
Proof.
  intros Hinv (Hocc & Hp & e' & He' & Hid) He.
  assert (e' = e) as -> by congruence. subst nodeid.
  apply list_elem_of_lookup in Hp as [n Hn].
  unfold UA_NodeMap_getNode.
  rewrite (findOccupiedSlot_complete H _ _ n p e (inv_table H s Hinv))
    by done.
  cbn [mbind option_bind]. rewrite Nat2Z.id, Hn.
  cbn [mbind option_bind]. by rewrite He.
Qed.

Lemma findOccupiedSlot_not_present s nodeid :
  Inv H s → nodeid ∉ present_ids s →
  findOccupiedSlot H (ns s) (heap s) nodeid = Some None.
Proof.
  intros Hinv Habs. apply findOccupiedSlot_absent; [by apply inv_table|].
  intros j p e Hj Hocc He Hid. apply Habs. apply elem_of_present_ids.
  exists p. split_and!; [done|by eapply list_elem_of_lookup_2|by exists e].
Qed.

(** [removeNode] of a NodeId in the table. *)
Lemma removeNode_outcome calloc_ok s s' st (n : nat) p e :
  Inv H s →
  entries (ns s) !! n = Some p → UA_NODEMAP_TOMBSTONE < p →
  heap s !! p = Some e →
  UA_NodeMap_removeNode H None calloc_ok (nodeId (node e)) s = Some (s', st) →
  st = UA_STATUSCODE_GOOD ∧
  heap s' = (if refCount e =? 0 then delete p (heap s)
             else <[p := set_deleted true e]> (heap s)) ∧
  count (ns s') = count (ns s) - 1 ∧
  (∀ q, UA_NODEMAP_TOMBSTONE < q →
        q ∈ entries (ns s') ↔ q ∈ entries (ns s) ∧ q ≠ p) ∧
  present_ids s ≡ₚ nodeId (node e) :: present_ids s' ∧
  ∃ mid, Inv H mid ∧ size (ns mid) = size (ns s) ∧
         count (ns mid) = count (ns s) - 1 ∧
         (s' = mid ∨ ∃ st1, expand H calloc_ok mid = Some (s', st1)).
Proof.
  intros Hinv Hn Hocc He Hrem. unfold UA_NodeMap_removeNode in Hrem.
  rewrite (findOccupiedSlot_complete H _ _ n p e (inv_table H s Hinv))
    in Hrem by done.
  cbn [mbind option_bind] in Hrem.
  unfold clearSlot in Hrem. rewrite Nat2Z.id, Hn in Hrem.
  cbn [mbind option_bind] in Hrem.
  rewrite cmpxchg_no_race in Hrem by by rewrite Nat2Z.id.
  cbn [mbind option_bind] in Hrem.
  rewrite Z.eqb_refl in Hrem. cbn [negb] in Hrem.
  rewrite He in Hrem. cbn [mbind option_bind] in Hrem.
  rewrite cleanup_after_delete in Hrem. cbn [mbind option_bind] in Hrem.
  rewrite Nat2Z.id in Hrem.
  set (hp := if refCount e =? 0 then _ else _) in *.
  assert (Hsame : ∀ q, q ≠ p → hp !! q = heap s !! q).
  { intros q Hqp. subst hp. destruct (refCount e =? 0).
    - by rewrite lookup_delete_ne.
    - by rewrite lookup_insert_ne. }
  assert (Hmid := clearSlot_tombstone_Inv H s n p hp Hinv Hn Hocc Hsame).
  set (mid := mkStore _ hp) in *.
  assert (Hcnt : count (ns mid) = count (ns s) - 1).
  { subst mid. cbn [ns count set_count].
    pose proof (inv_count H s Hinv).
    assert (Hpos := occupied_pos _ _ _ Hn Hocc).
    assert (Hle := occupied_le_length (entries (ns s))).
    assert (Hlen := inv_length H _ _ (inv_table H s Hinv)).
    assert (HP := primes_range _ (TableInv_size_prime H _ _
                                    (inv_table H s Hinv))).
    rewrite u32_small by lia. done. }
  assert (Hin : ∀ q, UA_NODEMAP_TOMBSTONE < q →
            q ∈ entries (ns mid) ↔ q ∈ entries (ns s) ∧ q ≠ p).
  { intros q Hq. subst mid. cbn [ns entries set_count set_entries]. split.
    - intros Hqi. apply list_elem_of_lookup in Hqi as [k Hk].
      apply list_lookup_insert_Some in Hk as [(_ & ? & _)|[Hkn Hk]]; [lia|].
      split; [by eapply list_elem_of_lookup_2|].
      intros ->. apply Hkn. symmetry.
      by eapply (TableInv_ptr_inj H _ _ k n p (inv_table H s Hinv)).
    - intros [Hqi Hqp]. apply list_elem_of_lookup in Hqi as [k Hk].
      apply list_elem_of_lookup. exists k.
      rewrite list_lookup_insert_ne; [done|]. intros <-. congruence. }
  assert (Hperm : present_ids s ≡ₚ nodeId (node e) :: present_ids mid).
  { destruct s as [m hp0]. cbn [ns heap] in *. subst mid.
    rewrite (present_ids_tombstone m hp0 hp n p e) by
      (try done; intros j q Hj Hq _; apply Hsame; intros ->; apply Hj;
       by eapply (TableInv_ptr_inj H _ _ j n p (inv_table H _ Hinv))).
    done. }
  assert (Hfinal : s' = mid ∨ ∃ st1, expand H calloc_ok mid = Some (s', st1)).
  { destruct (_ && _); [|left; by simplify_eq].
    destruct (expand H calloc_ok _) as [[s1 st1]|] eqn:Hexp; [|done].
    cbn in Hrem. simplify_eq. right. by exists st1. }
  assert (st = UA_STATUSCODE_GOOD) as ->.
  { destruct (_ && _); [|by simplify_eq].
    destruct (expand H calloc_ok _) as [[s1 st1]|]; [|done].
    cbn in Hrem. by simplify_eq. }
  clear Hrem. split; [done|].
  assert (Hmidfacts : ∃ mid0, Inv H mid0 ∧ size (ns mid0) = size (ns s) ∧
            count (ns mid0) = count (ns s) - 1 ∧
            (s' = mid0 ∨ ∃ st1, expand H calloc_ok mid0 = Some (s', st1))).
  { by exists mid. }
  destruct Hfinal as [->|[st1 Hexp]]; [done|].
  destruct (expand_outcome H _ _ _ _ Hmid Hexp)
    as (Hheap & Hcount & Hin' & Hperm' & _).
  split_and!.
  - by rewrite Hheap.
  - by rewrite Hcount.
  - intros q Hq. by rewrite (Hin' q Hq), (Hin q Hq).
  - by rewrite Hperm, Hperm'.
  - done.
Qed.

End InsertRemove.

(** ** The search for a fresh identifier never gives up *)

Section FreshIdentifier.

Variable H : UA_NodeId → Z.

(** After its first step the candidate stays below the start id, so the
    test that ends the search without a slot never fires. *)
Lemma assignNodeId_loop_slot m pnode size increase startId fuel :
  ∀ hp c slot hp',
  7 <= size < 4294967296 → 1 <= increase <= size - 2 →
  size <= startId < 4294967296 → 0 <= c <= startId →
  assignNodeId_loop H fuel m hp pnode size increase startId c
  = Some (slot, hp') →
  is_Some slot.
Proof.
  induction fuel as [|fuel IH];
    intros hp c slot hp' Hsize Hinc Hstart Hc Hl; [done|].
  cbn [assignNodeId_loop] in Hl.
  destruct (hp !! pnode) as [e|]; [|done]. cbn [mbind option_bind] in Hl.
  cbv zeta in Hl.
  destruct (findFreeSlot H m _ _) as [[i|]|]; [| |done];
    cbn [mbind option_bind] in Hl.
  { simplify_eq. by eexists. }
  assert (Hc32 : 0 <= c <= 4294967296) by lia.
  pose proof (probe_iter_bound size increase c 1 Hsize Hinc Hc32) as Hnext.
  change (Nat.iter 1 (probe_next size increase) c)
    with (probe_next size increase c) in Hnext.
  set (c' := probe_next size increase c) in *.
  assert (0 <= c' < startId) by lia.
  destruct (Z.eqb_spec (u32 c') startId) as [Heq|_].
  { rewrite u32_small in Heq by lia. lia. }
  eapply (IH _ c'); [done..|lia|done].
Qed.

End FreshIdentifier.

(** ** The reference counts stay 16-bit values *)

Lemma u16_range x : 0 <= u16 x < 65536.
Proof. unfold u16. apply Z.mod_pos_bound. lia. Qed.

Lemma refCounts_insert hp p e :
  refCounts_16bit hp → 0 <= refCount e < 65536 →
  refCounts_16bit (<[p:=e]> hp).
Proof.
  intros Hrc He q e' Hq. destruct (decide (q = p)) as [->|Hne].
  - rewrite lookup_insert_eq in Hq. by simplify_eq.
  - rewrite lookup_insert_ne in Hq by done. by eapply Hrc.
Qed.

Lemma refCounts_delete hp p :
  refCounts_16bit hp → refCounts_16bit (delete p hp).
Proof.
  intros Hrc q e' Hq. destruct (decide (q = p)) as [->|Hne].
  - by rewrite lookup_delete_eq in Hq.
  - rewrite lookup_delete_ne in Hq by done. by eapply Hrc.
Qed.

Lemma refCounts_cleanup hp hp' p :
  refCounts_16bit hp → cleanupNodeMapEntry p hp = Some hp' →
  refCounts_16bit hp'.
Proof.
  intros Hrc Hc. unfold cleanupNodeMapEntry, deleteNodeMapEntry in Hc.
  destruct (hp !! p) as [e|]; [|done]. cbn in Hc.
  destruct (_ && _); cbn in Hc; simplify_eq; [|done].
  by apply refCounts_delete.
Qed.

Section RefCounts.

Variable H : UA_NodeId → Z.

Lemma apply_base_refCounts o s s' :
  Inv H s → refCounts_16bit (heap s) → apply_base H o s = Some s' →
  refCounts_16bit (heap s').
Proof.
  intros Hinv Hrc Ho.
  destruct o as [alloc cls|pnode n|pnode|nodeid|pnode|alloc st nodeid
                |ok st pnode added|pnode|ok nodeid|ok]; cbn in Ho.
  - (* newNode *)
    simplify_eq. unfold UA_NodeMap_newNode.
    destruct (createEntry_spec alloc cls (heap s))
      as [->|(p & Hp & Hfresh & ->)]; [done|].
    destruct (p =? NULL); [done|]. cbn.
    apply refCounts_insert; [done|cbn; lia].
  - (* a write to an owned node *)
    destruct (unpublished s pnode); [|done].
    destruct (heap s !! pnode) as [e|] eqn:He; [|done]. cbn in Ho.
    simplify_eq. cbn. apply refCounts_insert; [done|]. cbn. by eapply Hrc.
  - (* deleteNode *)
    destruct (unpublished s pnode); [|done].
    unfold UA_NodeMap_deleteNode, deleteNodeMapEntry in Ho.
    destruct (heap s !! pnode); [|done]. cbn in Ho. simplify_eq.
    by apply refCounts_delete.
  - (* getNode *)
    unfold UA_NodeMap_getNode in Ho.
    destruct (findOccupiedSlot H (ns s) (heap s) nodeid) as [[i|]|];
      [| |done]; cbn in Ho; [|by simplify_eq].
    destruct (entries (ns s) !! Z.to_nat i) as [p|]; [|done]. cbn in Ho.
    destruct (heap s !! p) as [e|]; [|done]. cbn in Ho. simplify_eq. cbn.
    apply refCounts_insert; [done|]. cbn. apply u16_range.
  - (* releaseNode *)
    unfold UA_NodeMap_releaseNode in Ho.
    destruct (pnode =? NULL); [by simplify_eq|].
    destruct (heap s !! pnode) as [e|]; [|done]. cbn in Ho.
    destruct (0 <? refCount e); [|done].
    destruct (cleanupNodeMapEntry _ _) as [hp'|] eqn:Hclean; [|done].
    cbn in Ho. simplify_eq. cbn.
    eapply refCounts_cleanup; [|done].
    apply refCounts_insert; [done|]. cbn. apply u16_range.
  - (* getNodeCopy *)
    unfold UA_NodeMap_getNodeCopy in Ho.
    destruct (findOccupiedSlot H (ns s) (heap s) nodeid) as [[i|]|];
      [| |done]; cbn in Ho; [|by simplify_eq].
    destruct (entries (ns s) !! Z.to_nat i) as [entry|]; [|done].
    cbn in Ho. destruct (heap s !! entry) as [e|]; [|done]. cbn in Ho.
    destruct (createEntry_spec alloc (nodeClass (node e)) (heap s))
      as [Hnull|(p & Hp & Hfresh & Hcreate)].
    + rewrite Hnull in Ho. cbn in Ho. by simplify_eq.
    + rewrite Hcreate in Ho.
      assert ((p =? NULL) = false) as Hpn
        by (apply Z.eqb_neq; unfold NULL, UA_NODEMAP_TOMBSTONE in *; lia).
      rewrite Hpn in Ho.
      unfold deleteNodeMapEntry in Ho. rewrite lookup_insert_eq in Ho.
      destruct (decide (st = UA_STATUSCODE_GOOD)); cbn in Ho;
        simplify_eq; cbn.
      * apply refCounts_insert; [|cbn; lia].
        apply refCounts_insert; [done|cbn; lia].
      * apply refCounts_delete. apply refCounts_insert; [done|cbn; lia].
  - (* insertNode *)
    destruct (unpublished s pnode) eqn:Hun; [|done].
    apply unpublished_spec in Hun as (Hout & e0 & He0 & Hd0).
    destruct (UA_NodeMap_insertNode H ok st None pnode added s)
      as [[[s0 st0] out]|] eqn:Hins; [|done].
    cbn in Ho. simplify_eq.
    destruct (decide (st0 = UA_STATUSCODE_GOOD)) as [->|Hbad].
    + destruct (insertNode_GOOD H _ _ _ _ _ _ _ _ Hinv Hout He0 Hd0 Hins)
        as (s1 & i & x & nd & _ & _ & _ & _ & _ & _ & _ & _ & -> & _).
      cbn. apply refCounts_insert; [done|]. cbn. by eapply Hrc.
    + destruct (insertNode_failed H _ _ _ _ _ _ _ _ _ Hinv Hout He0 Hd0 Hins
                  Hbad) as (_ & [(_ & -> & _)|(s1 & _ & _ & _ & -> & _)]);
        [done|].
      cbn. by apply refCounts_delete.
  - (* replaceNode *)
    destruct (unpublished s pnode) eqn:Hun; [|done].
    apply unpublished_spec in Hun as (Hout & e0 & He0 & Hd0).
    destruct (replaceNode_spec H pnode e0 s He0 Hout) as [Hnone Hsome].
    destruct (findOccupiedSlot_returns H (ns s) (heap s) (nodeId (node e0))
                (inv_table H s Hinv)) as [[i|] Hslot].
    + destruct (Hsome i Hslot) as (oldEntry & old & _ & Hold & _ & Hne & Heq).
      destruct (decide (oldEntry = orig e0)) as [Hsame|Hdiff].
      * rewrite (Heq Hsame) in Ho. cbn in Ho. simplify_eq. cbn.
        assert (refCounts_16bit
                  (<[pnode:=set_nodeIdHash (nodeIdHash old) e0]> (heap s))).
        { apply refCounts_insert; [done|]. cbn. by eapply Hrc. }
        destruct (refCount old =? 0).
        -- by apply refCounts_delete.
        -- apply refCounts_insert; [done|]. cbn. by eapply Hrc.
      * rewrite (Hne Hdiff) in Ho. cbn in Ho. simplify_eq. cbn.
        by apply refCounts_delete.
    + rewrite (Hnone Hslot) in Ho. cbn in Ho. simplify_eq. cbn.
      by apply refCounts_delete.
  - (* removeNode *)
    destruct (UA_NodeMap_removeNode H None ok nodeid s) as [[s0 st0]|] eqn:Hrem;
      [|done].
    cbn in Ho. simplify_eq.
    destruct (findOccupiedSlot_returns H (ns s) (heap s) nodeid
                (inv_table H s Hinv)) as [[i|] Hslot].
    + destruct (findOccupiedSlot_found H _ _ _ _ Hslot)
        as (p & e & Hp & Hocc & He & _ & <-).
      destruct (removeNode_outcome H _ _ _ _ _ _ _ Hinv Hp Hocc He Hrem)
        as (_ & -> & _).
      destruct (refCount e =? 0).
      * by apply refCounts_delete.
      * apply refCounts_insert; [done|]. cbn. by eapply Hrc.
    + unfold UA_NodeMap_removeNode in Hrem. rewrite Hslot in Hrem.
      cbn in Hrem. by simplify_eq.
  - (* expand *)
    destruct (expand H ok s) as [[s0 st0]|] eqn:Hexp; [|done].
    cbn in Ho. simplify_eq. by rewrite (expand_heap H _ _ _ _ Hexp).
Qed.

Lemma run_base_refCounts l : ∀ s s',
  Inv H s → refCounts_16bit (heap s) → run_base H l s = Some s' →
  refCounts_16bit (heap s').
Proof.
  induction l as [|o l IH]; intros s s' Hinv Hrc Hrun; cbn in Hrun;
    [by simplify_eq|].
  destruct (apply_base H o s) as [s1|] eqn:Ho; [|done]. cbn in Hrun.
  eapply IH; [| |done].
  - by eapply apply_base_Inv.
  - by eapply apply_base_refCounts.
Qed.

Lemma iterate_loop_refCounts fuel visitor : ∀ i s s',
  Inv H s → refCounts_16bit (heap s) →
  UA_NodeMap_iterate_loop fuel (λ p s0, run_base H (visitor p s0) s0) i s
  = Some s' →
  refCounts_16bit (heap s').
Proof.
  induction fuel as [|fuel IH]; intros i s s' Hinv Hrc Hit; [done|].
  cbn [UA_NodeMap_iterate_loop] in Hit.
  destruct (i <? size (ns s)); [|by simplify_eq].
  destruct (entries (ns s) !! Z.to_nat i) as [entry|] eqn:Hentry; [|done].
  cbn [mbind option_bind] in Hit.
  destruct (UA_NODEMAP_TOMBSTONE <? entry); [|by eapply IH].
  destruct (iterate_visit _ entry s) as [s1|] eqn:Hvisit; [|done].
  cbn [mbind option_bind] in Hit.
  assert (Inv H s1 ∧ refCounts_16bit (heap s1)) as [Hinv1 Hrc1];
    [|by eapply IH].
  unfold iterate_visit in Hvisit.
  destruct (heap s !! entry) as [e0|] eqn:He0; [|done].
  cbn [mbind option_bind] in Hvisit.
  destruct (run_base H _ _) as [s2|] eqn:Hrun; [|done].
  cbn [mbind option_bind] in Hvisit.
  assert (Hpin : Inv H (mkStore (ns s)
            (<[entry := set_refCount (u16 (refCount e0 + 1)) e0]> (heap s)))).
  { apply (Inv_touch H s entry); [done|by eapply (inv_heap H s)| |].
    - intros q Hq. by rewrite lookup_insert_ne.
    - intros _ e' He'. simplify_eq. rewrite lookup_insert_eq. by eexists. }
  assert (Hrc2 : refCounts_16bit (heap s2)).
  { eapply run_base_refCounts; [exact Hpin| |exact Hrun].
    cbn. apply refCounts_insert; [done|]. cbn. apply u16_range. }
  apply run_base_Inv in Hrun; [|done].
  destruct (heap s2 !! entry) as [e2|] eqn:He2; [|done].
  cbn [mbind option_bind] in Hvisit.
  destruct (cleanupNodeMapEntry _ _) as [hp'|] eqn:Hclean; [|done].
  cbn in Hvisit. simplify_eq. split; [by eapply unpin_Inv|].
  cbn. eapply refCounts_cleanup; [|done].
  apply refCounts_insert; [done|]. cbn. apply u16_range.
Qed.

Lemma run_refCounts l : ∀ s s',
  Inv H s → refCounts_16bit (heap s) → run H l s = Some s' →
  refCounts_16bit (heap s').
Proof.
  induction l as [|o l IH]; intros s s' Hinv Hrc Hrun; cbn in Hrun;
    [by simplify_eq|].
  destruct (apply_op H o s) as [s1|] eqn:Ho; [|done]. cbn in Hrun.
  eapply IH; [| |done].
  - by eapply apply_op_Inv.
  - destruct o as [b|fuel visitor]; cbn in Ho.
    + by eapply apply_base_refCounts.
    + by eapply iterate_loop_refCounts.
Qed.

End RefCounts.

(** ** [UA_NodeMap_iterate] *)

Lemma iterate_visit_ns visitor entry s s' :
  (∀ p s0 s1, visitor p s0 = Some s1 → ns s1 = ns s0) →
  iterate_visit visitor entry s = Some s' → ns s' = ns s.
Proof.
  intros Hvis Hv. unfold iterate_visit in Hv.
  destruct (heap s !! entry) as [e|]; [|done]. cbn [mbind option_bind] in Hv.
  destruct (visitor entry _) as [s1|] eqn:Hs1; [|done].
  cbn [mbind option_bind] in Hv. apply Hvis in Hs1. cbn [ns] in Hs1.
  destruct (heap s1 !! entry) as [e1|]; [|done].
  cbn [mbind option_bind] in Hv.
  destruct (cleanupNodeMapEntry _ _); [|done]. cbn in Hv. by simplify_eq.
Qed.

(** With a visitor that leaves the table alone, the loop of [iterate]
    shows it the occupied cells from index [k] on, in the order of the
    array. *)
Lemma iterate_loop_visits visitor :
  (∀ p s0 s1, visitor p s0 = Some s1 → ns s1 = ns s0) →
  ∀ (fuel k : nat) s,
  Z.of_nat (length (entries (ns s))) = size (ns s) →
  size (ns s) < 4294967296 →
  (k <= length (entries (ns s)))%nat →
  (length (entries (ns s)) - k < fuel)%nat →
  UA_NodeMap_iterate_loop fuel visitor (Z.of_nat k) s
  = visit_each visitor
      (filter (λ p, UA_NODEMAP_TOMBSTONE < p) (drop k (entries (ns s)))) s.
Proof.
  intros Hvis. induction fuel as [|fuel IH]; intros k s Hlen Hsize Hk Hfuel;
    [lia|].
  cbn [UA_NodeMap_iterate_loop].
  destruct (Z.ltb_spec (Z.of_nat k) (size (ns s))) as [Hlt|Hge].
  2:{ rewrite drop_ge by lia. done. }
  destruct (lookup_lt_is_Some_2 (entries (ns s)) k) as [entry Hentry]; [lia|].
  rewrite Nat2Z.id, Hentry. cbn [mbind option_bind].
  rewrite (drop_S _ entry k) by done. rewrite filter_cons.
  replace (u32 (Z.of_nat k + 1)) with (Z.of_nat (S k))
    by (rewrite u32_small by lia; lia).
  destruct (Z.ltb_spec UA_NODEMAP_TOMBSTONE entry) as [Hocc|Hfree].
  - rewrite decide_True by done. cbn [visit_each].
    destruct (iterate_visit visitor entry s) as [s1|] eqn:Hvisit; [|done].
    cbn [mbind option_bind].
    pose proof (iterate_visit_ns _ _ _ _ Hvis Hvisit) as Hns.
    rewrite IH; rewrite ?Hns; [done|done|done|lia|lia].
  - rewrite decide_False by lia. cbn [mbind option_bind].
    apply IH; [done|done|lia|lia].
Qed.

Lemma u16_pin_unpin r : 0 <= r < 65536 → u16 (u16 (r + 1) - 1) = r.
Proof.
  intros Hr. destruct (decide (r = 65535)) as [->|Hne]; [done|].
  rewrite (u16_small (r + 1)) by lia. rewrite u16_small by lia. lia.
Qed.

(** A visit that calls nothing: the pin and the unpin cancel. *)
Lemma iterate_visit_idle s entry e :
  heap s !! entry = Some e → deleted e = false → 0 <= refCount e < 65536 →
  iterate_visit (λ _ s0, Some s0) entry s = Some s.
Proof.
  intros He Hdel Hrc. unfold iterate_visit. rewrite He.
  cbn [mbind option_bind heap ns]. rewrite lookup_insert_eq.
  cbn [mbind option_bind]. unfold cleanupNodeMapEntry.
  rewrite lookup_insert_eq. cbn [mbind option_bind].
  cbn [deleted set_refCount refCount]. rewrite Hdel. cbn [andb].
  rewrite insert_insert_eq.
  rewrite u16_pin_unpin by done.
  assert (set_refCount (refCount e) (set_refCount (u16 (refCount e + 1)) e)
          = e) as -> by (by destruct e).
  rewrite insert_id by done. cbn [mbind option_bind]. by destruct s.
Qed.

(** ** [UA_NodeMap_delete] *)

Lemma NoDup_occupied (es : list Z) :
  (∀ (i j : nat) p, es !! i = Some p → es !! j = Some p →
                    UA_NODEMAP_TOMBSTONE < p → i = j) →
  NoDup (filter (λ p, UA_NODEMAP_TOMBSTONE < p) es).
Proof.
  induction es as [|a es IH]; intros Hinj; [constructor|].
  assert (Htail : NoDup (filter (λ p, UA_NODEMAP_TOMBSTONE < p) es)).
  { apply IH. intros i j p Hi Hj Hp.
    assert (S i = S j); [|lia]. by eapply (Hinj (S i) (S j) p). }
  rewrite filter_cons. destruct (decide _) as [Hocc|]; [|done].
  constructor; [|done].
  intros Hin. apply list_elem_of_filter in Hin as [_ Hin].
  apply list_elem_of_lookup in Hin as [j Hj].
  assert (0%nat = S j); [|lia]. by eapply (Hinj 0%nat (S j) a).
Qed.

(** The loop frees the entries in the cells from index [k] on, when none
    of them is referenced, and nothing else. *)
Lemma delete_loop_frees es size :
  Z.of_nat (length es) = size → size < 4294967296 →
  ∀ (fuel k : nat) hp,
  (k <= length es)%nat → (length es - k < fuel)%nat →
  (∀ p, p ∈ drop k es → UA_NODEMAP_TOMBSTONE < p →
        ∃ e, hp !! p = Some e ∧ refCount e = 0) →
  NoDup (filter (λ p, UA_NODEMAP_TOMBSTONE < p) (drop k es)) →
  ∃ hp', UA_NodeMap_delete_loop fuel es size (Z.of_nat k) hp = Some hp' ∧
         ∀ p, hp' !! p = if decide (UA_NODEMAP_TOMBSTONE < p ∧ p ∈ drop k es)
                         then None else hp !! p.
Proof.
  intros Hlen Hsize. induction fuel as [|fuel IH];
    intros k hp Hk Hfuel Hfree Hnodup; [lia|].
  cbn [UA_NodeMap_delete_loop].
  destruct (Z.ltb_spec (Z.of_nat k) size) as [Hlt|Hge].
  2:{ exists hp. split; [done|]. intros p. rewrite drop_ge by lia.
      rewrite decide_False; [done|]. intros [_ Hp]. by apply elem_of_nil in Hp. }
  destruct (lookup_lt_is_Some_2 es k) as [entry Hentry]; [lia|].
  rewrite Nat2Z.id, Hentry. cbn [mbind option_bind].
  rewrite (drop_S _ entry k) in Hfree, Hnodup |- * by done.
  replace (u32 (Z.of_nat k + 1)) with (Z.of_nat (S k))
    by (rewrite u32_small by lia; lia).
  rewrite filter_cons in Hnodup.
  destruct (Z.ltb_spec UA_NODEMAP_TOMBSTONE entry) as [Hocc|Hnocc].
  - rewrite decide_True in Hnodup by done.
    apply NoDup_cons in Hnodup as [Hnotin Hnodup].
    destruct (Hfree entry) as (e & He & Hrc); [by left|done|].
    rewrite He. cbn [mbind option_bind]. rewrite Hrc. cbn.
    unfold deleteNodeMapEntry. rewrite He. cbn [mbind option_bind].
    destruct (IH (S k) (delete entry hp)) as (hp' & -> & Hhp');
      [lia|lia| |done|].
    { intros p Hp Hpocc. destruct (Hfree p) as (e' & He' & Hrc');
        [by right|done|].
      exists e'. split; [|done]. rewrite lookup_delete_ne; [done|].
      intros <-. apply Hnotin. by apply list_elem_of_filter. }
    exists hp'. split; [done|]. intros p. rewrite Hhp'.
    destruct (decide (p = entry)) as [->|Hne].
    + rewrite (decide_True (P:=_ ∧ entry ∈ entry :: _)) by (split; [done|by left]).
      rewrite lookup_delete_eq. by destruct (decide _).
    + rewrite lookup_delete_ne by done.
      destruct (decide (_ ∧ p ∈ drop (S k) es)) as [[? ?]|Hn].
      * rewrite decide_True; [done|]. split; [done|by right].
      * rewrite decide_False; [done|]. intros [? Hp]. apply Hn.
        split; [done|]. apply elem_of_cons in Hp as [?|?]; done.
  - rewrite decide_False in Hnodup by lia. cbn [mbind option_bind].
    destruct (IH (S k) hp) as (hp' & -> & Hhp'); [lia|lia| |done|].
    { intros p Hp. apply Hfree. by right. }
    exists hp'. split; [done|]. intros p. rewrite Hhp'.
    destruct (decide (_ ∧ p ∈ drop (S k) es)) as [[? ?]|Hn].
    + rewrite decide_True; [done|]. split; [done|by right].
    + rewrite decide_False; [done|]. intros [? Hp]. apply Hn.
      split; [done|]. apply elem_of_cons in Hp as [->|?]; [lia|done].
Qed.

(** The loop stops at the assertion when an entry in a cell from index
    [k] on is still referenced. *)
Lemma delete_loop_asserts es size :
  Z.of_nat (length es) = size → size < 4294967296 →
  ∀ (fuel k : nat) hp q e,
  (k <= length es)%nat →
  q ∈ drop k es → UA_NODEMAP_TOMBSTONE < q → hp !! q = Some e →
  refCount e ≠ 0 →
  NoDup (filter (λ p, UA_NODEMAP_TOMBSTONE < p) (drop k es)) →
  UA_NodeMap_delete_loop fuel es size (Z.of_nat k) hp = None.
Proof.
  intros Hlen Hsize. induction fuel as [|fuel IH];
    intros k hp q e Hk Hq Hqocc He Hrc Hnodup; [done|].
  cbn [UA_NodeMap_delete_loop].
  destruct (Z.ltb_spec (Z.of_nat k) size) as [Hlt|Hge].
  2:{ rewrite drop_ge in Hq by lia. by apply elem_of_nil in Hq. }
  destruct (lookup_lt_is_Some_2 es k) as [entry Hentry]; [lia|].
  rewrite Nat2Z.id, Hentry. cbn [mbind option_bind].
  rewrite (drop_S _ entry k) in Hq, Hnodup by done.
  replace (u32 (Z.of_nat k + 1)) with (Z.of_nat (S k))
    by (rewrite u32_small by lia; lia).
  rewrite filter_cons in Hnodup.
  destruct (Z.ltb_spec UA_NODEMAP_TOMBSTONE entry) as [Hocc|Hnocc].
  - rewrite decide_True in Hnodup by done.
    apply NoDup_cons in Hnodup as [Hnotin Hnodup].
    destruct (decide (q = entry)) as [->|Hne].
    { rewrite He. cbn [mbind option_bind].
      apply Z.eqb_neq in Hrc as ->. done. }
    apply elem_of_cons in Hq as [?|Hq]; [done|].
    destruct (hp !! entry) as [e'|]; [|done]. cbn [mbind option_bind].
    destruct (refCount e' =? 0); [|done].
    unfold deleteNodeMapEntry.
    destruct (hp !! entry); [|done]. cbn [mbind option_bind].
    eapply (IH (S k) _ q e); [lia|done|done| |done|done].
    by rewrite lookup_delete_ne.
  - rewrite decide_False in Hnodup by lia. cbn [mbind option_bind].
    apply elem_of_cons in Hq as [->|Hq]; [lia|].
    eapply (IH (S k) _ q e); [lia|done..].
Qed.

(** ** The store as a map from NodeIds to nodes *)

Section MapBehaviour.

Variable H : UA_NodeId → Z.

(** The pre-check of [insertNode] keeps what is in the table. *)
Lemma precheck_keeps (c : bool) calloc_ok s s1 st :
  Inv H s →
  (if c then expand H calloc_ok s else Some (s, UA_STATUSCODE_GOOD))
  = Some (s1, st) →
  heap s1 = heap s ∧ count (ns s1) = count (ns s) ∧
  present_ids s1 ≡ₚ present_ids s ∧
  ∀ nodeid p, stored s1 nodeid p ↔ stored s nodeid p.
Proof.
  intros Hinv Hpre. destruct c; [|by simplify_eq].
  destruct (expand_outcome H _ _ _ _ Hinv Hpre) as (Hh & Hc & _ & Hperm & _).
  split_and!; [done..|]. intros nodeid p. by eapply expand_stored.
Qed.

Lemma stored_heap s nodeid p :
  stored s nodeid p → ∃ e, heap s !! p = Some e ∧ nodeId (node e) = nodeid.
Proof. by intros (_ & _ & He). Qed.

(** X1: in every state reached through the interface, [getNode] of a
    NodeId that an entry of the table carries returns that entry and
    counts one more reference on it; nothing else changes. *)
Theorem getNode_returns_stored_node l s nodeid p e :
  run H l new_store = Some s →
  stored s nodeid p → heap s !! p = Some e →
  UA_NodeMap_getNode H nodeid s
  = Some (mkStore (ns s)
            (<[p := set_refCount (u16 (refCount e + 1)) e]> (heap s)), p) ∧
  p ≠ NULL ∧ nodeId (node e) = nodeid.
Proof.
  intros Hrun Hstored He.
  assert (Hinv : Inv H s) by (eapply run_Inv; [apply new_store_Inv|done]).
  split_and!.
  - by apply getNode_stored.
  - destruct Hstored as (Hocc & _). unfold NULL, UA_NODEMAP_TOMBSTONE in *. lia.
  - destruct Hstored as (_ & _ & e' & He' & Hid). congruence.
Qed.

(** X2: a NodeId that is not in the table is reported as such, and the
    store stays as it is: [getNode] returns [NULL], [getNodeCopy] and
    [removeNode] return [BADNODEIDUNKNOWN] (and [getNodeCopy] hands out
    no node). *)
Theorem unknown_NodeId_is_reported l s nodeid alloc copy_status calloc_ok :
  run H l new_store = Some s →
  nodeid ∉ present_ids s →
  UA_NodeMap_getNode H nodeid s = Some (s, NULL) ∧
  UA_NodeMap_getNodeCopy H alloc copy_status nodeid s
  = Some (s, UA_STATUSCODE_BADNODEIDUNKNOWN, NULL) ∧
  UA_NodeMap_removeNode H None calloc_ok nodeid s
  = Some (s, UA_STATUSCODE_BADNODEIDUNKNOWN).
Proof.
  intros Hrun Habs.
  assert (Hinv : Inv H s) by (eapply run_Inv; [apply new_store_Inv|done]).
  pose proof (findOccupiedSlot_not_present H s nodeid Hinv Habs) as Hslot.
  unfold UA_NodeMap_getNode, UA_NodeMap_getNodeCopy, UA_NodeMap_removeNode.
  rewrite Hslot. done.
Qed.

(** The table after an [insertNode] that returned [GOOD]. *)
Lemma insertNode_GOOD_bindings calloc_ok st pnode added s s' out e0 :
  Inv H s → pnode ∉ entries (ns s) → heap s !! pnode = Some e0 →
  deleted e0 = false →
  UA_NodeMap_insertNode H calloc_ok st None pnode added s
  = Some (s', UA_STATUSCODE_GOOD, out) →
  ∃ nd,
    heap s' = <[pnode := set_nodeIdHash (UA_NodeId_hash H (nodeId nd))
                           (set_node nd e0)]> (heap s) ∧
    (if is_numeric_zero (nodeId (node e0))
     then ∃ c, nd = set_numeric c (node e0)
     else nd = node e0) ∧
    out = (if added then Some (nodeId nd) else None) ∧
    UA_NODEMAP_TOMBSTONE < pnode ∧ pnode ∈ entries (ns s') ∧
    ¬ (nodeId nd ∈ present_ids s) ∧
    present_ids s' ≡ₚ nodeId nd :: present_ids s ∧
    count (ns s') = count (ns s) + 1 ∧
    (∀ nodeid q, stored s' nodeid q ↔
                 (q = pnode ∧ nodeid = nodeId nd) ∨ stored s nodeid q).
Proof.
  intros Hinv Hout He0 Hd0 Hins.
  assert (Hvalid := inv_heap H s Hinv pnode e0 He0).
  destruct (insertNode_GOOD H _ _ _ _ _ _ _ _ Hinv Hout He0 Hd0 Hins)
    as (s1 & i & x & nd & Hpre & Hinv1 & Hh1 & Hout1 & Hx & Hxfree & Habsent
        & Hnd & -> & ->).
  destruct (precheck_keeps _ _ _ _ _ Hinv Hpre)
    as (_ & Hcount & Hperm & Hstored).
  set (e' := set_nodeIdHash (UA_NodeId_hash H (nodeId nd)) (set_node nd e0)).
  assert (Hnotin : nodeId nd ∉ present_ids s1).
  { intros Hin. apply elem_of_present_ids in Hin
      as (q & Hq & Hqin & e & He & Hid).
    apply list_elem_of_lookup in Hqin as [j Hj]. rewrite Hh1 in He.
    by eapply (Habsent j q e). }
  assert (Hother : ∀ q, q ∈ entries (ns s1) → q ≠ pnode).
  { intros q Hq ->. done. }
  exists nd. cbn [ns heap count set_count entries set_entries].
  split_and!; [done|done|done|done| | | | |].
  - apply list_elem_of_lookup. exists i. apply list_lookup_insert_eq.
    by eapply lookup_lt_Some.
  - by rewrite <- Hperm.
  - rewrite <- Hperm. destruct s1 as [m1 hp1]. cbn [ns heap] in *. subst hp1.
    transitivity
      (present_ids
         (mkStore (set_entries (<[i:=pnode]> (entries m1)) m1)
                  (<[pnode:=e']> (heap s)))); [done|].
    apply (present_ids_publish m1 (heap s) _ i x pnode e'); [done..| |].
    + apply lookup_insert_eq.
    + intros q Hq _. rewrite lookup_insert_ne; [done|].
      intros <-. by apply Hout1.
  - by rewrite Hcount.
  - intros nodeid q. rewrite <- Hstored. unfold stored.
    cbn [ns heap entries set_count set_entries]. rewrite Hh1. split.
    + intros (Hq & Hqin & e & He & Hid).
      apply elem_of_insert_inv in Hqin as [->|Hqin].
      * left. rewrite lookup_insert_eq in He. by simplify_eq.
      * right. rewrite lookup_insert_ne in He by (symmetry; by apply Hother).
        split_and!; [done..|]. by exists e.
    + intros [[-> ->]|(Hq & Hqin & e & He & Hid)].
      * split_and!; [done| |].
        -- apply list_elem_of_lookup. exists i. apply list_lookup_insert_eq.
           by eapply lookup_lt_Some.
        -- exists e'. by rewrite lookup_insert_eq.
      * split_and!; [done| |].
        -- apply list_elem_of_lookup in Hqin as [k Hk].
           apply list_elem_of_lookup. exists k.
           rewrite list_lookup_insert_ne; [done|]. intros <-.
           assert (q = x) as -> by congruence. done.
        -- exists e. rewrite lookup_insert_ne; [done|].
           symmetry. by apply Hother.
Qed.

(** X3: a node that [insertNode] has accepted ([GOOD]) is found by
    [getNode] under the NodeId it carries now: the NodeId it came with,
    or the one [insertNode] assigned to it.  Its cached hash is the hash
    of that NodeId, and the NodeId is what the caller gets back through
    [addedNodeId]. *)
Theorem insertNode_then_getNode l s calloc_ok st pnode added s' out :
  run H l new_store = Some s → unpublished s pnode = true →
  UA_NodeMap_insertNode H calloc_ok st None pnode added s
  = Some (s', UA_STATUSCODE_GOOD, out) →
  ∃ e', heap s' !! pnode = Some e' ∧
        nodeIdHash e' = UA_NodeId_hash H (nodeId (node e')) ∧
        out = (if added then Some (nodeId (node e')) else None) ∧
        (∀ e, heap s !! pnode = Some e →
              is_numeric_zero (nodeId (node e)) = false → node e' = node e) ∧
        UA_NodeMap_getNode H (nodeId (node e')) s'
        = Some (mkStore (ns s')
                  (<[pnode := set_refCount (u16 (refCount e' + 1)) e']>
                     (heap s')), pnode).
Proof.
  intros Hrun Hun Hins.
  assert (Hinv : Inv H s) by (eapply run_Inv; [apply new_store_Inv|done]).
  assert (Hinv' : Inv H s') by by eapply insertNode_Inv.
  apply unpublished_spec in Hun as (Hout & e0 & He0 & Hd0).
  destruct (insertNode_GOOD_bindings _ _ _ _ _ _ _ _ Hinv Hout He0 Hd0 Hins)
    as (nd & Hheap & Hnd & -> & Hvalid & Hin & _ & _ & _ & Hstored).
  eexists. split_and!.
  - rewrite Hheap. apply lookup_insert_eq.
  - done.
  - done.
  - intros e He Hnz. assert (e = e0) as -> by congruence.
    rewrite Hnz in Hnd. by subst nd.
  - apply getNode_stored; [done| |by rewrite Hheap, lookup_insert_eq].
    apply Hstored. by left.
Qed.

(** X4: an [insertNode] that returns [GOOD] adds exactly one binding to
    the table: the NodeId was not in the table before, [count] grows by
    one, and every other NodeId is bound to the entry it was bound to
    (also when the call has resized the table on its way). *)
Theorem insertNode_adds_one_NodeId l s calloc_ok st pnode added s' out :
  run H l new_store = Some s → unpublished s pnode = true →
  UA_NodeMap_insertNode H calloc_ok st None pnode added s
  = Some (s', UA_STATUSCODE_GOOD, out) →
  ∃ nodeid,
    stored s' nodeid pnode ∧
    ¬ (nodeid ∈ present_ids s) ∧
    present_ids s' ≡ₚ nodeid :: present_ids s ∧
    count (ns s') = count (ns s) + 1 ∧
    (∀ nodeid' q, stored s' nodeid' q ↔
                  (q = pnode ∧ nodeid' = nodeid) ∨ stored s nodeid' q) ∧
    (∀ q e, q ≠ pnode → heap s !! q = Some e → heap s' !! q = Some e).
Proof.
  intros Hrun Hun Hins.
  assert (Hinv : Inv H s) by (eapply run_Inv; [apply new_store_Inv|done]).
  apply unpublished_spec in Hun as (Hout & e0 & He0 & Hd0).
  destruct (insertNode_GOOD_bindings _ _ _ _ _ _ _ _ Hinv Hout He0 Hd0 Hins)
    as (nd & Hheap & _ & _ & _ & _ & Hfresh & Hperm & Hcount & Hstored).
  exists (nodeId nd). split_and!; [|done..|].
  - apply Hstored. by left.
  - intros q e Hq He. by rewrite Hheap, lookup_insert_ne.
Qed.

(** The table after an [insertNode] that did not return [GOOD]. *)
Lemma insertNode_failed_bindings calloc_ok st pnode added s s' status out e0 :
  Inv H s → pnode ∉ entries (ns s) → heap s !! pnode = Some e0 →
  deleted e0 = false →
  UA_NodeMap_insertNode H calloc_ok st None pnode added s
  = Some (s', status, out) →
  status ≠ UA_STATUSCODE_GOOD →
  out = None ∧
  present_ids s' ≡ₚ present_ids s ∧
  count (ns s') = count (ns s) ∧
  (∀ nodeid q, stored s' nodeid q ↔ stored s nodeid q) ∧
  ((s' = s ∧ status = UA_STATUSCODE_BADINTERNALERROR ∧ calloc_ok = false) ∨
   (heap s' = delete pnode (heap s) ∧
    (status = UA_STATUSCODE_BADNODEIDEXISTS ∨ status = st ∧ added = true))).
Proof.
  intros Hinv Hout He0 Hd0 Hins Hbad.
  assert (Hvalid := inv_heap H s Hinv pnode e0 He0).
  destruct (insertNode_failed H _ _ _ _ _ _ _ _ _ Hinv Hout He0 Hd0 Hins Hbad)
    as (-> & [(-> & -> & st1 & Hexp & Hst1)
             |(s1 & Hs1 & Hinv1 & Hh1 & -> & Hcase)]).
  { split_and!; [done..|]. left.
    by destruct (expand_failure H _ _ _ _ Hexp Hst1) as (-> & _). }
  assert (Hkeeps : count (ns s1) = count (ns s) ∧
                   present_ids s1 ≡ₚ present_ids s ∧
                   (∀ nodeid p, stored s1 nodeid p ↔ stored s nodeid p) ∧
                   ¬ (pnode ∈ entries (ns s1))).
  { destruct Hs1 as [->|Hexp]; [done|].
    destruct (expand_outcome H _ _ _ _ Hinv Hexp) as (_ & Hc & _ & Hperm & _).
    split_and!; [done..| |].
    - intros nodeid p. by apply (expand_stored H _ _ _ _ _ _ Hinv Hexp).
    - intros Hin. apply Hout. eapply expand_entries; [done| |done].
      unfold NULL, UA_NODEMAP_TOMBSTONE in *. lia. }
  destruct Hkeeps as (Hcount & Hperm & Hstored & Hout1).
  cbn [ns heap]. split_and!; [done| |done| |].
  - rewrite <- Hperm. destruct s1 as [m1 hp1]. cbn [ns heap] in *. subst hp1.
    rewrite (present_ids_frame m1 (heap s) (delete pnode (heap s))); [done|].
    intros q Hq _. rewrite lookup_delete_ne; [done|]. by intros <-.
  - intros nodeid q. rewrite <- Hstored. unfold stored. cbn [ns heap].
    rewrite Hh1.
    split; intros (Hq & Hqin & e & He & Hid); (split_and!; [done..|]);
      exists e; (split; [|done]).
    + rewrite lookup_delete_ne in He; [done|]. by intros <-.
    + rewrite lookup_delete_ne; [done|]. by intros <-.
  - right. split; [done|]. destruct Hcase as [[-> _]|(-> & -> & _)];
      [by left|by right].
Qed.

(** X5: with no concurrent writer (the compare-and-swap of the
    publication is not interfered with), an [insertNode] that reports a
    failure has added nothing: the NodeIds in the table, their entries
    and [count] are as before.  The node is freed, unless the failure is
    the resize of the pre-check that found no memory: then the store is
    untouched and the node is still the caller's.  The caller gets no
    NodeId back. *)
Theorem insertNode_failure_adds_nothing l s calloc_ok st pnode added s'
    status out :
  run H l new_store = Some s → unpublished s pnode = true →
  UA_NodeMap_insertNode H calloc_ok st None pnode added s
  = Some (s', status, out) →
  status ≠ UA_STATUSCODE_GOOD →
  out = None ∧
  present_ids s' ≡ₚ present_ids s ∧
  count (ns s') = count (ns s) ∧
  (∀ nodeid q, stored s' nodeid q ↔ stored s nodeid q) ∧
  ((s' = s ∧ status = UA_STATUSCODE_BADINTERNALERROR ∧ calloc_ok = false) ∨
   (heap s' !! pnode = None ∧
    (∀ q, q ≠ pnode → heap s' !! q = heap s !! q) ∧
    (status = UA_STATUSCODE_BADNODEIDEXISTS ∨ status = st ∧ added = true))).
Proof.
  intros Hrun Hun Hins Hbad.
  assert (Hinv : Inv H s) by (eapply run_Inv; [apply new_store_Inv|done]).
  apply unpublished_spec in Hun as (Hout & e0 & He0 & Hd0).
  destruct (insertNode_failed_bindings _ _ _ _ _ _ _ _ _ Hinv Hout He0 Hd0
              Hins Hbad) as (-> & Hperm & Hcount & Hstored & Hcase).
  split_and!; [done..|].
  destruct Hcase as [?|[Hheap Hstatus]]; [by left|right].
  rewrite Hheap. split_and!; [apply lookup_delete_eq| |done].
  intros q Hq. by rewrite lookup_delete_ne.
Qed.

(** X6: [insertNode] of a node whose NodeId is in the table already (and
    is not the numeric zero that asks for a fresh identifier) returns
    [BADNODEIDEXISTS], frees the node and leaves the table's bindings as
    they are; only a failed allocation in the pre-check's resize comes
    first, with [BADINTERNALERROR].  The call returns in every state with
    at most 1073741789 slots. *)
Theorem insertNode_existing_NodeId l s calloc_ok st pnode added e :
  run H l new_store = Some s → size (ns s) <= 1073741789 →
  unpublished s pnode = true → heap s !! pnode = Some e →
  is_numeric_zero (nodeId (node e)) = false →
  nodeId (node e) ∈ present_ids s →
  ∃ s' status,
    UA_NodeMap_insertNode H calloc_ok st None pnode added s
    = Some (s', status, None) ∧
    (∀ nodeid q, stored s' nodeid q ↔ stored s nodeid q) ∧
    count (ns s') = count (ns s) ∧
    ((status = UA_STATUSCODE_BADNODEIDEXISTS ∧
      heap s' = delete pnode (heap s)) ∨
     (status = UA_STATUSCODE_BADINTERNALERROR ∧ s' = s ∧ calloc_ok = false)).
Proof.
  intros Hrun Hbound Hun He Hnz Hin.
  assert (Hinv : Inv H s) by (eapply run_Inv; [apply new_store_Inv|done]).
  destruct (insertNode_returns H calloc_ok st pnode added s Hinv Hbound Hun)
    as [[[s' status] out] Hins].
  apply unpublished_spec in Hun as (Hout & e0 & He0 & Hd0).
  assert (e0 = e) as -> by congruence.
  destruct (decide (status = UA_STATUSCODE_GOOD)) as [->|Hbad].
  { destruct (insertNode_GOOD_bindings _ _ _ _ _ _ _ _ Hinv Hout He0 Hd0 Hins)
      as (nd & _ & Hnd & _ & _ & _ & Hfresh & _).
    rewrite Hnz in Hnd. subst nd. done. }
  destruct (insertNode_failed_bindings _ _ _ _ _ _ _ _ _ Hinv Hout He0 Hd0
              Hins Hbad) as (-> & _ & Hcount & Hstored & _).
  exists s', status. split_and!; [done..|].
  destruct (insertNode_failed H _ _ _ _ _ _ _ _ _ Hinv Hout He0 Hd0 Hins Hbad)
    as (_ & [(-> & -> & st1 & Hexp & Hst1)
            |(s1 & Hs1 & Hinv1 & Hh1 & -> & [[-> _]|(_ & _ & Hfound)])]).
  - right. by destruct (expand_failure H _ _ _ _ Hexp Hst1) as (-> & _).
  - by left.
  - exfalso. destruct Hfound as (nd & i & Hnd & Hfound).
    rewrite Hnz in Hnd. subst nd.
    assert (Hinv2 : Inv H (mkStore (ns s1)
                             (<[pnode := set_node (node e) e]> (heap s)))).
    { rewrite <- Hh1. apply (Inv_touch H s1 pnode);
        [done|by eapply (inv_heap H s)| |].
      - intros q Hq. by rewrite lookup_insert_ne.
      - intros _ e1 He1. rewrite Hh1 in He1.
        assert (e1 = e) as -> by congruence.
        rewrite lookup_insert_eq. by eexists. }
    destruct (findFreeSlot_sound H _ _ _ i (inv_table H _ Hinv2) Hfound)
      as (_ & _ & Habsent & _).
    cbn [ns heap entries] in Habsent.
    apply elem_of_present_ids in Hin as (p & Hp).
    assert (Hp1 : stored s1 (nodeId (node e)) p).
    { destruct Hs1 as [->|Hexp]; [done|].
      by apply (expand_stored H _ _ _ _ _ _ Hinv Hexp). }
    destruct Hp1 as (Hocc & Hpin & e1 & He1 & Hid).
    apply list_elem_of_lookup in Hpin as [j Hj].
    apply (Habsent j p e1); [done..| |done].
    rewrite lookup_insert_ne; [by rewrite <- Hh1|].
    intros <-. destruct Hp as (_ & Hpin & _). done.
Qed.

(** X7: the search of [insertNode] for a fresh identifier, for a node
    with the numeric identifier zero, always finds one: with no
    concurrent writer (the compare-and-swap of the publication is not
    interfered with), memory available and a successful copy of the
    NodeId for the caller, the call returns [GOOD]; the node is in the
    table under a numeric NodeId of its own namespace that was not in
    the table before.  (In every state with at most 1073741789
    slots.) *)
Theorem insertNode_assigns_fresh_identifier l s st pnode added e :
  run H l new_store = Some s → size (ns s) <= 1073741789 →
  unpublished s pnode = true → heap s !! pnode = Some e →
  is_numeric_zero (nodeId (node e)) = true →
  (added = true → st = UA_STATUSCODE_GOOD) →
  ∃ s' c,
    let nodeid := mkNodeId (namespaceIndex (nodeId (node e)))
                    (UA_NODEIDTYPE_NUMERIC c) in
    UA_NodeMap_insertNode H true st None pnode added s
    = Some (s', UA_STATUSCODE_GOOD, if added then Some nodeid else None) ∧
    stored s' nodeid pnode ∧
    ¬ (nodeid ∈ present_ids s) ∧
    count (ns s') = count (ns s) + 1.
Proof.
  intros Hrun Hbound Hun He Hzero Hcopy.
  assert (Hinv : Inv H s) by (eapply run_Inv; [apply new_store_Inv|done]).
  destruct (insertNode_returns H true st pnode added s Hinv Hbound Hun)
    as [[[s' status] out] Hins].
  apply unpublished_spec in Hun as (Hout & e0 & He0 & Hd0).
  assert (e0 = e) as -> by congruence.
  destruct (decide (status = UA_STATUSCODE_GOOD)) as [->|Hbad].
  { destruct (insertNode_GOOD_bindings _ _ _ _ _ _ _ _ Hinv Hout He0 Hd0 Hins)
      as (nd & _ & Hnd & -> & _ & _ & Hfresh & _ & Hcount & Hstored).
    rewrite Hzero in Hnd. destruct Hnd as [c ->].
    exists s', c. cbv zeta. split_and!; [done| |done|done].
    apply Hstored. by left. }
  exfalso.
  destruct (insertNode_failed H _ _ _ _ _ _ _ _ _ Hinv Hout He0 Hd0 Hins Hbad)
    as (_ & [(_ & _ & st1 & Hexp & Hst1)
            |(s1 & Hs1 & Hinv1 & Hh1 & _ & [[_ Hloop]|(-> & -> & _)])]).
  - by destruct (expand_failure H _ _ _ _ Hexp Hst1) as (? & _).
  - rewrite Hzero in Hloop. destruct Hloop as [hp Hloop].
    assert (Hsize1 : size (ns s1) <= 2147483647).
    { destruct Hs1 as [->|Hexp]; [lia|].
      apply (expand_size_bound H _ _ _ _ Hinv Hbound Hexp). }
    assert (Hrange := primes_range _ (TableInv_size_prime H _ _
                                        (inv_table H _ Hinv1))).
    assert (Hc0 : mod1 (u32 (50000 + size (ns s1) + 1)) UA_UINT32_MAX
                  = 50001 + size (ns s1)).
    { unfold mod1, UA_UINT32_MAX.
      rewrite u32_small by lia. rewrite Z.mod_small by lia. lia. }
    rewrite Hc0 in Hloop. rewrite (u32_small (50001 + _)) in Hloop by lia.
    apply assignNodeId_loop_slot in Hloop as [i Hi]; [done|lia| |lia|lia].
    apply mod2_range; [lia|apply u32_range].
  - by specialize (Hcopy eq_refl).
Qed.

Lemma present_ids_NoDup s : Inv H s → NoDup (present_ids s).
Proof.
  intros [Htable _ _]. apply NoDup_omap. intros i j p q z Hi Hj Hp Hq.
  destruct (decide (UA_NODEMAP_TOMBSTONE < p)); [|done].
  destruct (decide (UA_NODEMAP_TOMBSTONE < q)); [|done].
  destruct (heap s !! p) as [e|] eqn:He; [|done].
  destruct (heap s !! q) as [e'|] eqn:He'; [|done].
  cbn in Hp, Hq. simplify_eq.
  by eapply (inv_nodup H _ _ Htable i j p q e e').
Qed.

(** X8: in every state with at most 1073741789 slots and with no
    concurrent writer, [removeNode] of a NodeId in the table returns
    [GOOD] and takes exactly that binding away: [count] goes down by
    one, the NodeId is not found any more, every other NodeId keeps its
    entry (also through the shrink the call may run), and no other entry
    is touched in memory. *)
Theorem removeNode_removes_one_NodeId l s calloc_ok nodeid p :
  run H l new_store = Some s → size (ns s) <= 1073741789 →
  stored s nodeid p →
  ∃ s',
    UA_NodeMap_removeNode H None calloc_ok nodeid s
    = Some (s', UA_STATUSCODE_GOOD) ∧
    count (ns s') = count (ns s) - 1 ∧
    present_ids s ≡ₚ nodeid :: present_ids s' ∧
    ¬ (nodeid ∈ present_ids s') ∧
    (∀ nodeid' q, stored s' nodeid' q ↔ stored s nodeid' q ∧ q ≠ p) ∧
    (∀ q, q ≠ p → heap s' !! q = heap s !! q) ∧
    UA_NodeMap_getNode H nodeid s' = Some (s', NULL).
Proof.
  intros Hrun Hbound Hstored.
  assert (Hinv : Inv H s) by (eapply run_Inv; [apply new_store_Inv|done]).
  destruct (removeNode_returns H calloc_ok nodeid s Hinv Hbound)
    as [[s' st] Hrem].
  destruct Hstored as (Hocc & Hpin & e & He & <-).
  apply list_elem_of_lookup in Hpin as [n Hn].
  assert (Hinv' : Inv H s') by by eapply removeNode_Inv.
  destruct (removeNode_outcome H _ _ _ _ _ _ _ Hinv Hn Hocc He Hrem)
    as (-> & Hheap & Hcount & Hin & Hperm & _).
  assert (Hother : ∀ q, q ≠ p → heap s' !! q = heap s !! q).
  { intros q Hq. rewrite Hheap. destruct (refCount e =? 0).
    - by rewrite lookup_delete_ne.
    - by rewrite lookup_insert_ne. }
  assert (Hgone : ¬ (nodeId (node e) ∈ present_ids s')).
  { pose proof (present_ids_NoDup s Hinv) as Hnodup.
    rewrite Hperm in Hnodup. by apply NoDup_cons in Hnodup as [? _]. }
  exists s'. split_and!; [done..| | |].
  - intros nodeid' q. unfold stored. split.
    + intros (Hq & Hqin & e' & He' & Hid). apply Hin in Hqin as [Hqin Hqp];
        [|done].
      split; [|done]. split_and!; [done..|]. exists e'.
      by rewrite <- Hother.
    + intros [(Hq & Hqin & e' & He' & Hid) Hqp]. split_and!; [done| |].
      * by apply Hin.
      * exists e'. by rewrite Hother.
  - done.
  - unfold UA_NodeMap_getNode.
    by rewrite (findOccupiedSlot_not_present H s' _ Hinv' Hgone).
Qed.

(** X9: a resize keeps the nodes: after [expand], whether it has moved
    the table or not, every NodeId is bound to the entry it was bound to
    and [getNode] returns the same node as before; the heap and [count]
    are untouched.  The only failure is the allocation of the new array,
    which leaves the store as it is. *)
Theorem expand_keeps_all_nodes l s calloc_ok s' st :
  run H l new_store = Some s →
  expand H calloc_ok s = Some (s', st) →
  heap s' = heap s ∧ count (ns s') = count (ns s) ∧
  present_ids s' ≡ₚ present_ids s ∧
  (∀ nodeid p, stored s' nodeid p ↔ stored s nodeid p) ∧
  (∀ nodeid, snd <$> UA_NodeMap_getNode H nodeid s'
             = snd <$> UA_NodeMap_getNode H nodeid s) ∧
  (st = UA_STATUSCODE_GOOD ∨
   st = UA_STATUSCODE_BADOUTOFMEMORY ∧ s' = s ∧ calloc_ok = false).
Proof.
  intros Hrun Hexp.
  assert (Hinv : Inv H s) by (eapply run_Inv; [apply new_store_Inv|done]).
  assert (Hinv' : Inv H s') by by eapply expand_Inv.
  destruct (expand_outcome H _ _ _ _ Hinv Hexp)
    as (Hheap & Hcount & _ & Hperm & Hst & _).
  assert (Hstored : ∀ nodeid p, stored s' nodeid p ↔ stored s nodeid p).
  { intros nodeid p. apply (expand_stored H _ _ _ _ _ _ Hinv Hexp). }
  split_and!; [done..| |].
  - intros nodeid.
    destruct (decide (nodeid ∈ present_ids s)) as [Hin|Hout].
    + apply elem_of_present_ids in Hin as (p & Hp).
      destruct (stored_heap _ _ _ Hp) as (e & He & _).
      rewrite (getNode_stored H s nodeid p e) by done.
      rewrite (getNode_stored H s' nodeid p e);
        [done|done|by apply Hstored|by rewrite Hheap].
    + assert (Hout' : nodeid ∉ present_ids s') by by rewrite Hperm.
      unfold UA_NodeMap_getNode.
      rewrite (findOccupiedSlot_not_present H s _ Hinv Hout).
      by rewrite (findOccupiedSlot_not_present H s' _ Hinv' Hout').
  - destruct (decide (st = UA_STATUSCODE_GOOD)) as [|Hbad]; [by left|right].
    by destruct (expand_failure H _ _ _ _ Hexp Hbad) as (-> & -> & ->).
Qed.

(** X10: when [expand] does resize, the new capacity is the smallest
    prime of the ladder that is not below twice the count (computed in 32
    bits), the new array has that many cells, and none of them holds a
    tombstone.  It does not resize a table that is less than half full
    and either more than an eighth full or of at most 64 slots. *)
Theorem expand_resizes_to_twice_the_count l s calloc_ok s' st :
  run H l new_store = Some s →
  expand H calloc_ok s = Some (s', st) →
  (u32 (count (ns s) * 2) < size (ns s) →
   size (ns s) < u32 (count (ns s) * 8) ∨ size (ns s) <= UA_NODEMAP_MINSIZE →
   s' = s ∧ st = UA_STATUSCODE_GOOD) ∧
  (s' ≠ s →
   size (ns s') ∈ primes ∧
   Z.of_nat (length (entries (ns s'))) = size (ns s') ∧
   u32 (count (ns s) * 2) <= size (ns s') ∧
   (∀ q, q ∈ primes → u32 (count (ns s) * 2) <= q → size (ns s') <= q) ∧
   (∀ q, q ∈ entries (ns s') → q = NULL ∨ UA_NODEMAP_TOMBSTONE < q)).
Proof.
  intros Hrun Hexp.
  assert (Hinv : Inv H s) by (eapply run_Inv; [apply new_store_Inv|done]).
  assert (Hinv' : Inv H s') by by eapply expand_Inv.
  split.
  - intros Hhalf Hband. unfold expand in Hexp.
    apply Z.ltb_lt in Hhalf. rewrite Hhalf in Hexp.
    assert ((size (ns s) <? u32 (count (ns s) * 8))
            || (size (ns s) <=? UA_NODEMAP_MINSIZE) = true) as Hb.
    { apply orb_true_iff. destruct Hband; [left|right].
      - by apply Z.ltb_lt.
      - by apply Z.leb_le. }
    rewrite Hb in Hexp. cbn in Hexp. by simplify_eq.
  - intros Hne.
    destruct (expand_outcome H _ _ _ _ Hinv Hexp)
      as (_ & _ & _ & _ & _ & [->|(Hclean & Hidx & Hprime)]); [done|].
    destruct (higher_prime_index_total (u32 (count (ns s) * 2)))
      as (i & Hi & Hr & Hlow & Hhigh & _).
    assert (i = sizePrimeIndex (ns s')) as -> by congruence.
    split_and!; [by eapply list_elem_of_lookup_2| | | |done].
    + apply (inv_length H _ _ (inv_table H s' Hinv')).
    + eapply Hhigh; [|done]. lia.
    + intros q Hq Hge. apply list_elem_of_lookup in Hq as [j Hj].
      destruct (Z.lt_ge_cases (Z.of_nat j) (sizePrimeIndex (ns s')))
        as [Hlt|Hge'].
      * assert (q < u32 (count (ns s) * 2)); [|lia].
        apply (Hlow (Z.of_nat j)); [lia|by rewrite Nat2Z.id].
      * apply (primes_lookup_le (Z.to_nat (sizePrimeIndex (ns s'))) j);
          [done|done|lia].
Qed.

End MapBehaviour.

(** ** The prime ladder is searched correctly *)

(** X11: for every request that the ladder can serve,
    [higher_prime_index] returns the index of the smallest prime of the
    ladder that is not below the request; for a larger request it returns
    30, one past the last index of the array. *)
Theorem higher_prime_index_smallest_prime (n : Z) :
  (n <= 4294967291 →
   ∃ i p, higher_prime_index n = Some i ∧ 0 <= i < 30 ∧
          primes !! Z.to_nat i = Some p ∧ n <= p ∧
          ∀ q, q ∈ primes → n <= q → p <= q) ∧
  (4294967291 < n →
   higher_prime_index n = Some 30 ∧ primes !! Z.to_nat 30 = None).
Proof.
  destruct (higher_prime_index_total n) as (i & Hi & Hr & Hlow & Hhigh & Hlt).
  split.
  - intros Hn. specialize (Hlt Hn).
    destruct (lookup_lt_is_Some_2 primes (Z.to_nat i)) as [p Hp].
    { change (length primes) with 30%nat. lia. }
    exists i, p. split_and!; [done|lia|lia|done| |].
    + eapply Hhigh; [|done]. lia.
    + intros q Hq Hge. apply list_elem_of_lookup in Hq as [j Hj].
      destruct (Z.lt_ge_cases (Z.of_nat j) i) as [Hji|Hji].
      * assert (q < n); [|lia].
        apply (Hlow (Z.of_nat j)); [lia|by rewrite Nat2Z.id].
      * apply (primes_lookup_le (Z.to_nat i) j); [done|done|lia].
  - intros Hn. split; [|reflexivity].
    destruct (Z.lt_ge_cases i 30) as [Hsmall|Hbig].
    + assert (n <= 4294967291); [|lia].
      apply (Hhigh 29); [lia|reflexivity].
    + assert (i = 30) as -> by lia. done.
Qed.

(** ** Allocation and reference round trips *)

Section RoundTrips.

Variable H : UA_NodeId → Z.

Lemma live_entries_allocated s p :
  Inv H s → p ∈ entries (ns s) → heap s !! p = None →
  ¬ UA_NODEMAP_TOMBSTONE < p.
Proof.
  intros [Htable _ _] Hin Hnone Hocc.
  destruct (inv_live H _ _ Htable p Hin Hocc) as (e & He & _). congruence.
Qed.


(** X13: a reference taken with [getNode] and given back with
    [releaseNode] leaves the store exactly as it was, as long as the
    16-bit reference count does not overflow; on a node with 65535
    references the count wraps to zero, and the release runs into its
    assertion. *)
Theorem getNode_releaseNode_round_trip l s nodeid s' p e :
  run H l new_store = Some s →
  UA_NodeMap_getNode H nodeid s = Some (s', p) → p ≠ NULL →
  heap s !! p = Some e →
  (refCount e < 65535 → UA_NodeMap_releaseNode p s' = Some s) ∧
  (refCount e = 65535 →
   (∃ e', heap s' !! p = Some e' ∧ refCount e' = 0) ∧
   UA_NodeMap_releaseNode p s' = None).
Proof.
  intros Hrun Hget Hp He.
  assert (Hinv : Inv H s) by (eapply run_Inv; [apply new_store_Inv|done]).
  assert (Hrc : refCounts_16bit (heap s)).
  { eapply run_refCounts; [apply new_store_Inv| |done]. by intros q e'. }
  specialize (Hrc p e He).
  unfold UA_NodeMap_getNode in Hget.
  destruct (findOccupiedSlot H (ns s) (heap s) nodeid) as [[i|]|] eqn:Hslot;
    [| |done]; cbn in Hget; [|by simplify_eq].
  destruct (findOccupiedSlot_found H _ _ _ _ Hslot)
    as (q & e0 & Hq & Hocc & He0 & _).
  rewrite Hq in Hget. cbn in Hget. rewrite He0 in Hget. cbn in Hget.
  simplify_eq.
  destruct (inv_live H _ _ (inv_table H s Hinv) p) as (e1 & He1 & Hdel & _);
    [by eapply list_elem_of_lookup_2|done|].
  assert (e1 = e) as -> by congruence.
  unfold UA_NodeMap_releaseNode. cbn [ns heap].
  apply Z.eqb_neq in Hp as ->. rewrite lookup_insert_eq.
  cbn [mbind option_bind refCount set_refCount].
  split.
  - intros Hsmall. rewrite (u16_small (refCount e + 1)) by lia.
    assert ((0 <? refCount e + 1) = true) as -> by (apply Z.ltb_lt; lia).
    unfold cleanupNodeMapEntry. rewrite lookup_insert_eq.
    cbn [mbind option_bind deleted set_refCount]. rewrite Hdel. cbn [andb].
    rewrite insert_insert_eq.
    replace (refCount e + 1 - 1) with (refCount e) by lia.
    rewrite u16_small by lia.
    assert (set_refCount (refCount e) (set_refCount (refCount e + 1) e) = e)
      as -> by (by destruct e).
    rewrite insert_id by done. cbn. by destruct s.
  - intros Hmax. rewrite Hmax. split; [|done].
    eexists. split; [done|]. done.
Qed.

(** X14: a copy that [getNodeCopy] has handed out and that is given
    back with [deleteNode] leaves the store exactly as it was; while it
    is out, the copy is a node of the client's own, in no slot, with the
    content of the node it was made from. *)
Theorem getNodeCopy_deleteNode_round_trip l s alloc nodeid s' out :
  run H l new_store = Some s →
  UA_NodeMap_getNodeCopy H alloc UA_STATUSCODE_GOOD nodeid s
  = Some (s', UA_STATUSCODE_GOOD, out) →
  unpublished s' out = true ∧
  (∃ p e, stored s nodeid p ∧ heap s !! p = Some e ∧
          heap s' !! out = Some (mkEntry 0 p 0 false (node e))) ∧
  UA_NodeMap_deleteNode out s' = Some s.
Proof.
  intros Hrun Hcopy.
  assert (Hinv : Inv H s) by (eapply run_Inv; [apply new_store_Inv|done]).
  unfold UA_NodeMap_getNodeCopy in Hcopy.
  destruct (findOccupiedSlot H (ns s) (heap s) nodeid) as [[i|]|] eqn:Hslot;
    [| |done]; [|cbn in Hcopy; by simplify_eq].
  destruct (findOccupiedSlot_found H _ _ _ _ Hslot)
    as (p & e & Hp & Hocc & He & _ & Hid).
  cbn [mbind option_bind] in Hcopy.
  rewrite Hp in Hcopy. cbn [mbind option_bind] in Hcopy.
  rewrite He in Hcopy. cbn [mbind option_bind] in Hcopy.
  destruct (createEntry_spec alloc (nodeClass (node e)) (heap s))
    as [Hnull|(q & Hq & Hfresh & Hcreate)].
  { rewrite Hnull in Hcopy. cbn in Hcopy. by simplify_eq. }
  rewrite Hcreate in Hcopy.
  assert ((q =? NULL) = false) as Hqn
    by (apply Z.eqb_neq; unfold NULL, UA_NODEMAP_TOMBSTONE in *; lia).
  rewrite Hqn in Hcopy. rewrite decide_True in Hcopy by done.
  rewrite lookup_insert_eq in Hcopy. cbn in Hcopy. simplify_eq.
  rewrite insert_insert_eq.
  split_and!.
  - apply unpublished_spec. cbn [ns heap]. split.
    + intros Hin. by apply (live_entries_allocated s out Hinv Hin).
    + eexists. by rewrite lookup_insert_eq.
  - exists p, e. split_and!; [|done|cbn [heap]; by rewrite lookup_insert_eq].
    split_and!; [done|by eapply list_elem_of_lookup_2|by exists e].
  - unfold UA_NodeMap_deleteNode, deleteNodeMapEntry. cbn [ns heap].
    rewrite lookup_insert_eq. cbn [mbind option_bind].
    rewrite delete_insert_eq, delete_id by done. by destruct s.
Qed.

End RoundTrips.

(** ** Replacing a node *)

Section Replace.

Variable H : UA_NodeId → Z.

(** X15: after a [replaceNode] that returned [GOOD], the NodeId is bound
    to the new entry: [getNode] returns it, with the cached hash of the
    entry it replaced; the replaced entry is in no slot any more; the
    NodeIds in the table, [count] and the bindings of all other NodeIds
    are as before. *)
Theorem replaceNode_then_getNode l s pnode e s' :
  run H l new_store = Some s →
  unpublished s pnode = true → heap s !! pnode = Some e →
  UA_NodeMap_replaceNode H None pnode s = Some (s', UA_STATUSCODE_GOOD) →
  ∃ old,
    stored s (nodeId (node e)) (orig e) ∧ heap s !! orig e = Some old ∧
    heap s' !! pnode = Some (set_nodeIdHash (nodeIdHash old) e) ∧
    stored s' (nodeId (node e)) pnode ∧
    ¬ (orig e ∈ entries (ns s')) ∧
    present_ids s' = present_ids s ∧
    count (ns s') = count (ns s) ∧
    (∀ nodeid q, q ≠ pnode → q ≠ orig e →
                 stored s' nodeid q ↔ stored s nodeid q) ∧
    UA_NodeMap_getNode H (nodeId (node e)) s'
    = Some (mkStore (ns s')
              (<[pnode := set_refCount (u16 (refCount e + 1))
                            (set_nodeIdHash (nodeIdHash old) e)]> (heap s')),
            pnode).
Proof.
  intros Hrun Hun He Hrep.
  assert (Hinv : Inv H s) by (eapply run_Inv; [apply new_store_Inv|done]).
  assert (Hinv' : Inv H s') by by eapply replaceNode_Inv.
  apply unpublished_spec in Hun as (Hout & e0 & He0 & Hd0).
  assert (e0 = e) as -> by congruence.
  assert (Hvalid := inv_heap H s Hinv pnode e He).
  destruct (replaceNode_spec H pnode e s He Hout) as [Hnone Hsome].
  destruct (findOccupiedSlot_returns H (ns s) (heap s) (nodeId (node e))
              (inv_table H s Hinv)) as [[i|] Hslot];
    [|rewrite (Hnone Hslot) in Hrep; by simplify_eq].
  destruct (Hsome i Hslot) as (oldEntry & old & Hold & Hheap & Hid & Hne & Heq).
  destruct (decide (oldEntry = orig e)) as [->|Hdiff];
    [|rewrite (Hne Hdiff) in Hrep; by simplify_eq].
  rewrite (Heq eq_refl) in Hrep. simplify_eq. clear Hne Heq Hnone Hsome.
  assert (Hocc := inv_heap H s Hinv _ _ Hheap).
  assert (Hneq : orig e ≠ pnode).
  { intros Heq. apply Hout. rewrite <- Heq. by eapply list_elem_of_lookup_2. }
  set (e' := set_nodeIdHash (nodeIdHash old) e) in *.
  set (hp' := if refCount old =? 0 then _ else _) in *.
  assert (Hnew : hp' !! pnode = Some e').
  { subst hp'. cbv zeta. destruct (refCount old =? 0).
    - rewrite lookup_delete_ne by done. apply lookup_insert_eq.
    - rewrite lookup_insert_ne by done. apply lookup_insert_eq. }
  assert (Hother : ∀ q, q ≠ pnode → q ≠ orig e → hp' !! q = heap s !! q).
  { intros q Hq1 Hq2. subst hp'. cbv zeta. destruct (refCount old =? 0).
    - rewrite lookup_delete_ne by done. by rewrite lookup_insert_ne.
    - rewrite lookup_insert_ne by done. by rewrite lookup_insert_ne. }
  assert (Hunique : ∀ (j : nat), entries (ns s) !! j = Some (orig e) →
                                 j = Z.to_nat i).
  { intros j Hj.
    by eapply (TableInv_ptr_inj H _ _ j (Z.to_nat i) _ (inv_table H s Hinv)). }
  assert (Hin' : pnode ∈ <[Z.to_nat i:=pnode]> (entries (ns s))).
  { apply list_elem_of_lookup. exists (Z.to_nat i).
    apply list_lookup_insert_eq. by eapply lookup_lt_Some. }
  assert (Hstored' : stored (mkStore (set_entries (<[Z.to_nat i:=pnode]>
                                                     (entries (ns s))) (ns s))
                               hp') (nodeId (node e)) pnode).
  { split_and!; [done|done|]. by exists e'. }
  exists old. cbn [ns heap count entries set_entries].
  split_and!; [|done|done|done| | |done| |].
  - split_and!; [done|by eapply list_elem_of_lookup_2|]. by exists old.
  - intros Hin. apply list_elem_of_lookup in Hin as [j Hj].
    apply list_lookup_insert_Some in Hj as [(_ & ? & _)|[Hjn Hj]]; [done|].
    apply Hjn. symmetry. by apply Hunique.
  - destruct s as [m hp]. cbn [ns heap] in *.
    apply (present_ids_replace m hp hp' (Z.to_nat i) (orig e) old pnode e');
      [done..| |].
    + by rewrite Hid.
    + intros j r Hj Hr Hrocc. apply Hother.
      * intros ->. apply Hout. by eapply list_elem_of_lookup_2.
      * intros ->. apply Hj. by apply Hunique.
  - intros nodeid q Hq1 Hq2. unfold stored.
    cbn [ns heap entries set_entries]. rewrite (Hother q Hq1 Hq2).
    split; intros (Hq & Hqin & Hrest); (split_and!; [done| |done]).
    + apply elem_of_insert_inv in Hqin as [?|?]; done.
    + apply list_elem_of_lookup in Hqin as [k Hk].
      apply list_elem_of_lookup. exists k.
      rewrite list_lookup_insert_ne; [done|]. intros <-. congruence.
  - by apply (getNode_stored H _ _ _ e' Hinv' Hstored').
Qed.

End Replace.

(** ** Traversal and tear-down *)

Lemma visit_each_idle s (l : list Z) :
  (∀ p, p ∈ l → ∃ e, heap s !! p = Some e ∧ deleted e = false ∧
                     0 <= refCount e < 65536) →
  visit_each (λ _ s0, Some s0) l s = Some s.
Proof.
  induction l as [|p l IH]; intros Hl; [done|].
  cbn [visit_each].
  destruct (Hl p) as (e & He & Hdel & Hrc); [by left|].
  rewrite (iterate_visit_idle s p e) by done. cbn [mbind option_bind].
  apply IH. intros q Hq. apply Hl. by right.
Qed.

Section Traversal.

Variable H : UA_NodeId → Z.

(** X16: [iterate] with a visitor that leaves the table alone shows it
    the entries of the occupied slots, in the order of the array, each
    entry once (no entry is in two slots) and pinned during its visit;
    empty cells and tombstones are skipped.  The loop takes [size]
    rounds. *)
Theorem iterate_visits_each_entry_once l s fuel visitor :
  run H l new_store = Some s →
  (∀ p s0 s1, visitor p s0 = Some s1 → ns s1 = ns s0) →
  (Z.to_nat (size (ns s)) < fuel)%nat →
  UA_NodeMap_iterate fuel visitor s
  = visit_each visitor
      (filter (λ p, UA_NODEMAP_TOMBSTONE < p) (entries (ns s))) s ∧
  NoDup (filter (λ p, UA_NODEMAP_TOMBSTONE < p) (entries (ns s))).
Proof.
  intros Hrun Hvis Hfuel.
  assert (Hinv : Inv H s) by (eapply run_Inv; [apply new_store_Inv|done]).
  assert (Htable := inv_table H s Hinv).
  assert (Hlen := inv_length H _ _ Htable).
  assert (Hrange := primes_range _ (TableInv_size_prime H _ _ Htable)).
  split.
  - unfold UA_NodeMap_iterate.
    pose proof (iterate_loop_visits visitor Hvis fuel 0 s Hlen
                  ltac:(lia) ltac:(lia) ltac:(lia)) as Hloop.
    rewrite drop_0 in Hloop. exact Hloop.
  - apply NoDup_occupied. intros i j p Hi Hj Hp.
    by eapply (TableInv_ptr_inj H _ _ i j p Htable).
Qed.

(** X17: an [iterate] whose visitor calls nothing leaves the store
    exactly as it was: every pin is undone and no entry is freed. *)
Theorem iterate_without_calls_changes_nothing l s fuel :
  run H l new_store = Some s →
  (Z.to_nat (size (ns s)) < fuel)%nat →
  apply_op H (OpIterate fuel (λ _ _, [])) s = Some s.
Proof.
  intros Hrun Hfuel.
  assert (Hinv : Inv H s) by (eapply run_Inv; [apply new_store_Inv|done]).
  assert (Hrc : refCounts_16bit (heap s)).
  { eapply run_refCounts; [apply new_store_Inv| |done]. by intros q e'. }
  assert (Htable := inv_table H s Hinv).
  assert (Hlen := inv_length H _ _ Htable).
  assert (Hrange := primes_range _ (TableInv_size_prime H _ _ Htable)).
  cbn [apply_op]. unfold UA_NodeMap_iterate.
  change (λ (p : Z) (s' : Store), run_base H [] s')
    with (λ (_ : Z) (s' : Store), Some s').
  assert (Hvis : ∀ (p : Z) (s0 s1 : Store),
            (λ (_ : Z) (s' : Store), Some s') p s0 = Some s1 → ns s1 = ns s0).
  { intros p s0 s1 Heq. by simplify_eq. }
  pose proof (iterate_loop_visits _ Hvis fuel 0 s Hlen
                ltac:(lia) ltac:(lia) ltac:(lia)) as Hloop.
  rewrite drop_0 in Hloop.
  etrans; [exact Hloop|].
  apply visit_each_idle. intros p Hp.
  apply list_elem_of_filter in Hp as [Hocc Hp].
  destruct (inv_live H _ _ Htable p Hp Hocc) as (e & He & Hdel & _).
  exists e. pose proof (Hrc p e He). split_and!; [done|done|lia|lia].
Qed.

(** X18: [UA_NodeMap_delete] on a store whose nodes have all been
    released frees every entry that is in a slot and nothing else:
    entries that are in no slot (nodes the client still owns, removed
    nodes that are still referenced) stay allocated.  With a node in the
    table that is still referenced, the run ends at the assertion. *)
Theorem NodeMap_delete_frees_the_table_entries l s :
  run H l new_store = Some s →
  ((∀ p e, p ∈ entries (ns s) → heap s !! p = Some e → refCount e = 0) →
   ∃ hp, UA_NodeMap_delete s = Some hp ∧
         ∀ p, hp !! p = if decide (p ∈ entries (ns s)) then None
                        else heap s !! p) ∧
  (∀ p e, p ∈ entries (ns s) → heap s !! p = Some e → refCount e ≠ 0 →
          UA_NodeMap_delete s = None).
Proof.
  intros Hrun.
  assert (Hinv : Inv H s) by (eapply run_Inv; [apply new_store_Inv|done]).
  assert (Htable := inv_table H s Hinv).
  assert (Hlen := inv_length H _ _ Htable).
  assert (Hrange := primes_range _ (TableInv_size_prime H _ _ Htable)).
  assert (Hnodup : NoDup (filter (λ p, UA_NODEMAP_TOMBSTONE < p)
                            (drop 0 (entries (ns s))))).
  { rewrite drop_0. apply NoDup_occupied. intros i j p Hi Hj Hp.
    by eapply (TableInv_ptr_inj H _ _ i j p Htable). }
  unfold UA_NodeMap_delete. split.
  - intros Hfree.
    destruct (delete_loop_frees (entries (ns s)) (size (ns s)) Hlen
                ltac:(lia) (S (Z.to_nat (size (ns s)))) 0 (heap s))
      as (hp & Hloop & Hhp); [lia|lia| |done|].
    { intros p Hp Hocc. rewrite drop_0 in Hp.
      destruct (inv_live H _ _ Htable p Hp Hocc) as (e & He & _).
      exists e. split; [done|]. by eapply Hfree. }
    exists hp. split; [done|]. intros p. rewrite Hhp, drop_0.
    destruct (decide (p ∈ entries (ns s))) as [Hin|Hout].
    + destruct (decide (UA_NODEMAP_TOMBSTONE < p ∧ p ∈ entries (ns s)))
        as [|Hn]; [done|].
      destruct (heap s !! p) as [e|] eqn:He; [|done].
      exfalso. apply Hn. split; [|done]. by eapply (inv_heap H s Hinv).
    + rewrite decide_False; [done|]. by intros [_ ?].
  - intros p e Hp He Hrc.
    eapply (delete_loop_asserts (entries (ns s)) (size (ns s)) Hlen
              ltac:(lia) _ 0 (heap s) p e); [lia|by rewrite drop_0| |done..].
    by eapply (inv_heap H s Hinv).
Qed.

End Traversal.

(** ** The load of the table *)

Section Load.

Variable H : UA_NodeId → Z.

(** After [expand] the table is the old one or at most half full. *)
Lemma expand_load calloc_ok s s' st :
  Inv H s → size (ns s) <= 2147483647 →
  expand H calloc_ok s = Some (s', st) →
  count (ns s') = count (ns s) ∧
  (s' = s ∨ count (ns s') * 2 <= size (ns s')).
Proof.
  intros Hinv Hbound Hexp.
  destruct (expand_outcome H _ _ _ _ Hinv Hexp)
    as (_ & Hcount & _ & _ & _ & [->|(_ & Hidx & Hprime)]);
    [by split; [|left]|].
  split; [done|right].
  pose proof (Inv_count_le H s Hinv) as Hc.
  rewrite u32_small in Hidx by lia.
  destruct (higher_prime_index_total (count (ns s) * 2))
    as (i & Hi & _ & _ & Hhigh & _).
  assert (i = sizePrimeIndex (ns s')) as -> by congruence.
  rewrite Hcount. eapply Hhigh; [|done]. lia.
Qed.

Lemma apply_base_load o s s' :
  Inv H s → size (ns s) <= 1073741789 →
  count (ns s) * 4 < size (ns s) * 3 + 4 →
  apply_base H o s = Some s' →
  count (ns s') * 4 < size (ns s') * 3 + 4.
Proof.
  intros Hinv Hbound Hload Ho.
  pose proof (Inv_count_le H s Hinv) as Hc.
  assert (Hrange := primes_range _ (TableInv_size_prime H _ _
                                      (inv_table H s Hinv))).
  assert (Hexpand : ∀ ok s0 s1 st, Inv H s0 → size (ns s0) <= 1073741789 →
            count (ns s0) * 4 < size (ns s0) * 3 + 4 →
            expand H ok s0 = Some (s1, st) →
            count (ns s1) * 4 < size (ns s1) * 3 + 4).
  { intros ok s0 s1 st Hinv0 Hb0 Hl0 Hexp.
    pose proof (Inv_count_le H s0 Hinv0).
    destruct (expand_load ok s0 s1 st Hinv0 ltac:(lia) Hexp)
      as [Hcnt [->|Hhalf]]; [done|lia]. }
  destruct o as [alloc cls|pnode n|pnode|nodeid|pnode|alloc st nodeid
                |ok st pnode added|pnode|ok nodeid|ok]; cbn in Ho.
  - simplify_eq. unfold UA_NodeMap_newNode.
    destruct (createEntry alloc cls (heap s)) as [entry hp].
    by destruct (entry =? NULL).
  - destruct (unpublished s pnode); [|done].
    destruct (heap s !! pnode); [|done]. cbn in Ho. by simplify_eq.
  - destruct (unpublished s pnode); [|done].
    unfold UA_NodeMap_deleteNode in Ho.
    destruct (deleteNodeMapEntry pnode (heap s)); [|done]. cbn in Ho.
    by simplify_eq.
  - unfold UA_NodeMap_getNode in Ho.
    destruct (findOccupiedSlot H (ns s) (heap s) nodeid) as [[i|]|];
      [| |done]; cbn in Ho; [|by simplify_eq].
    destruct (entries (ns s) !! Z.to_nat i) as [p|]; [|done]. cbn in Ho.
    destruct (heap s !! p) as [e|]; [|done]. cbn in Ho. by simplify_eq.
  - unfold UA_NodeMap_releaseNode in Ho.
    destruct (pnode =? NULL); [by simplify_eq|].
    destruct (heap s !! pnode) as [e|]; [|done]. cbn in Ho.
    destruct (0 <? refCount e); [|done].
    destruct (cleanupNodeMapEntry _ _) as [hp'|]; [|done].
    cbn in Ho. by simplify_eq.
  - destruct (UA_NodeMap_getNodeCopy H alloc st nodeid s)
      as [[[s0 st0] out]|] eqn:Hcopy; [|done].
    cbn in Ho. simplify_eq.
    apply getNodeCopy_heap in Hcopy as [Hns _]. by rewrite Hns.
  - destruct (unpublished s pnode) eqn:Hun; [|done].
    apply unpublished_spec in Hun as (Hout & e0 & He0 & Hd0).
    destruct (UA_NodeMap_insertNode H ok st None pnode added s)
      as [[[s0 st0] out]|] eqn:Hins; [|done].
    cbn in Ho. simplify_eq.
    destruct (decide (st0 = UA_STATUSCODE_GOOD)) as [->|Hbad].
    + destruct (insertNode_GOOD H _ _ _ _ _ _ _ _ Hinv Hout He0 Hd0 Hins)
        as (s1 & i & x & nd & Hpre & Hinv1 & _ & _ & _ & _ & _ & _ & -> & _).
      cbn [ns count size set_count set_entries].
      rewrite (u32_small (size (ns s) * 3)), (u32_small (count (ns s) * 4))
        in Hpre by lia.
      destruct (Z.leb_spec (size (ns s) * 3) (count (ns s) * 4)) as [Hfull|Hroom].
      * destruct (expand_room H _ _ _ Hinv Hbound Hfull Hpre) as [Hhalf _].
        assert (Hrange1 := primes_range _ (TableInv_size_prime H _ _
                                             (inv_table H s1 Hinv1))).
        lia.
      * simplify_eq. lia.
    + destruct (insertNode_failed H _ _ _ _ _ _ _ _ _ Hinv Hout He0 Hd0 Hins
                  Hbad) as (_ & [(_ & -> & _)|(s1 & Hs1 & _ & _ & -> & _)]);
        [done|].
      cbn [ns]. destruct Hs1 as [->|Hexp]; [done|].
      by eapply (Hexpand ok s s1).
  - destruct (unpublished s pnode) eqn:Hun; [|done].
    apply unpublished_spec in Hun as (Hout & e0 & He0 & Hd0).
    destruct (replaceNode_spec H pnode e0 s He0 Hout) as [Hnone Hsome].
    destruct (findOccupiedSlot_returns H (ns s) (heap s) (nodeId (node e0))
                (inv_table H s Hinv)) as [[i|] Hslot].
    + destruct (Hsome i Hslot) as (oldEntry & old & _ & _ & _ & Hne & Heq).
      destruct (decide (oldEntry = orig e0)) as [Hsame|Hdiff].
      * rewrite (Heq Hsame) in Ho. cbn in Ho. by simplify_eq.
      * rewrite (Hne Hdiff) in Ho. cbn in Ho. by simplify_eq.
    + rewrite (Hnone Hslot) in Ho. cbn in Ho. by simplify_eq.
  - destruct (UA_NodeMap_removeNode H None ok nodeid s) as [[s0 st0]|] eqn:Hrem;
      [|done].
    cbn in Ho. simplify_eq.
    destruct (findOccupiedSlot_returns H (ns s) (heap s) nodeid
                (inv_table H s Hinv)) as [[i|] Hslot].
    + destruct (findOccupiedSlot_found H _ _ _ _ Hslot)
        as (p & e & Hp & Hocc & He & _ & <-).
      destruct (removeNode_outcome H _ _ _ _ _ _ _ Hinv Hp Hocc He Hrem)
        as (_ & _ & _ & _ & _ & mid & Hmid & Hsz & Hcnt & [->|[st1 Hexp]]).
      * lia.
      * eapply (Hexpand ok mid s'); [done|lia|lia|done].
    + unfold UA_NodeMap_removeNode in Hrem. rewrite Hslot in Hrem.
      cbn in Hrem. by simplify_eq.
  - destruct (expand H ok s) as [[s0 st0]|] eqn:Hexp; [|done].
    cbn in Ho. simplify_eq. by eapply (Hexpand ok s s').
Qed.

(** X19: no call of the interface fills the table beyond three quarters
    (plus the node just added): a state with
    [count * 4 < size * 3 + 4] is followed by such states, so that there
    is always a cell that is not occupied.  (For tables of at most
    1073741789 slots, where the 32-bit products of the load checks do
    not wrap.) *)
Theorem load_stays_below_three_quarters l s o s' :
  run H l new_store = Some s → size (ns s) <= 1073741789 →
  count (ns s) * 4 < size (ns s) * 3 + 4 →
  apply_base H o s = Some s' →
  count (ns s') * 4 < size (ns s') * 3 + 4 ∧
  count (ns s') < size (ns s') ∧
  (occupied (entries (ns s')) < length (entries (ns s')))%nat.
Proof.
  intros Hrun Hbound Hload Ho.
  assert (Hinv : Inv H s) by (eapply run_Inv; [apply new_store_Inv|done]).
  assert (Hinv' : Inv H s') by by eapply apply_base_Inv.
  pose proof (apply_base_load o s s' Hinv Hbound Hload Ho) as Hload'.
  assert (Hrange := primes_range _ (TableInv_size_prime H _ _
                                      (inv_table H s' Hinv'))).
  pose proof (inv_count H s' Hinv').
  pose proof (inv_length H _ _ (inv_table H s' Hinv')).
  split_and!; [done|lia|lia].
Qed.

End Load.

(** ** Slots *)

Section Slots.

Variable H : UA_NodeId → Z.

(** X20: [findFreeSlot] returns [NULL] for a NodeId that is in the
    table; for one that is not, it returns the first cell on the probe
    path of the NodeId that is not occupied (a tombstone is taken before
    the empty cell behind it), and it finds such a cell whenever the
    table has one. *)
Theorem findFreeSlot_picks_first_free_cell l s nodeid :
  run H l new_store = Some s →
  ∃ r, findFreeSlot H (ns s) (heap s) nodeid = Some r ∧
    (nodeid ∈ present_ids s → r = None) ∧
    (¬ (nodeid ∈ present_ids s) →
     (occupied (entries (ns s)) < length (entries (ns s)))%nat →
     is_Some r) ∧
    (∀ i, r = Some i →
       ¬ (nodeid ∈ present_ids s) ∧
       ∃ k : nat,
         probe_cycle (UA_NodeId_hash H nodeid) (size (ns s)) !! k = Some i ∧
         (∃ x, entries (ns s) !! Z.to_nat i = Some x ∧
               ¬ UA_NODEMAP_TOMBSTONE < x) ∧
         ∀ (j : nat) x', (j < k)%nat →
           probe_cycle (UA_NodeId_hash H nodeid) (size (ns s)) !! j = Some x' →
           ∃ p, entries (ns s) !! Z.to_nat x' = Some p ∧
                UA_NODEMAP_TOMBSTONE < p).
Proof.
  intros Hrun.
  assert (Hinv : Inv H s) by (eapply run_Inv; [apply new_store_Inv|done]).
  assert (Htable := inv_table H s Hinv).
  destruct (findFreeSlot_returns H (ns s) (heap s) nodeid Htable) as [r Hr].
  exists r. split_and!; [done| | |].
  - intros Hin. apply elem_of_present_ids in Hin
      as (p & Hocc & Hp & e & He & <-).
    apply list_elem_of_lookup in Hp as [n Hn].
    rewrite (findFreeSlot_present H _ _ n p e Htable Hn Hocc He) in Hr.
    by simplify_eq.
  - intros Hout Hroom.
    destruct (findFreeSlot_finds H (ns s) (heap s) nodeid Htable Hroom)
      as [i Hi]; [|rewrite Hi in Hr; simplify_eq; by eexists].
    intros j p e Hj Hocc He Hid. apply Hout. apply elem_of_present_ids.
    exists p. split_and!; [done|by eapply list_elem_of_lookup_2|by exists e].
  - intros i ->. split.
    + destruct (findFreeSlot_sound H _ _ _ i Htable Hr) as (_ & _ & Habsent & _).
      intros Hin. apply elem_of_present_ids in Hin
        as (p & Hocc & Hp & e & He & Hid).
      apply list_elem_of_lookup in Hp as [n Hn].
      by apply (Habsent n p e).
    + rewrite findFreeSlot_scan in Hr by by eapply TableInv_size_prime.
      apply scanFree_Some in Hr as [_ [?|(_ & k & Hk & Hx & Hbefore)]]; [done|].
      by exists k.
Qed.

(** X21: in every state reached through the interface, every occupied
    slot points to an allocated entry that is not marked deleted, whose
    cached hash is the hash of its NodeId and whose reference count is a
    16-bit value; the entry lies on the probe path of its NodeId with no
    empty cell before it; and every allocated entry lives above the
    tombstone sentinel. *)
Theorem slots_point_to_live_entries l s :
  run H l new_store = Some s →
  (∀ (i : nat) p, entries (ns s) !! i = Some p → UA_NODEMAP_TOMBSTONE < p →
     ∃ e, heap s !! p = Some e ∧ deleted e = false ∧
          nodeIdHash e = UA_NodeId_hash H (nodeId (node e)) ∧
          0 <= refCount e < 65536 ∧
          probe_reaches (entries (ns s))
            (UA_NodeId_hash H (nodeId (node e))) (size (ns s)) (Z.of_nat i)) ∧
  (∀ p e, heap s !! p = Some e → UA_NODEMAP_TOMBSTONE < p ∧ p ≠ NULL).
Proof.
  intros Hrun.
  assert (Hinv : Inv H s) by (eapply run_Inv; [apply new_store_Inv|done]).
  assert (Hrc : refCounts_16bit (heap s)).
  { eapply run_refCounts; [apply new_store_Inv| |done]. by intros q e'. }
  assert (Htable := inv_table H s Hinv).
  split.
  - intros i p Hi Hocc.
    destruct (inv_live H _ _ Htable p) as (e & He & Hdel & Hhash);
      [by eapply list_elem_of_lookup_2|done|].
    exists e. split_and!; [done..|by eapply Hrc|by eapply Hrc|].
    by eapply (inv_probe H _ _ Htable).
  - intros p e He. pose proof (inv_heap H s Hinv p e He).
    unfold NULL, UA_NODEMAP_TOMBSTONE in *. lia.
Qed.

End Slots.

(** ** A lost compare-and-swap, and the copies of stored nodes *)

Section LostUpdates.

Variable H : UA_NodeId → Z.

(** X23: a [removeNode] whose compare-and-swap fails, because another
    writer has put [v] into the slot after the entry was read, returns
    [BADINTERNALERROR] and does nothing else: the entry is neither marked
    deleted nor freed, [count] stays, no resize is started. *)
Theorem removeNode_lost_cas_changes_nothing l s calloc_ok nodeid p v :
  run H l new_store = Some s →
  stored s nodeid p → v ≠ p →
  ∃ i : nat,
    entries (ns s) !! i = Some p ∧
    UA_NodeMap_removeNode H (Some v) calloc_ok nodeid s
    = Some (mkStore (set_entries (<[i := v]> (entries (ns s))) (ns s))
              (heap s),
            UA_STATUSCODE_BADINTERNALERROR).
Proof.
  intros Hrun (Hocc & Hpin & e & He & <-) Hv.
  assert (Hinv : Inv H s) by (eapply run_Inv; [apply new_store_Inv|done]).
  apply list_elem_of_lookup in Hpin as [n Hn].
  exists n. split; [done|].
  unfold UA_NodeMap_removeNode.
  rewrite (findOccupiedSlot_complete H _ _ n p e (inv_table H s Hinv))
    by done.
  cbn [mbind option_bind]. unfold clearSlot.
  rewrite Nat2Z.id, Hn. cbn [mbind option_bind].
  rewrite cmpxchg_lost; [|by rewrite Nat2Z.id; eexists|done].
  cbn [mbind option_bind]. rewrite Nat2Z.id.
  by apply Z.eqb_neq in Hv as ->.
Qed.

(** X24: a [replaceNode] whose compare-and-swap fails, because another
    writer has put [v] into the slot after the entry was read, returns
    [BADINTERNALERROR] and frees the new node; the entry it was meant to
    replace is neither marked deleted nor freed. *)
Theorem replaceNode_lost_cas_frees_the_copy l s pnode e v :
  run H l new_store = Some s →
  unpublished s pnode = true → heap s !! pnode = Some e →
  stored s (nodeId (node e)) (orig e) → v ≠ orig e →
  ∃ i : nat,
    entries (ns s) !! i = Some (orig e) ∧
    UA_NodeMap_replaceNode H (Some v) pnode s
    = Some (mkStore (set_entries (<[i := v]> (entries (ns s))) (ns s))
              (delete pnode (heap s)),
            UA_STATUSCODE_BADINTERNALERROR).
Proof.
  intros Hrun Hun He (Hocc & Hpin & old & Hold & Hid) Hv.
  assert (Hinv : Inv H s) by (eapply run_Inv; [apply new_store_Inv|done]).
  apply list_elem_of_lookup in Hpin as [n Hn].
  exists n. split; [done|].
  unfold UA_NodeMap_replaceNode. rewrite He. cbn [mbind option_bind].
  rewrite <- Hid.
  rewrite (findOccupiedSlot_complete H _ _ n (orig e) old
             (inv_table H s Hinv)) by done.
  cbn [mbind option_bind]. rewrite Nat2Z.id, Hn. cbn [mbind option_bind].
  rewrite Z.eqb_refl. cbn [negb]. rewrite Hold. cbn [mbind option_bind].
  cbv zeta.
  rewrite cmpxchg_lost; [|by rewrite Nat2Z.id; eexists|done].
  cbn [mbind option_bind]. rewrite Nat2Z.id.
  apply Z.eqb_neq in Hv as ->. cbn [negb].
  unfold deleteNodeMapEntry. rewrite lookup_insert_eq.
  cbn [mbind option_bind]. by rewrite delete_insert_eq.
Qed.

(** X25: [getNodeCopy] of a NodeId in the table is decided by the
    allocation and by [UA_Node_copy]: without an entry for the copy (no
    memory, or a node class [createEntry] does not know) it returns
    [BADOUTOFMEMORY]; with a failed [UA_Node_copy] it returns that
    status, and the entry allocated for the copy is freed again; in both
    cases the store is exactly as before.  Otherwise it returns [GOOD]
    and the copy. *)
Theorem getNodeCopy_of_stored_node l s alloc copy_status nodeid p e :
  run H l new_store = Some s →
  stored s nodeid p → heap s !! p = Some e →
  let newItem := (createEntry alloc (nodeClass (node e)) (heap s)).1 in
  (newItem = NULL →
   UA_NodeMap_getNodeCopy H alloc copy_status nodeid s
   = Some (s, UA_STATUSCODE_BADOUTOFMEMORY, NULL)) ∧
  (newItem ≠ NULL → copy_status ≠ UA_STATUSCODE_GOOD →
   UA_NodeMap_getNodeCopy H alloc copy_status nodeid s
   = Some (s, copy_status, NULL)) ∧
  (newItem ≠ NULL → copy_status = UA_STATUSCODE_GOOD →
   UA_NodeMap_getNodeCopy H alloc copy_status nodeid s
   = Some (mkStore (ns s)
             (<[newItem := mkEntry 0 p 0 false (node e)]> (heap s)),
           UA_STATUSCODE_GOOD, newItem)) ∧
  (nodeClass (node e) = UA_NODECLASS_UNSPECIFIED → newItem = NULL).
Proof.
  intros Hrun (Hocc & Hpin & e' & He' & <-) He newItem.
  assert (e' = e) as -> by congruence.
  assert (Hinv : Inv H s) by (eapply run_Inv; [apply new_store_Inv|done]).
  apply list_elem_of_lookup in Hpin as [n Hn].
  assert (Hcopy : UA_NodeMap_getNodeCopy H alloc copy_status (nodeId (node e)) s
    = let '(newItem, hp) := createEntry alloc (nodeClass (node e)) (heap s) in
      if newItem =? NULL then Some (s, UA_STATUSCODE_BADOUTOFMEMORY, NULL)
      else
        if decide (copy_status = UA_STATUSCODE_GOOD) then
          ne ← hp !! newItem;
          Some (mkStore (ns s)
                  (<[newItem := set_orig p (set_node (node e) ne)]> hp),
                UA_STATUSCODE_GOOD, newItem)
        else
          hp' ← deleteNodeMapEntry newItem hp;
          Some (mkStore (ns s) hp', copy_status, NULL)).
  { unfold UA_NodeMap_getNodeCopy.
    rewrite (findOccupiedSlot_complete H _ _ n p e (inv_table H s Hinv))
      by done.
    cbn [mbind option_bind]. rewrite Nat2Z.id, Hn. cbn [mbind option_bind].
    by rewrite He. }
  rewrite Hcopy. clear Hcopy. subst newItem.
  destruct (createEntry_spec alloc (nodeClass (node e)) (heap s))
    as [Hnull|(q & Hq & Hfresh & Hcreate)].
  { rewrite Hnull. cbn [fst]. rewrite Z.eqb_refl. split_and!; done. }
  rewrite Hcreate. cbn [fst].
  assert (Hqn : q ≠ NULL) by (unfold NULL, UA_NODEMAP_TOMBSTONE in *; lia).
  apply Z.eqb_neq in Hqn as Hqb. rewrite Hqb.
  split_and!; [done| | |].
  - intros _ Hbad. rewrite decide_False by done.
    unfold deleteNodeMapEntry. rewrite lookup_insert_eq.
    cbn [mbind option_bind]. rewrite delete_insert_eq, delete_id by done.
    by destruct s.
  - intros _ ->. rewrite decide_True by done. rewrite lookup_insert_eq.
    cbn [mbind option_bind]. by rewrite insert_insert_eq.
  - intros Hcls. rewrite Hcls in Hcreate. cbn in Hcreate. by simplify_eq.
Qed.

End LostUpdates.

(** ** Instances on concrete stores *)

Lemma store_one_state_reached :
  run numeric_hash (insert_numeric 100 5) new_store = Some store_one_state.
Proof. vm_compute. reflexivity. Defined.

Lemma store_one_state_stored : stored store_one_state (numeric_id 5) 100.
Proof.
  split_and!.
  - unfold UA_NODEMAP_TOMBSTONE. lia.
  - compute_done.
  - eexists. split; vm_compute; reflexivity.
Defined.

Lemma getNode_returns_stored_node_witness :
  ∃ s', UA_NodeMap_getNode numeric_hash (numeric_id 5) store_one_state
        = Some (s', 100).
Proof.
  assert (He : heap store_one_state !! 100
               = Some (mkEntry 5 0 0 false
                         (mkNode (numeric_id 5) UA_NODECLASS_OBJECT 0)))
    by (vm_compute; reflexivity).
  destruct (getNode_returns_stored_node numeric_hash _ _ _ _ _
              store_one_state_reached store_one_state_stored He)
    as (Hget & _).
  eexists. exact Hget.
Defined.

Lemma unknown_NodeId_is_reported_witness :
  UA_NodeMap_getNode numeric_hash (numeric_id 7) new_store
  = Some (new_store, NULL).
Proof.
  assert (Hrun : run numeric_hash [] new_store = Some new_store)
    by reflexivity.
  assert (Habs : numeric_id 7 ∉ present_ids new_store).
  { assert (present_ids new_store = []) as -> by (vm_compute; reflexivity).
    apply not_elem_of_nil. }
  exact (proj1 (unknown_NodeId_is_reported numeric_hash _ _ _ None
                  UA_STATUSCODE_GOOD true Hrun Habs)).
Defined.

Lemma store_pending_state_reached :
  run numeric_hash
    [ OpBase (OpNewNode (Some 100) UA_NODECLASS_OBJECT);
      OpBase (OpSetNode 100 (mkNode (numeric_id 5) UA_NODECLASS_OBJECT 0)) ]
    new_store
  = Some store_pending_state.
Proof. vm_compute. reflexivity. Defined.

Lemma store_pending_state_insert :
  UA_NodeMap_insertNode numeric_hash true UA_STATUSCODE_GOOD None 100 false
    store_pending_state
  = Some (store_one_state, UA_STATUSCODE_GOOD, None).
Proof. vm_compute. reflexivity. Defined.

Lemma insertNode_then_getNode_witness :
  ∃ e', heap store_one_state !! 100 = Some e' ∧
        nodeIdHash e' = UA_NodeId_hash numeric_hash (nodeId (node e')).
Proof.
  assert (Hun : unpublished store_pending_state 100 = true)
    by (vm_compute; reflexivity).
  destruct (insertNode_then_getNode numeric_hash _ _ _ _ _ _ _ _
              store_pending_state_reached Hun store_pending_state_insert)
    as (e' & He' & Hhash & _).
  exists e'. exact (conj He' Hhash).
Defined.

Lemma insertNode_adds_one_NodeId_witness :
  count (ns store_one_state) = count (ns store_pending_state) + 1.
Proof.
  assert (Hun : unpublished store_pending_state 100 = true)
    by (vm_compute; reflexivity).
  destruct (insertNode_adds_one_NodeId numeric_hash _ _ _ _ _ _ _ _
              store_pending_state_reached Hun store_pending_state_insert)
    as (nodeid & _ & _ & _ & Hcount & _).
  exact Hcount.
Defined.

Lemma store_duplicate_state_reached :
  run numeric_hash
    (insert_numeric 100 5 ++
     [ OpBase (OpNewNode (Some 101) UA_NODECLASS_OBJECT);
       OpBase (OpSetNode 101 (mkNode (numeric_id 5) UA_NODECLASS_OBJECT 0)) ])
    new_store
  = Some store_duplicate_state.
Proof. vm_compute. reflexivity. Defined.

Lemma insertNode_failure_adds_nothing_witness :
  ∃ s', UA_NodeMap_insertNode numeric_hash true UA_STATUSCODE_GOOD None 101
          false store_duplicate_state
        = Some (s', UA_STATUSCODE_BADNODEIDEXISTS, None) ∧
        count (ns s') = count (ns store_duplicate_state).
Proof.
  assert (Hun : unpublished store_duplicate_state 101 = true)
    by (vm_compute; reflexivity).
  assert (Hins : ∃ s', UA_NodeMap_insertNode numeric_hash true
                         UA_STATUSCODE_GOOD None 101 false
                         store_duplicate_state
                       = Some (s', UA_STATUSCODE_BADNODEIDEXISTS, None))
    by (eexists; vm_compute; reflexivity).
  destruct Hins as [s' Hins].
  assert (Hbad : UA_STATUSCODE_BADNODEIDEXISTS ≠ UA_STATUSCODE_GOOD)
    by discriminate.
  destruct (insertNode_failure_adds_nothing numeric_hash _ _ _ _ _ _ _ _ _
              store_duplicate_state_reached Hun Hins Hbad)
    as (_ & _ & Hcount & _).
  exists s'. exact (conj Hins Hcount).
Defined.

Lemma insertNode_existing_NodeId_witness :
  ∃ s' status,
    UA_NodeMap_insertNode numeric_hash true UA_STATUSCODE_GOOD None 101 false
      store_duplicate_state
    = Some (s', status, None) ∧
    count (ns s') = count (ns store_duplicate_state).
Proof.
  assert (Hun : unpublished store_duplicate_state 101 = true)
    by (vm_compute; reflexivity).
  assert (Hbound : size (ns store_duplicate_state) <= 1073741789)
    by (vm_compute; discriminate).
  assert (He : heap store_duplicate_state !! 101
               = Some (mkEntry 0 0 0 false
                         (mkNode (numeric_id 5) UA_NODECLASS_OBJECT 0)))
    by (vm_compute; reflexivity).
  assert (Hnz : is_numeric_zero
                  (nodeId (node (mkEntry 0 0 0 false
                     (mkNode (numeric_id 5) UA_NODECLASS_OBJECT 0)))) = false)
    by reflexivity.
  assert (Hin : nodeId (node (mkEntry 0 0 0 false
                  (mkNode (numeric_id 5) UA_NODECLASS_OBJECT 0)))
                ∈ present_ids store_duplicate_state) by compute_done.
  destruct (insertNode_existing_NodeId numeric_hash _ _ true
              UA_STATUSCODE_GOOD 101 false _
              store_duplicate_state_reached Hbound Hun He Hnz Hin)
    as (s' & status & Hins & _ & Hcount & _).
  exists s', status. exact (conj Hins Hcount).
Defined.

Lemma store_zero_state_reached :
  run numeric_hash [new_zero_node] new_store = Some store_zero_state.
Proof. vm_compute. reflexivity. Defined.

Lemma insertNode_assigns_fresh_identifier_witness :
  ∃ s' c, stored s' (mkNodeId 0 (UA_NODEIDTYPE_NUMERIC c)) 5000 ∧
          count (ns s') = count (ns store_zero_state) + 1.
Proof.
  assert (Hun : unpublished store_zero_state 5000 = true)
    by (vm_compute; reflexivity).
  assert (Hbound : size (ns store_zero_state) <= 1073741789)
    by (vm_compute; discriminate).
  assert (He : heap store_zero_state !! 5000
               = Some (mkEntry 0 0 0 false
                         (mkNode UA_NODEID_NULL UA_NODECLASS_OBJECT 0)))
    by (vm_compute; reflexivity).
  assert (Hz : is_numeric_zero
                 (nodeId (node (mkEntry 0 0 0 false
                    (mkNode UA_NODEID_NULL UA_NODECLASS_OBJECT 0)))) = true)
    by reflexivity.
  assert (Hcopy : false = true → UA_STATUSCODE_GOOD = UA_STATUSCODE_GOOD)
    by (intros _; reflexivity).
  destruct (insertNode_assigns_fresh_identifier numeric_hash _ _
              UA_STATUSCODE_GOOD 5000 false _
              store_zero_state_reached Hbound Hun He Hz Hcopy)
    as (s' & c & _ & Hstored & _ & Hcount).
  exists s', c. exact (conj Hstored Hcount).
Defined.

Lemma removeNode_removes_one_NodeId_witness :
  ∃ s', UA_NodeMap_removeNode numeric_hash None true (numeric_id 5)
          store_one_state
        = Some (s', UA_STATUSCODE_GOOD) ∧
        count (ns s') = count (ns store_one_state) - 1.
Proof.
  assert (Hbound : size (ns store_one_state) <= 1073741789)
    by (vm_compute; discriminate).
  destruct (removeNode_removes_one_NodeId numeric_hash _ _ true _ _
              store_one_state_reached Hbound store_one_state_stored)
    as (s' & Hrem & Hcount & _).
  exists s'. exact (conj Hrem Hcount).
Defined.

Lemma store_one_state_expand :
  ∃ s', expand numeric_hash true store_one_state
        = Some (s', UA_STATUSCODE_GOOD) ∧ size (ns s') = 7.
Proof. eexists. split; vm_compute; reflexivity. Defined.

Lemma expand_keeps_all_nodes_witness :
  ∃ s', expand numeric_hash true store_one_state
        = Some (s', UA_STATUSCODE_GOOD) ∧
        stored s' (numeric_id 5) 100.
Proof.
  destruct store_one_state_expand as (s' & Hexp & _).
  destruct (expand_keeps_all_nodes numeric_hash _ _ _ _ _
              store_one_state_reached Hexp)
    as (_ & _ & _ & Hstored & _).
  exists s'. split; [exact Hexp|].
  apply Hstored. exact store_one_state_stored.
Defined.

Lemma expand_resizes_to_twice_the_count_witness :
  ∃ s', expand numeric_hash true store_one_state
        = Some (s', UA_STATUSCODE_GOOD) ∧
        size (ns s') ∈ primes ∧
        u32 (count (ns store_one_state) * 2) <= size (ns s').
Proof.
  destruct store_one_state_expand as (s' & Hexp & Hsize).
  destruct (expand_resizes_to_twice_the_count numeric_hash _ _ _ _ _
              store_one_state_reached Hexp) as [_ Hresize].
  assert (Hne : s' ≠ store_one_state).
  { intros Heq. rewrite Heq in Hsize. vm_compute in Hsize. discriminate. }
  destruct (Hresize Hne) as (Hprime & _ & Hge & _).
  exists s'. exact (conj Hexp (conj Hprime Hge)).
Defined.


Lemma getNode_releaseNode_round_trip_witness :
  ∃ s', UA_NodeMap_getNode numeric_hash (numeric_id 5) store_one_state
        = Some (s', 100) ∧
        UA_NodeMap_releaseNode 100 s' = Some store_one_state.
Proof.
  assert (Hget : ∃ s', UA_NodeMap_getNode numeric_hash (numeric_id 5)
                         store_one_state = Some (s', 100))
    by (eexists; vm_compute; reflexivity).
  destruct Hget as [s' Hget].
  assert (Hnn : 100 ≠ NULL) by (unfold NULL; lia).
  assert (He : heap store_one_state !! 100
               = Some (mkEntry 5 0 0 false
                         (mkNode (numeric_id 5) UA_NODECLASS_OBJECT 0)))
    by (vm_compute; reflexivity).
  destruct (getNode_releaseNode_round_trip numeric_hash _ _ _ _ _ _
              store_one_state_reached Hget Hnn He) as [Hback _].
  exists s'. split; [exact Hget|]. apply Hback. simpl. lia.
Defined.

Lemma store_copy_state_copied :
  UA_NodeMap_getNodeCopy numeric_hash (Some 200) UA_STATUSCODE_GOOD
    (numeric_id 5) store_one_state
  = Some (store_copy_state, UA_STATUSCODE_GOOD, 200).
Proof. vm_compute. reflexivity. Defined.

Lemma getNodeCopy_deleteNode_round_trip_witness :
  unpublished store_copy_state 200 = true ∧
  UA_NodeMap_deleteNode 200 store_copy_state = Some store_one_state.
Proof.
  destruct (getNodeCopy_deleteNode_round_trip numeric_hash _ _ _ _ _ _
              store_one_state_reached store_copy_state_copied)
    as (Hun & _ & Hdelete).
  exact (conj Hun Hdelete).
Defined.

Lemma store_copy_state_reached :
  run numeric_hash
    (insert_numeric 100 5 ++
     [OpBase (OpGetNodeCopy (Some 200) UA_STATUSCODE_GOOD (numeric_id 5))])
    new_store
  = Some store_copy_state.
Proof. vm_compute. reflexivity. Defined.

Lemma replaceNode_then_getNode_witness :
  ∃ s', UA_NodeMap_replaceNode numeric_hash None 200 store_copy_state
        = Some (s', UA_STATUSCODE_GOOD) ∧
        stored s' (numeric_id 5) 200 ∧
        present_ids s' = present_ids store_copy_state.
Proof.
  assert (Hun : unpublished store_copy_state 200 = true)
    by (vm_compute; reflexivity).
  assert (He : heap store_copy_state !! 200
               = Some (mkEntry 0 100 0 false
                         (mkNode (numeric_id 5) UA_NODECLASS_OBJECT 0)))
    by (vm_compute; reflexivity).
  assert (Hrep : ∃ s', UA_NodeMap_replaceNode numeric_hash None 200
                         store_copy_state = Some (s', UA_STATUSCODE_GOOD))
    by (eexists; vm_compute; reflexivity).
  destruct Hrep as [s' Hrep].
  destruct (replaceNode_then_getNode numeric_hash _ _ _ _ _
              store_copy_state_reached Hun He Hrep)
    as (old & _ & _ & _ & Hstored & _ & Hids & _).
  exists s'. exact (conj Hrep (conj Hstored Hids)).
Defined.

Lemma iterate_visits_each_entry_once_witness :
  UA_NodeMap_iterate 200 (λ _ s0, Some s0) store_one_state
  = visit_each (λ _ s0, Some s0)
      (filter (λ p, UA_NODEMAP_TOMBSTONE < p) (entries (ns store_one_state)))
      store_one_state.
Proof.
  assert (Hvis : ∀ (p : Z) (s0 s1 : Store),
            (λ (_ : Z) (s' : Store), Some s') p s0 = Some s1 → ns s1 = ns s0).
  { intros p s0 s1 Heq. injection Heq as <-. reflexivity. }
  assert (Hfuel : (Z.to_nat (size (ns store_one_state)) < 200)%nat)
    by (vm_compute; lia).
  exact (proj1 (iterate_visits_each_entry_once numeric_hash _ _ 200 _
                  store_one_state_reached Hvis Hfuel)).
Defined.

Lemma iterate_without_calls_changes_nothing_witness :
  apply_op numeric_hash (OpIterate 200 (λ _ _, [])) store_one_state
  = Some store_one_state.
Proof.
  assert (Hfuel : (Z.to_nat (size (ns store_one_state)) < 200)%nat)
    by (vm_compute; lia).
  exact (iterate_without_calls_changes_nothing numeric_hash _ _ 200
           store_one_state_reached Hfuel).
Defined.

Lemma NodeMap_delete_frees_the_table_entries_witness :
  ∃ hp, UA_NodeMap_delete store_one_state = Some hp ∧ hp !! 100 = None.
Proof.
  destruct (NodeMap_delete_frees_the_table_entries numeric_hash _ _
              store_one_state_reached) as [Hfree _].
  destruct Hfree as (hp & Hdelete & Hhp).
  - intros p e Hp He.
    assert (Hall : ∀ q e', heap store_one_state !! q = Some e' →
                           refCount e' = 0).
    { apply (map_Forall_to_list (λ _ e', refCount e' = 0)).
      vm_compute. repeat constructor. }
    exact (Hall p e He).
  - exists hp. split; [exact Hdelete|].
    rewrite Hhp. apply decide_True. compute_done.
Defined.

Lemma load_stays_below_three_quarters_witness :
  count (ns store_one_state) * 4 < size (ns store_one_state) * 3 + 4.
Proof.
  assert (Hbound : size (ns store_pending_state) <= 1073741789)
    by (vm_compute; discriminate).
  assert (Hload : count (ns store_pending_state) * 4
                  < size (ns store_pending_state) * 3 + 4)
    by (vm_compute; reflexivity).
  assert (Ho : apply_base numeric_hash
                 (OpInsertNode true UA_STATUSCODE_GOOD 100 false)
                 store_pending_state
               = Some store_one_state) by (vm_compute; reflexivity).
  exact (proj1 (load_stays_below_three_quarters numeric_hash _ _ _ _
                  store_pending_state_reached Hbound Hload Ho)).
Defined.

Lemma findFreeSlot_picks_first_free_cell_witness :
  findFreeSlot numeric_hash (ns store_one_state) (heap store_one_state)
    (numeric_id 5)
  = Some None.
Proof.
  destruct (findFreeSlot_picks_first_free_cell numeric_hash _ _ (numeric_id 5)
              store_one_state_reached) as (r & Hr & Hpresent & _).
  rewrite Hr. f_equal. apply Hpresent. compute_done.
Defined.

Lemma slots_point_to_live_entries_witness :
  ∃ e, heap store_one_state !! 100 = Some e ∧ deleted e = false.
Proof.
  destruct (slots_point_to_live_entries numeric_hash _ _
              store_one_state_reached) as [Hlive _].
  assert (Hslot : entries (ns store_one_state) !! 5%nat = Some 100)
    by (vm_compute; reflexivity).
  assert (Hocc : UA_NODEMAP_TOMBSTONE < 100)
    by (unfold UA_NODEMAP_TOMBSTONE; lia).
  destruct (Hlive 5%nat 100 Hslot Hocc) as (e & He & Hdel & _).
  exists e. exact (conj He Hdel).
Defined.


Lemma store_copy_state_stored : stored store_copy_state (numeric_id 5) 100.
Proof.
  split_and!.
  - unfold UA_NODEMAP_TOMBSTONE. lia.
  - compute_done.
  - eexists. split; vm_compute; reflexivity.
Defined.

Lemma removeNode_lost_cas_changes_nothing_witness :
  ∃ i : nat,
    entries (ns store_one_state) !! i = Some 100 ∧
    UA_NodeMap_removeNode numeric_hash (Some 300) true (numeric_id 5)
      store_one_state
    = Some (mkStore
              (set_entries (<[i := 300]> (entries (ns store_one_state)))
                 (ns store_one_state))
              (heap store_one_state),
            UA_STATUSCODE_BADINTERNALERROR).
Proof.
  assert (Hv : (300 : Z) ≠ 100) by lia.
  exact (removeNode_lost_cas_changes_nothing numeric_hash _ _ true _ _ 300
           store_one_state_reached store_one_state_stored Hv).
Defined.

Lemma replaceNode_lost_cas_frees_the_copy_witness :
  ∃ i : nat,
    entries (ns store_copy_state) !! i = Some 100 ∧
    UA_NodeMap_replaceNode numeric_hash (Some 300) 200 store_copy_state
    = Some (mkStore
              (set_entries (<[i := 300]> (entries (ns store_copy_state)))
                 (ns store_copy_state))
              (delete 200 (heap store_copy_state)),
            UA_STATUSCODE_BADINTERNALERROR).
Proof.
  assert (Hun : unpublished store_copy_state 200 = true)
    by (vm_compute; reflexivity).
  assert (He : heap store_copy_state !! 200
               = Some (mkEntry 0 100 0 false
                         (mkNode (numeric_id 5) UA_NODECLASS_OBJECT 0)))
    by (vm_compute; reflexivity).
  assert (Hv : (300 : Z) ≠ 100) by lia.
  exact (replaceNode_lost_cas_frees_the_copy numeric_hash _ _ 200 _ 300
           store_copy_state_reached Hun He store_copy_state_stored Hv).
Defined.

Lemma getNodeCopy_of_stored_node_witness :
  UA_NodeMap_getNodeCopy numeric_hash None UA_STATUSCODE_GOOD (numeric_id 5)
    store_one_state
  = Some (store_one_state, UA_STATUSCODE_BADOUTOFMEMORY, NULL).
Proof.
  assert (He : heap store_one_state !! 100
               = Some (mkEntry 5 0 0 false
                         (mkNode (numeric_id 5) UA_NODECLASS_OBJECT 0)))
    by (vm_compute; reflexivity).
  destruct (getNodeCopy_of_stored_node numeric_hash _ _ None
              UA_STATUSCODE_GOOD _ _ _
              store_one_state_reached store_one_state_stored He)
    as (Hnull & _).
  apply Hnull. reflexivity.
Defined.
